(** * Bible Study PWA: the service worker and the content validator

    A shallow embedding of the JavaScript sources of the repository:

    - [SwJs]   : the service worker [sw.js];
    - [SwDoc]  : the service worker listed after the testing guide in
                 [docs/PWA-TESTING.md] (cache versioning, route table,
                 stale-while-revalidate);
    - [Validator] : the Node script that validates the JSON content, as
                 it acts on its two arrays of messages;
    - [Stats]  : the same script with its table [bookStats], its
                 [printSummary] and its [main];
    - [Page]   : the registration script of the host page.

    The browser is the environment of the two workers.  Its Cache API,
    its [fetch] and the life cycle of a service worker instance are
    written out in [Platform] and [Lifecycle], following the Service
    Worker and Fetch standards; the workers are translated on top of
    them statement by statement.  Requests are the [GET] requests of the
    static application, so a cache entry is addressed by its URL.
    Calls to [console.log] are not part of the model. *)

From Stdlib Require Import String Ascii ZArith Bool Lia.
From stdpp Require Import strings gmap list.

Open Scope string_scope.
Open Scope list_scope.

(** ** JavaScript strings

    A string is a sequence of code units; the model covers the code
    units below 256, one [ascii] each. *)

Module JsString.

Definition code (c : ascii) : nat := nat_of_ascii c.

(** [\d] *)
Definition is_digit (c : ascii) : bool :=
  (48 <=? code c)%nat && (code c <=? 57)%nat.

(** [\s] on code units below 256: TAB, LF, VT, FF, CR, SPACE, NBSP. *)
Definition is_space (c : ascii) : bool :=
  ((9 <=? code c)%nat && (code c <=? 13)%nat)
  || (code c =? 32)%nat || (code c =? 160)%nat.

(** The characters [.] does not match: LF and CR. *)
Definition is_line_terminator (c : ascii) : bool :=
  (code c =? 10)%nat || (code c =? 13)%nat.

Definition startsWith (s p : string) : bool := String.prefix p s.

Fixpoint includes (s p : string) : bool :=
  String.prefix p s
  || match s with
     | EmptyString => false
     | String _ s' => includes s' p
     end.

Definition endsWith (s p : string) : bool :=
  String.prefix (String.rev p) (String.rev s).

(** [s.slice(0, s.length - n)] *)
Definition drop_end (n : nat) (s : string) : string :=
  substring 0 (String.length s - n) s.

(** [/^\d+$/.test(s)] *)
Definition all_digits (s : string) : bool :=
  match list_ascii_of_string s with
  | [] => false
  | cs => forallb is_digit cs
  end.

(** [parseInt(s, 10)] on a string of digits. *)
Definition parseInt (s : string) : Z :=
  fold_left (fun acc c => (10 * acc + Z.of_nat (code c - 48))%Z)
            (list_ascii_of_string s) 0%Z.

End JsString.

(** ** JavaScript values that come out of [JSON.parse] or a message *)

#[local] Set Warnings "-register-all".

Inductive JSON : Type :=
| JNull
| JBool (b : bool)
| JNum (n : Z)
| JStr (s : string)
| JArr (items : list JSON)
| JObj (fields : list (string * JSON)).

Module Js.

(** Truthiness, as tested by [if (v)], [!v], [a && b], [a || b]. *)
Definition truthy (v : JSON) : bool :=
  match v with
  | JNull => false
  | JBool b => b
  | JNum n => negb (n =? 0)%Z
  | JStr s => negb (String.eqb s "")
  | JArr _ | JObj _ => true
  end.

(** Truthiness of a value that may be [undefined]. *)
Definition truthy_opt (v : option JSON) : bool :=
  match v with
  | Some v => truthy v
  | None => false
  end.

Fixpoint assoc (k : string) (fields : list (string * JSON)) : option JSON :=
  match fields with
  | [] => None
  | (k', v) :: rest => if String.eqb k k' then Some v else assoc k rest
  end.

(** A property key that is an array index: ["0"], or digits without a
    leading zero. *)
Definition array_index (k : string) : option nat :=
  if JsString.all_digits k
     && (String.eqb k "0" || negb (JsString.startsWith k "0"))
  then Some (Z.to_nat (JsString.parseInt k))
  else None.

(** [v[k]] for a value that is neither [null] nor [undefined]; [None]
    is [undefined].  Own properties only: the keys the sources look up
    in a parsed value are not names of [Object.prototype].  The two
    objects the script fills itself, [bibleData] and [bookStats], are
    looked up under file names, and there the inherited names count
    ([inherited] below). *)
Definition get (v : JSON) (k : string) : option JSON :=
  match v with
  | JObj fields => assoc k fields
  | JArr items =>
      if String.eqb k "length" then Some (JNum (Z.of_nat (length items)))
      else match array_index k with
           | Some i => items !! i
           | None => None
           end
  | JStr s =>
      if String.eqb k "length" then Some (JNum (Z.of_nat (String.length s)))
      else match array_index k with
           | Some i =>
               match String.get i s with
               | Some c => Some (JStr (String c EmptyString))
               | None => None
               end
           | None => None
           end
  | JNull | JBool _ | JNum _ => None
  end.

(** [v === "s"] *)
Definition is_string (s : string) (v : option JSON) : bool :=
  match v with
  | Some (JStr s') => String.eqb s' s
  | _ => false
  end.

(** [Array.isArray(v)] *)
Definition isArray (v : JSON) : bool :=
  match v with
  | JArr _ => true
  | _ => false
  end.

(** [typeof v === 'object'] ([null] included). *)
Definition typeof_object (v : JSON) : bool :=
  match v with
  | JNull | JArr _ | JObj _ => true
  | _ => false
  end.

(** [n > v] and [n < v] for an integer [n] and a value [v] that may be
    [undefined].  Numbers, booleans and [null] are converted as
    JavaScript does; [undefined] is [NaN], which compares false.  A
    string, array or object on the right (only reachable through an
    own [length] key of an object) is treated as [NaN] as well. *)
Definition to_number (v : option JSON) : option Z :=
  match v with
  | Some (JNum n) => Some n
  | Some (JBool b) => Some (if b then 1 else 0)%Z
  | Some JNull => Some 0%Z
  | _ => None
  end.

Definition gt (n : Z) (v : option JSON) : bool :=
  match to_number v with
  | Some m => (m <? n)%Z
  | None => false
  end.

(** The names every object inherits from [Object.prototype]: read from
    an object that has no such property of its own, they give the
    inherited value, a function or [Object.prototype] itself, which is
    truthy and has neither a [translations] property nor a property
    named by digits. *)
Definition inherited (k : string) : bool :=
  existsb (String.eqb k)
    [ "constructor"; "__proto__"; "hasOwnProperty"; "isPrototypeOf";
      "propertyIsEnumerable"; "toLocaleString"; "toString"; "valueOf";
      "__defineGetter__"; "__defineSetter__"; "__lookupGetter__";
      "__lookupSetter__" ].

End Js.

(** ** URLs, requests and responses *)

Module Url.

(** Splits a string before the first character satisfying [stop]. *)
Fixpoint split_on (stop : ascii -> bool) (s : string) : string * string :=
  match s with
  | EmptyString => (EmptyString, EmptyString)
  | String c s' =>
      if stop c then (EmptyString, s)
      else let '(a, b) := split_on stop s' in (String c a, b)
  end.

(** Splits [scheme://rest] into [(scheme, rest)]. *)
Fixpoint cut_scheme (s : string) : option (string * string) :=
  if String.prefix "://" s then Some (EmptyString, substring 3 (String.length s - 3) s)
  else match s with
       | EmptyString => None
       | String c s' =>
           match cut_scheme s' with
           | Some (a, b) => Some (String c a, b)
           | None => None
           end
       end.

Definition ends_authority (c : ascii) : bool :=
  Ascii.eqb c "/" || Ascii.eqb c "?" || Ascii.eqb c "#".

Definition ends_path (c : ascii) : bool :=
  Ascii.eqb c "?" || Ascii.eqb c "#".

(** [new URL(href).origin] for a serialised http(s) URL. *)
Definition origin (href : string) : string :=
  match cut_scheme href with
  | Some (scheme, rest) => scheme +:+ "://" +:+ fst (split_on ends_authority rest)
  | None => "null"
  end.

(** [new URL(href).pathname] *)
Definition pathname (href : string) : string :=
  match cut_scheme href with
  | Some (_, rest) =>
      let tail := snd (split_on ends_authority rest) in
      if String.prefix "/" tail then fst (split_on ends_path tail) else "/"
  | None => EmptyString
  end.

(** The URL of [new Request(s)] inside a worker served from the root
    of [base]: a path is resolved against the origin, an absolute URL
    without a path gets the path [/]. *)
Definition resolve (base s : string) : string :=
  if String.prefix "/" s then base +:+ s
  else match cut_scheme s with
       | Some (_, rest) =>
           if String.eqb (snd (split_on ends_authority rest)) "" then s +:+ "/" else s
       | None => base +:+ "/" +:+ s
       end.

End Url.

(** [response.type] *)
Inductive ResponseType : Type :=
| type_basic | type_cors | type_opaque | type_opaqueredirect | type_default | type_error.

Record Request : Type := mkRequest {
  url : string;          (* serialised absolute URL *)
  destination : string   (* "document", "script", "image", "" ... *)
}.

Record Response : Type := mkResponse {
  status : Z;
  type : ResponseType;
  body : string
}.

(** What a [fetch] promise settles with. *)
Inductive FetchResult : Type :=
| NetOk (response : Response)
| NetFail.

(** The network as seen during one event. *)
Definition Network : Type := Request -> FetchResult.

(** What a handler hands to [event.respondWith]. *)
Inductive JsVal : Type :=
| VResponse (r : Response)
| VUndefined
| VNull.

(** How the promise given to [event.waitUntil] settles. *)
Inductive Outcome : Type :=
| Fulfilled
| Rejected.

Definition is_basic (t : ResponseType) : bool :=
  match t with
  | type_basic => true
  | _ => false
  end.

Definition of_match (r : option Response) : JsVal :=
  match r with
  | Some r => VResponse r
  | None => VUndefined
  end.

(** [event.respondWith(v)]: anything but a [Response] is a network error
    for the page. *)
Definition delivered (v : JsVal) : option Response :=
  match v with
  | VResponse r => Some r
  | VUndefined | VNull => None
  end.

(** ** The platform: cache storage, the worker's global scope, handlers

    [CacheStorage] keeps the named caches in creation order, the order
    in which [caches.keys()] lists them and [caches.match] searches
    them.  A cache maps the URL of a request to the stored response. *)

Module Platform.

Definition CacheStorage : Type := list (string * gmap string Response).

Definition has_cache (name : string) (cs : CacheStorage) : bool :=
  existsb (fun p => String.eqb (fst p) name) cs.

(** [caches.open(name)] creates the cache when it does not exist. *)
Definition open (name : string) (cs : CacheStorage) : CacheStorage :=
  if has_cache name cs then cs else cs ++ [(name, ∅)].

(** [caches.keys()] *)
Definition keys (cs : CacheStorage) : list string := map fst cs.

(** [caches.delete(name)] *)
Definition delete (name : string) (cs : CacheStorage) : CacheStorage :=
  List.filter (fun p => negb (String.eqb (fst p) name)) cs.

(** The cache called [name], if it exists. *)
Fixpoint lookup_cache (name : string) (cs : CacheStorage)
  : option (gmap string Response) :=
  match cs with
  | [] => None
  | (n, c) :: rest => if String.eqb n name then Some c else lookup_cache name rest
  end.

(** [cache.match(key)] on the cache called [name]. *)
Definition match_in (name key : string) (cs : CacheStorage) : option Response :=
  match lookup_cache name cs with
  | Some c => c !! key
  | None => None
  end.

(** [caches.match(key)]: the first cache, in creation order, that
    holds the key. *)
Fixpoint match_any (key : string) (cs : CacheStorage) : option Response :=
  match cs with
  | [] => None
  | (_, c) :: rest =>
      match c !! key with
      | Some r => Some r
      | None => match_any key rest
      end
  end.

(** [cache.put(key, r)] on the cache called [name]. *)
Definition put (name key : string) (r : Response) (cs : CacheStorage)
  : CacheStorage :=
  map (fun p => if String.eqb (fst p) name then (fst p, <[key := r]> (snd p)) else p) cs.

(** What can be observed of a handler, in program order. *)
Inductive Event : Type :=
| EvFetch (request : Request)                       (* fetch(request) is issued *)
| EvSettle (request : Request) (result : FetchResult) (* its promise settles *)
| EvRespond (v : JsVal)                             (* respondWith's promise settles *)
| EvPut (cacheName key : string) (r : Response)     (* cache.put *)
| EvDelete (cacheName : string)                     (* caches.delete *)
| EvSkipWaiting                                     (* self.skipWaiting() *)
| EvClaim.                                          (* self.clients.claim() *)

(** The state a handler runs in. *)
Record World : Type := mkWorld {
  caches : CacheStorage;
  skip_waiting : bool;     (* the instance's skip-waiting flag *)
  log : list Event
}.

Definition Task (A : Type) : Type := World -> A * World.

Definition ret {A} (a : A) : Task A := fun w => (a, w).

Definition bind {A B} (m : Task A) (k : A -> Task B) : Task B :=
  fun w => let '(a, w') := m w in k a w'.

Definition emit (e : Event) : Task unit :=
  fun w => (tt, mkWorld (caches w) (skip_waiting w) (log w ++ [e])).

Definition update_caches (f : CacheStorage -> CacheStorage) : Task unit :=
  fun w => (tt, mkWorld (f (caches w)) (skip_waiting w) (log w)).

Definition read_caches {A} (f : CacheStorage -> A) : Task A :=
  fun w => (f (caches w), w).

Definition run {A} (m : Task A) (w : World) : World := snd (m w).

Definition result {A} (m : Task A) (w : World) : A := fst (m w).

End Platform.

Import Platform.

Declare Scope task_scope.
Delimit Scope task_scope with task.
Notation "'let!' x ':=' c 'in' k" := (bind c (fun x => k))
  (at level 10, x name, c at level 100, k at level 200) : task_scope.
Notation "c '>>' k" := (bind c (fun _ => k))
  (at level 100, k at level 200, right associativity) : task_scope.

Module Api.

Open Scope task_scope.

Definition caches_open (name : string) : Task unit :=
  update_caches (open name).

Definition caches_keys : Task (list string) := read_caches keys.

Definition caches_delete (name : string) : Task unit :=
  emit (EvDelete name) >> update_caches (delete name).

Definition caches_match (key : string) : Task (option Response) :=
  read_caches (match_any key).

Definition cache_match (name key : string) : Task (option Response) :=
  read_caches (match_in name key).

Definition cache_put (name key : string) (r : Response) : Task unit :=
  emit (EvPut name key r) >> update_caches (put name key r).

(** [fetch(request)] is issued ... *)
Definition fetch_start (request : Request) : Task unit :=
  emit (EvFetch request).

(** ... and, later, its promise settles and the callbacks run. *)
Definition fetch_settled (net : Network) (request : Request) : Task FetchResult :=
  emit (EvSettle request (net request)) >> ret (net request).

Definition respondWith (v : JsVal) : Task unit := emit (EvRespond v).

Definition skipWaiting : Task unit :=
  fun w => (tt, mkWorld (caches w) true (log w ++ [EvSkipWaiting])).

Definition clients_claim : Task unit := emit EvClaim.

(** [Promise.all(names.map(f))] for an [f] that cannot reject. *)
Fixpoint for_each {A} (f : A -> Task unit) (l : list A) : Task unit :=
  match l with
  | [] => ret tt
  | x :: rest => f x >> for_each f rest
  end.

(** [cache.addAll(urls)]: every URL is fetched; unless every fetch
    gives a response with an ok status (200 to 299, 206 excepted) the
    promise rejects and nothing is stored. *)
Definition addAll_accepts (r : Response) : bool :=
  (200 <=? status r)%Z && (status r <=? 299)%Z && negb (status r =? 206)%Z.

Fixpoint precache_fetch (net : Network) (urls : list string)
  : option (list (string * Response)) :=
  match urls with
  | [] => Some []
  | u :: rest =>
      match net (mkRequest u "") with
      | NetOk r =>
          if addAll_accepts r then
            match precache_fetch net rest with
            | Some entries => Some ((u, r) :: entries)
            | None => None
            end
          else None
      | NetFail => None
      end
  end.

Definition cache_addAll (net : Network) (name : string) (urls : list string)
  : Task Outcome :=
  for_each (fun u => fetch_start (mkRequest u "")) urls >>
  match precache_fetch net urls with
  | Some entries =>
      for_each (fun e => cache_put name (fst e) (snd e)) entries >> ret Fulfilled
  | None => ret Rejected
  end.

End Api.

Import Api.

(** ** [sw.js] *)

Module SwJs.
Section Worker.

Open Scope task_scope.

(** [self.location.origin] *)
Variable location_origin : string.

Definition CACHE_NAME : string := "bible-study-v1".

Definition ASSETS_TO_CACHE : list string :=
  [ "/";
    "/index.html";
    "/manifest.webmanifest";
    "/assets/icon-192.svg";
    "/assets/icon-512.svg";
    "https://cdn.tailwindcss.com" ].

(** The [install] listener: the promise given to [event.waitUntil]. *)
Definition install (net : Network) : Task Outcome :=
  caches_open CACHE_NAME >>
  let! added := cache_addAll net CACHE_NAME
                  (map (Url.resolve location_origin) ASSETS_TO_CACHE) in
  match added with
  | Fulfilled => skipWaiting >> ret Fulfilled
  | Rejected => ret Rejected
  end.

(** The [activate] listener. *)
Definition activate : Task Outcome :=
  let! cacheNames := caches_keys in
  for_each caches_delete
    (List.filter (fun name => negb (String.eqb name CACHE_NAME)) cacheNames) >>
  clients_claim >>
  ret Fulfilled.

(** The [fetch] listener.  [fetch] always resolves with a response
    object, so the test [!response] never holds. *)
Definition on_fetch (net : Network) (request : Request) : Task unit :=
  let! cached := caches_match (url request) in
  match cached with
  | Some response => respondWith (VResponse response)
  | None =>
      fetch_start request >>
      let! settled := fetch_settled net request in
      match settled with
      | NetOk response =>
          if negb (status response =? 200)%Z || negb (is_basic (type response))
          then respondWith (VResponse response)
          else
            (* caches.open(...).then(...) is called, the response is
               returned, the callback runs afterwards *)
            caches_open CACHE_NAME >>
            respondWith (VResponse response) >>
            if JsString.startsWith (url request) location_origin
               || JsString.includes (url request) ".json"
            then cache_put CACHE_NAME (url request) response
            else ret tt
      | NetFail =>
          if String.eqb (destination request) "document"
          then
            let! fallback := caches_match (Url.resolve location_origin "/index.html") in
            respondWith (of_match fallback)
          else respondWith VUndefined
      end
  end.

(** The [message] listener; [None] is a message whose data is
    [undefined]. *)
Definition on_message (data : option JSON) : Task unit :=
  if match data with
     | Some d => Js.truthy d && Js.is_string "SKIP_WAITING" (Js.get d "type")
     | None => false
     end
  then skipWaiting
  else ret tt.

End Worker.
End SwJs.

(** ** The service worker listed in [docs/PWA-TESTING.md] *)

Module SwDoc.
Section Worker.

Open Scope task_scope.

(** [location.origin] *)
Variable location_origin : string.

Definition CACHE_VERSION : string := "v1".
Definition CACHE_NAME : string := "bible-study-" +:+ CACHE_VERSION.

Definition PRECACHE_ASSETS : list string :=
  [ "/";
    "/index.html";
    "/manifest.webmanifest";
    "https://cdn.tailwindcss.com";
    "/theology/commentary.json";
    "/xrefs/John.json";
    "/xrefs/Psalms.json";
    "/xrefs/John-3-16.json" ].

(** The [install] listener.  The [.catch] handler logs the rejection
    and returns, so the promise given to [event.waitUntil] fulfils. *)
Definition install (net : Network) : Task Outcome :=
  caches_open CACHE_NAME >>
  let! added := cache_addAll net CACHE_NAME
                  (map (Url.resolve location_origin) PRECACHE_ASSETS) in
  match added with
  | Fulfilled => ret Fulfilled
  | Rejected => ret Fulfilled
  end.

(** The [activate] listener. *)
Definition activate : Task Outcome :=
  let! cacheNames := caches_keys in
  for_each caches_delete
    (List.filter (fun name => JsString.startsWith name "bible-study-"
                              && negb (String.eqb name CACHE_NAME)) cacheNames) >>
  clients_claim >>
  ret Fulfilled.

(** [fetch(request).then(...).catch(...)]: what runs once the network
    promise settles, and the value [fetchPromise] resolves with. *)
Definition fetchPromise (net : Network) (request : Request) : Task JsVal :=
  let! settled := fetch_settled net request in
  match settled with
  | NetOk networkResponse =>
      (if (status networkResponse =? 200)%Z
       then cache_put CACHE_NAME (url request) networkResponse
       else ret tt) >>
      ret (VResponse networkResponse)
  | NetFail => ret VNull
  end.

(** [staleWhileRevalidate(request)].  The promise the function returns
    is rendered by [resolve], the reaction of its caller: with a
    cached response the function returns at once and the callbacks of
    [fetchPromise] run later; without one the returned promise is
    [fetchPromise] itself. *)
Definition staleWhileRevalidate (net : Network) (request : Request)
    (resolve : JsVal -> Task unit) : Task unit :=
  caches_open CACHE_NAME >>
  let! cachedResponse := cache_match CACHE_NAME (url request) in
  fetch_start request >>
  match cachedResponse with
  | Some r =>
      resolve (VResponse r) >>
      let! _ := fetchPromise net request in
      ret tt
  | None =>
      let! v := fetchPromise net request in
      resolve v
  end.

(** The route test of the [fetch] listener. *)
Definition runtime_route (request : Request) : bool :=
  let pathname := Url.pathname (url request) in
  JsString.startsWith pathname "/bibles/" || JsString.startsWith pathname "/xrefs/".

(** The [fetch] listener. *)
Definition on_fetch (net : Network) (request : Request) : Task unit :=
  if runtime_route request
  then staleWhileRevalidate net request respondWith
  else
    let! cachedResponse := caches_match (url request) in
    match cachedResponse with
    | Some r => respondWith (VResponse r)
    | None =>
        fetch_start request >>
        let! settled := fetch_settled net request in
        match settled with
        | NetOk response =>
            if negb (status response =? 200)%Z
            then respondWith (VResponse response)
            else
              if String.eqb (Url.origin (url request)) location_origin
              then
                caches_open CACHE_NAME >>
                respondWith (VResponse response) >>
                cache_put CACHE_NAME (url request) response
              else respondWith (VResponse response)
        | NetFail =>
            if String.eqb (destination request) "document"
            then
              let! fallback := caches_match (Url.resolve location_origin "/index.html") in
              respondWith (of_match fallback)
            else respondWith VUndefined
        end
    end.

(** The [message] listener. *)
Definition on_message (data : option JSON) : Task unit :=
  if match data with
     | Some d => Js.truthy d && Js.is_string "SKIP_WAITING" (Js.get d "type")
     | None => false
     end
  then skipWaiting
  else ret tt.

End Worker.
End SwDoc.

(** ** The life cycle of a service worker instance

    The browser's side of the protocol, after the Service Worker
    standard: the Install algorithm (a rejected [waitUntil] promise
    makes the instance redundant, otherwise it is installed), Try
    Activate (an installed instance is activated when its skip-waiting
    flag is set or no other instance controls a page), and Activate. *)

Module Lifecycle.

Inductive Phase : Type :=
| Installing | Waiting | Activating | Activated | Redundant.

(** The listeners a worker script registers. *)
Record Script : Type := mkScript {
  script_install : Network -> Task Outcome;
  script_activate : Task Outcome;
  script_fetch : Network -> Request -> Task unit;
  script_message : option JSON -> Task unit
}.

Record Instance : Type := mkInstance {
  phase : Phase;
  world : World;
  controlled_by_other : bool  (* another instance is the active controller *)
}.

Inductive Stimulus : Type :=
| DoInstall (net : Network)       (* the install event is dispatched *)
| Message (data : option JSON)    (* a page posts a message *)
| PagesClosed                     (* the old controller lost its last page *)
| DoActivate                      (* the activate event is dispatched *)
| Fetch (net : Network) (request : Request).

(** Try Activate, for an installed instance. *)
Definition try_activate (w : World) (controlled : bool) : Phase :=
  if skip_waiting w || negb controlled then Activating else Waiting.

Definition step (s : Script) (i : Instance) (e : Stimulus) : Instance :=
  match e, phase i with
  | DoInstall net, Installing =>
      let '(outcome, w) := script_install s net (world i) in
      match outcome with
      | Rejected => mkInstance Redundant w (controlled_by_other i)
      | Fulfilled =>
          mkInstance (try_activate w (controlled_by_other i)) w (controlled_by_other i)
      end
  | Message data, Redundant => i
  | Message data, Waiting =>
      let w := run (script_message s data) (world i) in
      mkInstance (try_activate w (controlled_by_other i)) w (controlled_by_other i)
  | Message data, p =>
      mkInstance p (run (script_message s data) (world i)) (controlled_by_other i)
  | PagesClosed, Waiting => mkInstance Activating (world i) false
  | PagesClosed, p => mkInstance p (world i) false
  | DoActivate, Activating =>
      mkInstance Activated (run (script_activate s) (world i)) (controlled_by_other i)
  | Fetch net request, Activated =>
      mkInstance Activated (run (script_fetch s net request) (world i))
                 (controlled_by_other i)
  | _, _ => i
  end.

Definition steps (s : Script) (i : Instance) (es : list Stimulus) : Instance :=
  fold_left (step s) es i.

End Lifecycle.

Definition sw_js (location_origin : string) : Lifecycle.Script :=
  Lifecycle.mkScript (SwJs.install location_origin) SwJs.activate
                     (SwJs.on_fetch location_origin) SwJs.on_message.

Definition sw_doc (location_origin : string) : Lifecycle.Script :=
  Lifecycle.mkScript (SwDoc.install location_origin) SwDoc.activate
                     (SwDoc.on_fetch location_origin) SwDoc.on_message.

(** ** The content validator

    The script reads a directory tree and accumulates messages in the
    two global arrays [errors] and [warnings].  A file is represented by
    what [JSON.parse] makes of its text.  An object is the list of its
    entries in the order of [Object.entries].  This module gives the
    functions as they act on the two arrays; the table [bookStats],
    which [validateBibleFiles] fills and [printSummary] reads, is added
    in [Stats], where [main] is the script's.  The unused read of
    [join(translationPath, '.')] is left out. *)

Module Validator.

Inductive Node : Type :=
| File (parsed : option JSON)            (* [None]: the text is not JSON *)
| Dir (entries : list (string * Node)).

Definition Path : Type := list string.

Inductive Exn : Type :=
| ENOENT | ENOTDIR | EISDIR    (* thrown by readdir and readFile *)
| SyntaxError                  (* thrown by JSON.parse *)
| TypeError.

Fixpoint entry (name : string) (entries : list (string * Node)) : option Node :=
  match entries with
  | [] => None
  | (n, child) :: rest => if String.eqb n name then Some child else entry name rest
  end.

Fixpoint find (root : Node) (p : Path) : option Node :=
  match p with
  | [] => Some root
  | name :: p' =>
      match root with
      | Dir entries =>
          match entry name entries with
          | Some child => find child p'
          | None => None
          end
      | File _ => None
      end
  end.

Definition readdir (fs : Node) (p : Path) : Exn + list string :=
  match find fs p with
  | Some (Dir entries) => inr (map fst entries)
  | Some (File _) => inl ENOTDIR
  | None => inl ENOENT
  end.

(** [readFile(path, 'utf-8')]: the text, as [JSON.parse] will see it. *)
Definition readFile (fs : Node) (p : Path) : Exn + option JSON :=
  match find fs p with
  | Some (File parsed) => inr parsed
  | Some (Dir _) => inl EISDIR
  | None => inl ENOENT
  end.

Definition JSON_parse (content : option JSON) : Exn + JSON :=
  match content with
  | Some v => inr v
  | None => inl SyntaxError
  end.

(** One constructor for each template string pushed on [errors] or
    [warnings], with the values it interpolates. *)
Inductive Msg : Type :=
| BibleNotObject (filePath : Path)
| InvalidChapterKey (filePath : Path) (chapterNum : string)
| ChapterNotArray (filePath : Path) (chapterNum : string)
| EmptyChapter (filePath : Path) (chapterNum : string)
| VerseNotString (filePath : Path) (chapterNum : string) (verse : nat)
| Thrown (filePath : Path) (err : Exn)
| XrefNotObject (filePath : Path)
| InvalidXrefKey (filePath : Path) (key : string)
| XrefValueNotArray (filePath : Path) (key : string)
| ReferenceNotString (filePath : Path) (key : string)
| CouldNotParse (filePath : Path) (ref : string)
| ChapterMissing (filePath : Path) (ref chapter book : string)
| VerseMissing (filePath : Path) (ref : string) (verse : Z) (book chapter : string)
| DirectoryNotFound (dir : string)
| CommentaryNotArray (filePath : Path)
| MissingField (filePath : Path) (idx : nat) (field : string)
| BadMode (filePath : Path) (idx : nat) (mode : JSON)
| ExcerptTooLong (filePath : Path) (idx : nat) (wordCount : nat)
| TakeawaysNotArray (filePath : Path) (idx : nat).

(** The two global arrays. *)
Record Acc : Type := mkAcc {
  errors : list Msg;
  warnings : list Msg
}.

(** A computation that may throw; what was pushed before the throw
    stays pushed. *)
Definition V (A : Type) : Type := Acc -> (Exn + A) * Acc.

Definition vret {A} (a : A) : V A := fun acc => (inr a, acc).

Definition vbind {A B} (m : V A) (k : A -> V B) : V B :=
  fun acc =>
    match m acc with
    | (inr a, acc') => k a acc'
    | (inl e, acc') => (inl e, acc')
    end.

Definition lift {A} (r : Exn + A) : V A := fun acc => (r, acc).

Definition try_catch {A} (m : V A) (handler : Exn -> V A) : V A :=
  fun acc =>
    match m acc with
    | (inr a, acc') => (inr a, acc')
    | (inl e, acc') => handler e acc'
    end.

Definition push_error (m : Msg) : V unit :=
  fun acc => (inr tt, mkAcc (errors acc ++ [m]) (warnings acc)).

Definition push_warning (m : Msg) : V unit :=
  fun acc => (inr tt, mkAcc (errors acc) (warnings acc ++ [m])).

Declare Scope v_scope.
Delimit Scope v_scope with V.
Notation "'let!' x ':=' c 'in' k" := (vbind c (fun x => k))
  (at level 10, x name, c at level 100, k at level 200) : v_scope.
Notation "c '>>' k" := (vbind c (fun _ => k))
  (at level 100, k at level 200, right associativity) : v_scope.

Open Scope v_scope.

Definition when (b : bool) (m : V unit) : V unit := if b then m else vret tt.

(** [for (const x of xs) body]; [continue] is the end of [body]. *)
Fixpoint for_of {A} (xs : list A) (body : A -> V unit) : V unit :=
  match xs with
  | [] => vret tt
  | x :: rest => body x >> for_of rest body
  end.

(** [xs.forEach((x, idx) => body)], counting from [idx]. *)
Fixpoint forEach_from {A} (idx : nat) (xs : list A) (body : A -> nat -> V unit)
  : V unit :=
  match xs with
  | [] => vret tt
  | x :: rest => body x idx >> forEach_from (S idx) rest body
  end.

(** [Object.entries(data)] for a value whose [typeof] is ['object']
    and that is not an array. *)
Definition Object_entries (data : JSON) : Exn + list (string * JSON) :=
  match data with
  | JObj fields => inr fields
  | JNull => inl TypeError
  | _ => inr []
  end.

(** [data.k]: reading a property of [null] throws. *)
Definition prop (data : JSON) (k : string) : Exn + option JSON :=
  match data with
  | JNull => inl TypeError
  | _ => inr (Js.get data k)
  end.

(** [k in entry]: throws unless [entry] is an object or an array. *)
Definition has_prop (k : string) (entry : JSON) : Exn + bool :=
  match entry with
  | JObj _ | JArr _ => inr (bool_decide (is_Some (Js.get entry k)))
  | _ => inl TypeError
  end.

(** [basename(file, '.json')] for a name that ends with [.json]. *)
Definition basename_json (file : string) : string := JsString.drop_end 5 file.

(** [text.trim().split(/\s+/).filter(Boolean)]: the maximal runs of
    characters that are not white space. *)
Fixpoint words (current : list ascii) (cs : list ascii) : list (list ascii) :=
  match cs with
  | [] => match current with [] => [] | _ => [rev current] end
  | c :: rest =>
      if JsString.is_space c
      then match current with
           | [] => words [] rest
           | _ => rev current :: words [] rest
           end
      else words (c :: current) rest
  end.

Definition countWords (text : string) : nat :=
  length (words [] (list_ascii_of_string text)).

(** *** [parseReference] *)

Record Reference : Type := mkReference {
  book : string;
  chapter : string;
  verseStart : string;
  verseEnd : string
}.

(** The longest prefix of characters satisfying [p], and the rest. *)
Fixpoint span (p : ascii -> bool) (cs : list ascii) : list ascii * list ascii :=
  match cs with
  | [] => ([], [])
  | c :: rest =>
      if p c then let '(a, b) := span p rest in (c :: a, b) else ([], cs)
  end.

Definition nonempty {A} (l : list A) : bool :=
  match l with
  | [] => false
  | _ => true
  end.

(** [\s+(\d+):(\d+)(?:-(\d+))?$] at the start of [cs].  The classes
    that follow one another are disjoint, so each repetition can only
    match the longest run. *)
Definition match_tail (cs : list ascii)
  : option (list ascii * list ascii * option (list ascii)) :=
  let '(ws, r1) := span JsString.is_space cs in
  let '(ch, r2) := span JsString.is_digit r1 in
  if nonempty ws && nonempty ch then
    match r2 with
    | ":"%char :: r3 =>
        let '(v1, r4) := span JsString.is_digit r3 in
        if nonempty v1 then
          match r4 with
          | [] => Some (ch, v1, None)
          | "-"%char :: r5 =>
              let '(v2, r6) := span JsString.is_digit r5 in
              if nonempty v2 && negb (nonempty r6) then Some (ch, v1, Some v2)
              else None
          | _ => None
          end
        else None
    | _ => None
    end
  else None.

(** [^(.+?)] followed by the tail: the book is the shortest non-empty
    prefix without a line terminator after which the tail matches. *)
Fixpoint match_from (book_rev rest : list ascii) : option Reference :=
  match rest with
  | [] => None
  | c :: rest' =>
      match (if nonempty book_rev then match_tail rest else None) with
      | Some (ch, v1, v2) =>
          Some (mkReference
                  (string_of_list_ascii (rev book_rev))
                  (string_of_list_ascii ch)
                  (string_of_list_ascii v1)
                  (string_of_list_ascii (match v2 with Some v => v | None => v1 end)))
      | None =>
          if JsString.is_line_terminator c then None
          else match_from (c :: book_rev) rest'
      end
  end.

Definition parseReference (ref : string) : option Reference :=
  match_from [] (list_ascii_of_string ref).

(** *** [validateBibleFiles]

    The first [readdir] is outside every [try]: when it throws, the
    exception reaches [main].  The function is given here as it acts
    on [errors] and [warnings], without the statements on [bookStats];
    [Stats.validateBibleFiles] below has them. *)

Definition check_verses (filePath : Path) (chapterNum : string) (verses : JSON)
  : V unit :=
  match verses with
  | JArr vs =>
      when (length vs =? 0)%nat (push_error (EmptyChapter filePath chapterNum)) >>
      forEach_from 0 vs (fun verse idx =>
        match verse with
        | JStr _ => vret tt
        | _ => push_error (VerseNotString filePath chapterNum (idx + 1))
        end)
  | _ => push_error (ChapterNotArray filePath chapterNum)
  end.

Definition check_bible_file (fs : Node) (filePath : Path) : V unit :=
  try_catch
    (let! content := lift (readFile fs filePath) in
     let! data := lift (JSON_parse content) in
     if negb (Js.typeof_object data) || Js.isArray data
     then push_error (BibleNotObject filePath)
     else
       let! chapters := lift (Object_entries data) in
       for_of chapters (fun c =>
         let chapterNum := fst c in
         when (negb (JsString.all_digits chapterNum))
              (push_error (InvalidChapterKey filePath chapterNum)) >>
         check_verses filePath chapterNum (snd c)))
    (fun err => push_error (Thrown filePath err)).

Definition validateBibleFiles (fs : Node) : V unit :=
  let biblesDir := ["bibles"] in
  let! translations := lift (readdir fs biblesDir) in
  for_of translations (fun translation =>
    let translationPath := biblesDir ++ [translation] in
    try_catch
      (let! files := lift (readdir fs translationPath) in
       for_of files (fun file =>
         if negb (JsString.endsWith file ".json") then vret tt
         else check_bible_file fs (translationPath ++ [file])))
      (fun _ => vret tt)).

(** *** [loadAllBibleData]: never throws, pushes nothing. *)

(** [bibleData[bookName]] as a condition: the entry of [bibleData]
    itself or, without one, what the object inherits under that
    name. *)
Definition has_book (bibleData : gmap string JSON) (bookName : string) : bool :=
  match bibleData !! bookName with
  | Some data => Js.truthy data
  | None => Js.inherited bookName
  end.

Definition load_file (fs : Node) (translationPath : Path)
    (bibleData : gmap string JSON) (file : string) : gmap string JSON :=
  if negb (JsString.endsWith file ".json") then bibleData
  else
    let bookName := basename_json file in
    match readFile fs (translationPath ++ [file]) with
    | inr (Some data) =>
        if has_book bibleData bookName then bibleData
        else <[bookName := data]> bibleData
    | _ => bibleData
    end.

Definition load_translation (fs : Node) (bibleData : gmap string JSON)
    (translation : string) : gmap string JSON :=
  let translationPath := ["bibles"; translation] in
  match readdir fs translationPath with
  | inr files => fold_left (load_file fs translationPath) files bibleData
  | inl _ => bibleData
  end.

Definition loadAllBibleData (fs : Node) : gmap string JSON :=
  match readdir fs ["bibles"] with
  | inr translations => fold_left (load_translation fs) translations ∅
  | inl _ => ∅
  end.

(** *** [validateXrefs] *)

Definition check_verse (filePath : Path) (ref : string) (parsed : Reference)
    (verse : Z) (chapterData : JSON) : V unit :=
  when ((verse <? 1)%Z || Js.gt verse (Js.get chapterData "length"))
       (push_error (VerseMissing filePath ref verse (book parsed) (chapter parsed))).

(** The body of [for (const ref of refs)].  For a book that
    [bibleData] has no entry for but inherits a value for, [bookData] is
    that value, and [bookData[parsed.chapter]] is [undefined]. *)
Definition check_ref (bibleData : gmap string JSON) (filePath : Path)
    (key : string) (ref : JSON) : V unit :=
  match ref with
  | JStr s =>
      match parseReference s with
      | None => push_warning (CouldNotParse filePath s)
      | Some parsed =>
          match bibleData !! book parsed with
          | Some bookData =>
              if negb (Js.truthy bookData) then vret tt
              else
                match Js.get bookData (chapter parsed) with
                | Some chapterData =>
                    if negb (Js.truthy chapterData)
                    then push_error (ChapterMissing filePath s (chapter parsed) (book parsed))
                    else
                      check_verse filePath s parsed
                        (JsString.parseInt (verseStart parsed)) chapterData >>
                      check_verse filePath s parsed
                        (JsString.parseInt (verseEnd parsed)) chapterData
                | None =>
                    push_error (ChapterMissing filePath s (chapter parsed) (book parsed))
                end
          | None =>
              if Js.inherited (book parsed)
              then push_error (ChapterMissing filePath s (chapter parsed) (book parsed))
              else vret tt
          end
      end
  | _ => push_error (ReferenceNotString filePath key)
  end.

(** [/^\d+:\d+$/.test(key)] *)
Definition chapter_verse_key (key : string) : bool :=
  let '(c, r) := span JsString.is_digit (list_ascii_of_string key) in
  match r with
  | ":"%char :: v => nonempty c && nonempty v && forallb JsString.is_digit v
  | _ => false
  end.

Definition check_xref_file (fs : Node) (bibleData : gmap string JSON)
    (filePath : Path) : V unit :=
  try_catch
    (let! content := lift (readFile fs filePath) in
     let! data := lift (JSON_parse content) in
     let! reference := lift (prop data "reference") in
     let! crossReferences := lift (prop data "crossReferences") in
     if Js.truthy_opt reference && Js.truthy_opt crossReferences then vret tt
     else if negb (Js.typeof_object data) || Js.isArray data
     then push_error (XrefNotObject filePath)
     else
       let! entries := lift (Object_entries data) in
       for_of entries (fun e =>
         let key := fst e in
         when (negb (chapter_verse_key key)) (push_error (InvalidXrefKey filePath key)) >>
         match snd e with
         | JArr refs => for_of refs (check_ref bibleData filePath key)
         | _ => push_error (XrefValueNotArray filePath key)
         end))
    (fun err => push_error (Thrown filePath err)).

Definition validateXrefs (fs : Node) (bibleData : gmap string JSON) : V unit :=
  let xrefsDir := ["xrefs"] in
  try_catch
    (let! files := lift (readdir fs xrefsDir) in
     for_of files (fun file =>
       if negb (JsString.endsWith file ".json") then vret tt
       else check_xref_file fs bibleData (xrefsDir ++ [file])))
    (fun _ => push_warning (DirectoryNotFound "xrefs")).

(** *** [validateCommentary] *)

Definition requiredFields : list string :=
  [ "id"; "ref"; "tradition"; "theologian"; "work"; "century"; "mode";
    "license"; "summary"; "takeaways"; "citation" ].

(** [countWords(entry.excerpt)]: [text.trim] is not a function unless
    the excerpt is a string. *)
Definition countWords_of (excerpt : JSON) : Exn + nat :=
  match excerpt with
  | JStr text => inr (countWords text)
  | _ => inl TypeError
  end.

(** The callback of [data.forEach]. *)
Definition check_entry (filePath : Path) (entry : JSON) (idx : nat) : V unit :=
  for_of requiredFields (fun field =>
    let! present := lift (has_prop field entry) in
    when (negb present) (push_error (MissingField filePath idx field))) >>
  let mode := Js.get entry "mode" in
  when (Js.truthy_opt mode
        && negb (Js.is_string "excerpt" mode || Js.is_string "summary" mode))
       (push_error (BadMode filePath idx (default JNull mode))) >>
  (if Js.is_string "excerpt" mode
      && Js.is_string "public-domain" (Js.get entry "license")
      && Js.truthy_opt (Js.get entry "excerpt")
   then
     let! wordCount := lift (countWords_of (default JNull (Js.get entry "excerpt"))) in
     when (120 <? wordCount)%nat (push_error (ExcerptTooLong filePath idx wordCount))
   else vret tt) >>
  let takeaways := Js.get entry "takeaways" in
  when (Js.truthy_opt takeaways && negb (Js.isArray (default JNull takeaways)))
       (push_error (TakeawaysNotArray filePath idx)).

Definition check_commentary_file (fs : Node) (filePath : Path) : V unit :=
  try_catch
    (let! content := lift (readFile fs filePath) in
     let! data := lift (JSON_parse content) in
     let! reference := lift (prop data "reference") in
     let! commentaries := lift (prop data "commentaries") in
     if Js.truthy_opt reference && Js.truthy_opt commentaries then vret tt
     else
       match data with
       | JArr entries => forEach_from 0 entries (check_entry filePath)
       | _ => push_error (CommentaryNotArray filePath)
       end)
    (fun err => push_error (Thrown filePath err)).

Definition validateCommentary (fs : Node) : V unit :=
  let theologyDir := ["theology"] in
  try_catch
    (let! files := lift (readdir fs theologyDir) in
     for_of files (fun file =>
       if negb (JsString.endsWith file ".json") then vret tt
       else check_commentary_file fs (theologyDir ++ [file])))
    (fun _ => push_warning (DirectoryNotFound "theology")).

(** *** [printSummary] and [main] *)

(** What [printSummary] prints after the statistics table: the errors
    and the warnings, each block only when it is not empty, or the
    line that all validations passed. *)
Record Report : Type := mkReport {
  printed_errors : list Msg;
  printed_warnings : list Msg;
  all_passed : bool
}.

Definition printSummary (acc : Acc) : Report :=
  mkReport (errors acc) (warnings acc)
           (negb (nonempty (errors acc)) && negb (nonempty (warnings acc))).

(** How the process ends. *)
Record Exit : Type := mkExit {
  exit_code : Z;
  report : option Report;   (* [None]: the fatal error was printed instead *)
  fatal : option Exn;
  final : Acc
}.

(** The run on the two arrays, without [bookStats]: what [main] does
    when no book file is named after an inherited property
    ([Stats.main] is the script's [main] for every tree). *)
Definition validation (fs : Node) : V unit :=
  validateBibleFiles fs >>
  let bibleData := loadAllBibleData fs in
  validateXrefs fs bibleData >>
  validateCommentary fs.

Definition main (fs : Node) : Exit :=
  match validation fs (mkAcc [] []) with
  | (inr _, acc) =>
      mkExit (if nonempty (errors acc) then 1 else 0)%Z
             (Some (printSummary acc)) None acc
  | (inl err, acc) => mkExit 1%Z None (Some err) acc
  end.

End Validator.

(** ** The host page

    The registration script of [index.html], as listed in
    [docs/PWA-IMPLEMENTATION-SUMMARY.md].  Of the page only what the
    script itself changes is kept: its flag [refreshing], the calls of
    [window.location.reload], the toasts appended by
    [showUpdatePrompt], and the messages posted to the waiting worker. *)

Module Page.

Record State : Type := mkState {
  refreshing : bool;
  reloads : nat;                    (* calls of window.location.reload() *)
  toasts : nat;                     (* toasts appended to the document *)
  posted : list (option JSON)       (* registration.waiting.postMessage(...) *)
}.

(** The page as loaded. *)
Definition loaded : State := mkState false 0 0 [].

(** The [controllerchange] listener. *)
Definition on_controllerchange (p : State) : State :=
  if refreshing p then p
  else mkState true (S (reloads p)) (toasts p) (posted p).

(** [showUpdatePrompt(registration)] *)
Definition showUpdatePrompt (p : State) : State :=
  mkState (refreshing p) (reloads p) (S (toasts p)) (posted p).

(** The [statechange] listener of the installing worker: [state] is
    [newWorker.state], where [Waiting] stands for ['installed'], and
    [controller] tells whether [navigator.serviceWorker.controller] is
    set. *)
Definition on_statechange (state : Lifecycle.Phase) (controller : bool) (p : State)
  : State :=
  match state with
  | Lifecycle.Waiting => if controller then showUpdatePrompt p else p
  | _ => p
  end.

(** After [register] resolved: [if (registration.waiting)]. *)
Definition on_registered (waiting : bool) (p : State) : State :=
  if waiting then showUpdatePrompt p else p.

(** The [onclick] handler of the Reload button; [waiting] tells whether
    [registration.waiting] is set. *)
Definition on_click (waiting : bool) (p : State) : State :=
  if waiting
  then mkState (refreshing p) (reloads p) (toasts p)
               (posted p ++ [Some (JObj [("type", JStr "SKIP_WAITING")])])
  else p.

End Page.

(** ** The page and the listed worker together

    The browser between the two: the state change of the installing
    instance reaches the page; a posted message reaches the waiting
    instance; an instance that starts activating is sent the activate
    event, and [clients.claim()] makes the page see a controller
    change. *)

Module Handoff.

Record System : Type := mkSystem {
  page : Page.State;
  incoming : Lifecycle.Instance
}.

Inductive Happening : Type :=
| UpdateInstalls (net : Network)   (* the install event of the new instance *)
| ClickReload                      (* the user clicks the button of the toast *)
| ControllerChange.                (* one more controllerchange event *)

Definition is_waiting (i : Lifecycle.Instance) : bool :=
  match Lifecycle.phase i with
  | Lifecycle.Waiting => true
  | _ => false
  end.

Definition is_claim (e : Event) : bool :=
  match e with
  | EvClaim => true
  | _ => false
  end.

(** The instance is activated; the page sees the controller change if
    the listener claimed the clients. *)
Definition activate (script : Lifecycle.Script) (sys : System) : System :=
  let i := incoming sys in
  let i' := Lifecycle.step script i Lifecycle.DoActivate in
  let claimed :=
    existsb is_claim (drop (length (log (Lifecycle.world i))) (log (Lifecycle.world i'))) in
  mkSystem (if claimed then Page.on_controllerchange (page sys) else page sys) i'.

Definition happen (script : Lifecycle.Script) (sys : System) (h : Happening) : System :=
  match h with
  | UpdateInstalls net =>
      let i := Lifecycle.step script (incoming sys) (Lifecycle.DoInstall net) in
      mkSystem (Page.on_statechange (Lifecycle.phase i)
                  (Lifecycle.controlled_by_other i) (page sys)) i
  | ClickReload =>
      let waiting := is_waiting (incoming sys) in
      let p := Page.on_click waiting (page sys) in
      let sent := drop (length (Page.posted (page sys))) (Page.posted p) in
      let i := fold_left (fun i m => Lifecycle.step script i (Lifecycle.Message m))
                         sent (incoming sys) in
      match Lifecycle.phase i with
      | Lifecycle.Activating => activate script (mkSystem p i)
      | _ => mkSystem p i
      end
  | ControllerChange => mkSystem (Page.on_controllerchange (page sys)) (incoming sys)
  end.

Definition run (script : Lifecycle.Script) (sys : System) (hs : list Happening) : System :=
  fold_left (happen script) hs sys.

End Handoff.

(** * The script with its statistics

    [validateBibleFiles] also fills the global [bookStats]: for each
    book name the translations that have a file for it and a count of
    issues; [printSummary] reads it.  [Validator.validateBibleFiles] is
    the function without the statements on [bookStats]; the functions
    below have them, statement by statement, and [main] is the script's
    [main]. *)

Module Stats.

Import Validator.

Record Stat : Type := mkStat {
  translations : list string;
  issues : nat
}.

(** The two arrays and [bookStats].  [bookStats] has two kinds of
    properties of its own: the records, and, under an inherited name,
    the inherited value where line 48 has assigned it to [bookStats]
    itself; [own_inherited] lists the names of the latter.  A name
    that has a record, or that is not inherited, counts for nothing in
    [own_inherited]. *)
Record State : Type := mkState {
  acc : Acc;
  bookStats : gmap string Stat;
  own_inherited : list string
}.

Definition M (A : Type) : Type := State -> (Exn + A) * State.

Definition mret {A} (a : A) : M A := fun s => (inr a, s).

Definition mbind {A B} (m : M A) (k : A -> M B) : M B :=
  fun s =>
    match m s with
    | (inr a, s') => k a s'
    | (inl e, s') => (inl e, s')
    end.

Definition mlift {A} (r : Exn + A) : M A := fun s => (r, s).

Definition mtry {A} (m : M A) (handler : Exn -> M A) : M A :=
  fun s =>
    match m s with
    | (inr a, s') => (inr a, s')
    | (inl e, s') => handler e s'
    end.

(** A computation on the two arrays alone. *)
Definition of_v {A} (v : V A) : M A :=
  fun s => (fst (v (acc s)), mkState (snd (v (acc s))) (bookStats s) (own_inherited s)).

Declare Scope m_scope.
Delimit Scope m_scope with M.
Notation "'let!' x ':=' c 'in' k" := (mbind c (fun x => k))
  (at level 10, x name, c at level 100, k at level 200) : m_scope.
Notation "c '>>' k" := (mbind c (fun _ => k))
  (at level 100, k at level 200, right associativity) : m_scope.

Open Scope m_scope.

Definition mwhen (b : bool) (m : M unit) : M unit := if b then m else mret tt.

Fixpoint mfor_of {A} (xs : list A) (body : A -> M unit) : M unit :=
  match xs with
  | [] => mret tt
  | x :: rest => body x >> mfor_of rest body
  end.

Fixpoint mforEach_from {A} (idx : nat) (xs : list A) (body : A -> nat -> M unit)
  : M unit :=
  match xs with
  | [] => mret tt
  | x :: rest => body x idx >> mforEach_from (S idx) rest body
  end.

(** [bookStats[bookName] = bookStats[bookName] || { translations: [],
    issues: 0 }; bookStats[bookName].translations.push(translation)].
    For an inherited name without a record, [bookStats[bookName]] is
    the inherited value: the first statement assigns it to [bookStats]
    (for [__proto__] the assignment sets the prototype to what it is
    and adds no property), and the second throws, since the value has
    no [translations]. *)
Definition enter (bookName translation : string) : M unit :=
  fun s =>
    match bookStats s !! bookName with
    | Some stat =>
        (inr tt, mkState (acc s)
                   (<[bookName := mkStat (translations stat ++ [translation])
                                         (issues stat)]> (bookStats s))
                   (own_inherited s))
    | None =>
        if Js.inherited bookName
        then (inl TypeError,
              mkState (acc s) (bookStats s)
                (if String.eqb bookName "__proto__" then own_inherited s
                 else own_inherited s ++ [bookName]))
        else (inr tt, mkState (acc s)
                        (<[bookName := mkStat [translation] 0]> (bookStats s))
                        (own_inherited s))
    end.

(** [bookStats[bookName].issues++]; on an inherited value the
    increment changes nothing in [bookStats]. *)
Definition count_issue (bookName : string) : M unit :=
  fun s =>
    match bookStats s !! bookName with
    | Some stat =>
        (inr tt, mkState (acc s)
                   (<[bookName := mkStat (translations stat) (S (issues stat))]>
                      (bookStats s))
                   (own_inherited s))
    | None => if Js.inherited bookName then (inr tt, s) else (inl TypeError, s)
    end.

(** [errors.push(msg); bookStats[bookName].issues++] *)
Definition issue (bookName : string) (msg : Msg) : M unit :=
  of_v (push_error msg) >> count_issue bookName.

Definition check_verses (bookName : string) (filePath : Path)
    (chapterNum : string) (verses : JSON) : M unit :=
  match verses with
  | JArr vs =>
      mwhen (length vs =? 0)%nat (issue bookName (EmptyChapter filePath chapterNum)) >>
      mforEach_from 0 vs (fun verse idx =>
        match verse with
        | JStr _ => mret tt
        | _ => issue bookName (VerseNotString filePath chapterNum (idx + 1))
        end)
  | _ => issue bookName (ChapterNotArray filePath chapterNum)
  end.

Definition check_bible_file (fs : Node) (bookName : string) (filePath : Path)
  : M unit :=
  mtry
    (let! content := mlift (readFile fs filePath) in
     let! data := mlift (JSON_parse content) in
     if negb (Js.typeof_object data) || Js.isArray data
     then issue bookName (BibleNotObject filePath)
     else
       let! chapters := mlift (Object_entries data) in
       mfor_of chapters (fun c =>
         let chapterNum := fst c in
         mwhen (negb (JsString.all_digits chapterNum))
               (issue bookName (InvalidChapterKey filePath chapterNum)) >>
         check_verses bookName filePath chapterNum (snd c)))
    (fun err => issue bookName (Thrown filePath err)).

(** The body of the loop over the files of a translation, for a file
    whose name ends with [.json]. *)
Definition check_file (fs : Node) (translation file : string) : M unit :=
  let bookName := basename_json file in
  let filePath := ["bibles"; translation] ++ [file] in
  enter bookName translation >>
  check_bible_file fs bookName filePath.

(** The loop over the files of one translation. *)
Definition check_files (fs : Node) (translation : string) (files : list string)
  : M unit :=
  mfor_of files (fun file =>
    if negb (JsString.endsWith file ".json") then mret tt
    else check_file fs translation file).

(** The body of the loop over the translations. *)
Definition check_translation (fs : Node) (translation : string) : M unit :=
  mtry
    (let! files := mlift (readdir fs ["bibles"; translation]) in
     check_files fs translation files)
    (fun _ => mret tt).

Definition validateBibleFiles (fs : Node) : M unit :=
  let! translations := mlift (readdir fs ["bibles"]) in
  mfor_of translations (check_translation fs).

(** A key of [bookStats] whose value is not a record. *)
Definition broken_key (s : State) (k : string) : bool :=
  match bookStats s !! k with
  | Some _ => false
  | None => Js.inherited k
  end.

(** [printSummary]: the loop over [Object.keys(bookStats)] evaluates
    [stat.translations.join(', ')], which throws for a key whose value
    is not a record, before the errors and the warnings are printed.
    The rows of the table go to the console only. *)
Definition printSummary (s : State) : Exn + Report :=
  if existsb (broken_key s) (own_inherited s) then inl TypeError
  else inr (Validator.printSummary (acc s)).

(** The state the script starts in. *)
Definition initial : State := mkState (mkAcc [] []) ∅ [].

Definition validation (fs : Node) : M unit :=
  validateBibleFiles fs >>
  let bibleData := loadAllBibleData fs in
  of_v (validateXrefs fs bibleData) >>
  of_v (validateCommentary fs).

(** [main]: what is thrown, by [validateBibleFiles] or by
    [printSummary], ends in the [catch] with code 1, without the
    blocks of errors and warnings. *)
Definition main (fs : Node) : Exit :=
  match validation fs initial with
  | (inr _, s) =>
      match printSummary s with
      | inr r =>
          mkExit (if nonempty (errors (acc s)) then 1 else 0)%Z (Some r) None (acc s)
      | inl err => mkExit 1%Z None (Some err) (acc s)
      end
  | (inl err, s) => mkExit 1%Z None (Some err) (acc s)
  end.

Close Scope m_scope.

End Stats.

(** * Statements: the vocabulary of the properties *)

Import Lifecycle.
Import Validator.

(** ** The two workers *)

(** The URLs the install listeners hand to [cache.addAll]. *)
Definition swjs_precache (location_origin : string) : list string :=
  map (Url.resolve location_origin) SwJs.ASSETS_TO_CACHE.

Definition swdoc_precache (location_origin : string) : list string :=
  map (Url.resolve location_origin) SwDoc.PRECACHE_ASSETS.

(** The test of both message listeners. *)
Definition is_skip_message (data : option JSON) : bool :=
  match data with
  | Some d => Js.truthy d && Js.is_string "SKIP_WAITING" (Js.get d "type")
  | None => false
  end.

(** The message of the update prompt: [{ type: 'SKIP_WAITING' }]. *)
Definition skip_message : option JSON := Some (JObj [("type", JStr "SKIP_WAITING")]).

(** The stores the listing's [activate] listener sweeps. *)
Definition stale_versioned (name : string) : bool :=
  JsString.startsWith name "bible-study-" && negb (String.eqb name SwDoc.CACHE_NAME).

(** The events a handler added to the log. *)
Definition new_events (w w' : World) : list Event := drop (length (log w)) (log w').

(** The values handed to [respondWith], in order. *)
Definition responded (evs : list Event) : list JsVal :=
  omap (fun e => match e with EvRespond v => Some v | _ => None end) evs.

(** What the page receives: the response of the single [respondWith],
    when it is one. *)
Definition received (evs : list Event) : option Response :=
  match responded evs with
  | [v] => delivered v
  | _ => None
  end.

(** No [cache.put] among the events. *)
Definition no_put (evs : list Event) : Prop :=
  forall name key r, ~ In (EvPut name key r) evs.

(** Between the storage before and after a fetch event: an entry that is
    there afterwards was there before or is the status-200 response of
    the network; no entry has gone; and when the network gave no
    status-200 response every lookup gives what it gave before. *)
Definition only_ok_written (net : Network) (request : Request)
    (cs cs' : CacheStorage) : Prop :=
  (forall name key r, match_in name key cs' = Some r ->
      match_in name key cs = Some r \/ (net request = NetOk r /\ status r = 200%Z))
  /\ (forall name key, is_Some (match_in name key cs) -> is_Some (match_in name key cs'))
  /\ ((forall r, net request = NetOk r -> status r <> 200%Z) ->
      forall name key, match_in name key cs' = match_in name key cs).

(** The log of a fetch event: every [cache.put] carries a status-200
    response of the network, and nothing is deleted. *)
Definition only_ok_put (net : Network) (request : Request) (evs : list Event) : Prop :=
  forall e, In e evs ->
    match e with
    | EvPut _ _ r => net request = NetOk r /\ status r = 200%Z
    | EvDelete _ => False
    | _ => True
    end.

(** The write-back of a settled revalidation. *)
Definition write_back (name : string) (request : Request) (result : FetchResult)
  : list Event :=
  match result with
  | NetOk r => if (status r =? 200)%Z then [EvPut name (url request) r] else []
  | NetFail => []
  end.

(** The answer of the cache-first path when nothing is cached and the
    network fails. *)
Definition offline_answer (location_origin : string) (request : Request) (w : World)
  : JsVal :=
  if String.eqb (destination request) "document"
  then of_match (match_any (Url.resolve location_origin "/index.html") (caches w))
  else VUndefined.

(** The request goes to another origin than the worker's. *)
Definition cross_origin (location_origin : string) (request : Request) : bool :=
  negb (String.eqb (Url.origin (url request)) location_origin).

(** The Fetch standard on [response.type]: only the response to a
    request to the same origin is [basic]. *)
Definition standard_response (location_origin : string) (net : Network)
    (request : Request) : bool :=
  match net request with
  | NetOk r => implb (is_basic (type r)) (negb (cross_origin location_origin request))
  | NetFail => true
  end.

(** Every entry stored under a URL of another origin is an entry of the
    precache manifest. *)
Definition foreign_precached (location_origin : string) (precache : list string)
    (cs : CacheStorage) : Prop :=
  forall name key r,
    match_in name key cs = Some r ->
    String.eqb (Url.origin key) location_origin = false ->
    In key precache.

(** The stimuli under which [sw.js] is considered: the network obeys the
    Fetch standard. *)
Definition standard_stimulus (location_origin : string) (e : Stimulus) : bool :=
  match e with
  | Fetch net request => standard_response location_origin net request
  | _ => true
  end.

(** The stimuli the listing handles cache-first. *)
Definition cache_first_stimulus (e : Stimulus) : bool :=
  match e with
  | Fetch _ request => negb (SwDoc.runtime_route request)
  | _ => true
  end.

(** ** A deployment to evaluate the workers on *)

Definition example_origin : string := "https://bible.example".

(** Every URL answers with status 200; the response is basic for the
    worker's origin and a CORS response for any other. *)
Definition online : Network :=
  fun request =>
    NetOk (mkResponse 200
             (if String.eqb (Url.origin (url request)) example_origin
              then type_basic else type_cors)
             ("content of " +:+ url request)).

(** As [online], the URL [u] excepted, which is not found. *)
Definition missing (u : string) : Network :=
  fun request =>
    if String.eqb (url request) u
    then NetOk (mkResponse 404 type_basic "Not Found")
    else online request.

Definition offline : Network := fun _ => NetFail.

(** No cache, the flag unset, nothing logged. *)
Definition fresh : World := mkWorld [] false [].

(** A new instance while an older one controls the open pages. *)
Definition update : Instance := mkInstance Installing fresh true.

Definition bible_request : Request :=
  mkRequest "https://bible.example/bibles/WEB/John.json" "".

Definition about_request : Request :=
  mkRequest "https://bible.example/about" "document".

Definition cdn_request : Request :=
  mkRequest "https://cdn.example/lib.js" "script".

Definition shell : Response := mkResponse 200 type_basic "<html>".

(** The current store holding the application shell. *)
Definition installed : World :=
  mkWorld [(SwDoc.CACHE_NAME, {[ "https://bible.example/index.html" := shell ]})]
          false [].

(** ** The validator *)

(** A tree cut below [depth] levels: a directory at the cut is kept
    without its content. *)
Fixpoint truncate (depth : nat) (n : Node) : Node :=
  match n with
  | File parsed => File parsed
  | Dir entries =>
      match depth with
      | O => Dir []
      | S d => Dir (map (fun p => (fst p, truncate d (snd p))) entries)
      end
  end.

(** The part of the tree the validator looks at: the entries of
    [bibles/] and of its sub-directories, the entries of every other
    top-level directory. *)
Definition scanned (fs : Node) : Node :=
  match fs with
  | File parsed => File parsed
  | Dir entries =>
      Dir (map (fun p => (fst p,
                          truncate (if String.eqb (fst p) "bibles" then 2 else 1) (snd p)))
               entries)
  end.

(** The exit rule as the specification has it: non-zero with accumulated errors,
    zero otherwise. *)
Definition exit_follows_errors (fs : Node) : Prop :=
  (errors (final (Stats.main fs)) <> [] -> exit_code (Stats.main fs) <> 0%Z)
  /\ (errors (final (Stats.main fs)) = [] -> exit_code (Stats.main fs) = 0%Z).

(** A tree without [bibles/]. *)
Definition no_bibles : Node := Dir [("xrefs", Dir []); ("theology", Dir [])].

(** A tree whose only invalid file lies one directory below [xrefs/]. *)
Definition nested_xref : Node :=
  Dir [ ("bibles", Dir []);
        ("xrefs", Dir [("archive", Dir [("John.json", File None)])]);
        ("theology", Dir []) ].

(** The same tree with the file directly in [xrefs/]. *)
Definition flat_xref : Node :=
  Dir [ ("bibles", Dir []);
        ("xrefs", Dir [("John.json", File None)]);
        ("theology", Dir []) ].

(** A tree with one cross-reference file, which lists [refs] under the
    key [3:16]. *)
Definition xref_tree (refs : list string) : Node :=
  Dir [ ("bibles", Dir []);
        ("xrefs", Dir [("John.json",
                        File (Some (JObj [("3:16", JArr (map JStr refs))])))]);
        ("theology", Dir []) ].

(** A computation that never throws. *)
Definition never_throws {A} (m : V A) : Prop :=
  forall acc, exists a acc', m acc = (inr a, acc').

(** Two computations that do the same from every state of the arrays. *)
Definition same_run {A} (m m' : V A) : Prop := forall acc, m acc = m' acc.

(** ** Further vocabulary *)

(** The current store of the listing holding an older copy of the
    Bible text. *)
Definition stale_text : Response := mkResponse 200 type_basic "old text".

Definition warm : World :=
  mkWorld [(SwDoc.CACHE_NAME, {[ url bible_request := stale_text ]})] false [].

(** The page and the listed worker at an update: the page as loaded, a
    new instance about to install in the world [w] while an older one
    controls the page. *)
Definition at_update (w : World) : Handoff.System :=
  Handoff.mkSystem Page.loaded (mkInstance Installing w true).

(** A request of the page for one of its scripts. *)
Definition page_request : Request :=
  mkRequest "https://bible.example/assets/app.js" "script".

(** Every URL answers with status 404. *)
Definition not_found : Network :=
  fun _ => NetOk (mkResponse 404 type_basic "Not Found").

(** A fetched response that [sw.js] stores on a miss. *)
Definition swjs_storable (location_origin : string) (request : Request) (r : Response)
  : bool :=
  (status r =? 200)%Z && is_basic (type r)
  && (JsString.startsWith (url request) location_origin
      || JsString.includes (url request) ".json").

(** A fetched response that the listing's cache-first path stores. *)
Definition swdoc_storable (location_origin : string) (request : Request) (r : Response)
  : bool :=
  (status r =? 200)%Z && String.eqb (Url.origin (url request)) location_origin.

Definition is_str (v : JSON) : bool :=
  match v with
  | JStr _ => true
  | _ => false
  end.

(** A chapter that [validateBibleFiles] accepts: a key of digits with a
    non-empty array of strings. *)
Definition valid_chapter (c : string * JSON) : bool :=
  JsString.all_digits (fst c)
  && match snd c with
     | JArr verses => nonempty verses && forallb is_str verses
     | _ => false
     end.

(** A Bible file that [validateBibleFiles] accepts: an object of such
    chapters. *)
Definition valid_bible (data : JSON) : bool :=
  match data with
  | JObj chapters => forallb valid_chapter chapters
  | _ => false
  end.

(** What a computation leaves in the two arrays is what was there, with
    messages appended. *)
Definition appends {A} (m : V A) : Prop :=
  forall acc, exists es ws,
    snd (m acc) = mkAcc (errors acc ++ es) (warnings acc ++ ws).

(** Verse [v] exists in a chapter of [n] verses. *)
Definition verse_exists (n : nat) (v : Z) : bool :=
  (1 <=? v)%Z && (v <=? Z.of_nat n)%Z.

(** The text of a reference: [book chapter:verse] or
    [book chapter:verse-verse]. *)
Definition reference_text (book chapter verse : string) (verse_end : option string)
  : string :=
  book +:+ " " +:+ chapter +:+ ":" +:+ verse
  +:+ match verse_end with
      | Some e => "-" +:+ e
      | None => ""
      end.

(** A book name the pattern [(.+?)] captures whole: not empty, without
    a line terminator, not ending in white space. *)
Definition book_name (book : string) : bool :=
  match rev (list_ascii_of_string book) with
  | [] => false
  | c :: _ =>
      negb (JsString.is_space c)
      && forallb (fun c => negb (JsString.is_line_terminator c)) (list_ascii_of_string book)
  end.

(** ** The vocabulary of the statistics *)

(** The value of the Issues column for a book. *)
Definition issues_of (stats : gmap string Stats.Stat) (bookName : string) : nat :=
  match stats !! bookName with
  | Some stat => Stats.issues stat
  | None => 0
  end.

(** The file a message is about. *)
Definition msg_path (m : Msg) : option Path :=
  match m with
  | BibleNotObject p | InvalidChapterKey p _ | ChapterNotArray p _
  | EmptyChapter p _ | VerseNotString p _ _ | Thrown p _ | XrefNotObject p
  | InvalidXrefKey p _ | XrefValueNotArray p _ | ReferenceNotString p _
  | CouldNotParse p _ | ChapterMissing p _ _ _ | VerseMissing p _ _ _ _
  | CommentaryNotArray p | MissingField p _ _ | BadMode p _ _
  | ExcerptTooLong p _ _ | TakeawaysNotArray p _ => Some p
  | DirectoryNotFound _ => None
  end.

(** The message is about a file of the book. *)
Definition about (bookName : string) (m : Msg) : bool :=
  match msg_path m with
  | Some p =>
      match last p with
      | Some file => String.eqb (basename_json file) bookName
      | None => false
      end
  | None => false
  end.

(** From [s] to [s']: errors were appended, and for every book the
    count of issues grew by the number of these errors that are about
    the book. *)
Definition counted (s s' : Stats.State) : Prop :=
  exists es,
    errors (Stats.acc s') = errors (Stats.acc s) ++ es
    /\ forall bookName,
         issues_of (Stats.bookStats s') bookName =
         issues_of (Stats.bookStats s) bookName + length (List.filter (about bookName) es).

(** No record under an inherited name, as in the empty [bookStats]:
    what [bookStats] holds under such a name is the inherited value,
    never a record of the script. *)
Definition clean (stats : gmap string Stats.Stat) : Prop :=
  forall bookName, Js.inherited bookName = true -> stats !! bookName = None.

(** No book file of the repository is named after an inherited
    property. *)
Definition plain_names (fs : Node) : Prop :=
  forall translation files file,
    readdir fs ["bibles"; translation] = inr files ->
    In file files ->
    JsString.endsWith file ".json" = true ->
    Js.inherited (basename_json file) = false.

(** [m] keeps the invariant [I] of the records and counts what it
    reports. *)
Definition tracks {A} (I : gmap string Stats.Stat -> Prop) (m : Stats.M A) : Prop :=
  forall s, I (Stats.bookStats s) ->
    I (Stats.bookStats (snd (m s))) /\ counted s (snd (m s)).

(** The invariant while a file of the book is checked: the book has
    its record, and [P] holds of the records. *)
Definition entered (P : gmap string Stats.Stat -> Prop) (bookName : string)
    (stats : gmap string Stats.Stat) : Prop :=
  is_Some (stats !! bookName) /\ P stats.

(** [m] does to the two arrays what [v] does, and ends as [v] ends,
    from every state whose records satisfy [I]; it keeps [I] and
    assigns no inherited value to [bookStats]. *)
Definition erases {A} (I : gmap string Stats.Stat -> Prop)
    (m : Stats.M A) (v : V A) : Prop :=
  forall s, I (Stats.bookStats s) ->
    fst (m s) = fst (v (Stats.acc s))
    /\ Stats.acc (snd (m s)) = snd (v (Stats.acc s))
    /\ I (Stats.bookStats (snd (m s)))
    /\ Stats.own_inherited (snd (m s)) = Stats.own_inherited s.

(** Two computations that do the same from every state. *)
Definition same_state_run {A} (m m' : Stats.M A) : Prop := forall s, m s = m' s.

(** Whatever the arrays hold before [m], the errors hold [msg]
    afterwards. *)
Definition reports {A} (m : V A) (msg : Msg) : Prop :=
  forall acc, In msg (errors (snd (m acc))).

(** A word: characters that are not white space, at least one. *)
Definition word (w : list ascii) : bool :=
  nonempty w && forallb (fun c => negb (JsString.is_space c)) w.

(** White space, possibly none. *)
Definition blank (s : list ascii) : bool := forallb JsString.is_space s.

(** Words, each followed by white space; only after the last word the
    white space may be missing. *)
Fixpoint separated (ws : list (list ascii * list ascii)) : bool :=
  match ws with
  | [] => true
  | (w, s) :: rest =>
      word w && blank s && (nonempty s || negb (nonempty rest)) && separated rest
  end.

(** The text of these words, after leading white space. *)
Definition text_of (lead : list ascii) (ws : list (list ascii * list ascii))
  : list ascii :=
  lead ++ concat (map (fun p => fst p ++ snd p) ws).


(** The body of the loop over the chapters of a Bible file. *)
Definition chapter_check (filePath : Path) (c : string * JSON) : V unit :=
  (when (negb (JsString.all_digits (fst c)))
        (push_error (InvalidChapterKey filePath (fst c))) >>
   check_verses filePath (fst c) (snd c))%V.

(** ** Examples *)

(** A book of one chapter, which has two verses. *)
Definition john : JSON := JObj [("3", JArr [JStr "For God so loved"; JStr "the world"])].

(** Two translations of it; the second one has a verse that is not a
    string in a chapter whose key is not a number. *)
Definition library : Node :=
  Dir [ ("bibles",
         Dir [ ("WEB", Dir [("John.json", File (Some john)); ("README.md", File None)]);
               ("KJV", Dir [("John.json",
                             File (Some (JObj [("three", JArr [JNum 16])])))]) ]) ].

(** One translation with a file named after an inherited property
    between two files that are not JSON. *)
Definition odd_library : Node :=
  Dir [ ("bibles",
         Dir [ ("WEB", Dir [ ("John.json", File None);
                             ("constructor.json", File (Some john));
                             ("Mark.json", File None) ]) ]) ].

(** One translation whose only book file is valid and named after an
    inherited property, beside empty [xrefs/] and [theology/]. *)
Definition constructor_library : Node :=
  Dir [ ("bibles", Dir [("WEB", Dir [("constructor.json", File (Some john))])]);
        ("xrefs", Dir []);
        ("theology", Dir []) ].

(** One translation with a book file that is not JSON, and a commentary
    file that is not JSON, beside an empty [xrefs/]. *)
Definition broken_library : Node :=
  Dir [ ("bibles", Dir [("WEB", Dir [("John.json", File None)])]);
        ("xrefs", Dir []);
        ("theology", Dir [("John.json", File None)]) ].

(** A commentary entry in excerpt mode under a public-domain license. *)
Definition excerpt_entry (text : string) : list (string * JSON) :=
  [ ("id", JStr "augustine-john-3-16"); ("ref", JStr "John 3:16");
    ("tradition", JStr "Latin"); ("theologian", JStr "Augustine");
    ("work", JStr "Tractates on John"); ("century", JNum 5);
    ("mode", JStr "excerpt"); ("license", JStr "public-domain");
    ("summary", JStr ""); ("takeaways", JArr []); ("citation", JStr "Tractate 12");
    ("excerpt", JStr text) ].

(** Proof steps shared by the properties. *)

Ltac task_unfold :=
  unfold run, result, bind, ret, emit, update_caches, read_caches,
    caches_open, caches_keys, caches_delete, caches_match, cache_match,
    cache_put, fetch_start, fetch_settled, respondWith, skipWaiting,
    clients_claim in *.

Ltac fetch_cases net :=
  repeat match goal with
    | |- context [match match_any ?k ?cs with _ => _ end] =>
        destruct (match_any k cs) eqn:?; simpl
    | |- context [match match_in ?n ?k ?cs with _ => _ end] =>
        destruct (match_in n k cs) eqn:?; simpl
    | |- context [match net ?r with _ => _ end] =>
        destruct (net r) as [?response|] eqn:?; simpl
    | |- context [if ?b then _ else _] => destruct b eqn:?; simpl
    end.

Ltac settle_log :=
  unfold only_ok_put, new_events; simpl;
  rewrite <- ?app_assoc; rewrite drop_app_length; simpl;
  intros e He;
  repeat (destruct He as [<- | He]; [try exact I|]);
  try contradiction.

Ltac run_fetch :=
  unfold SwJs.on_fetch, SwDoc.on_fetch, SwDoc.staleWhileRevalidate,
    SwDoc.fetchPromise, new_events;
  task_unfold; simpl.

Ltac tidy_log := simpl; rewrite <- ?app_assoc; rewrite ?drop_app_length; simpl.

Ltac no_put_here :=
  let Hin := fresh "Hin" in
  intros ? ? ? Hin; simpl in Hin;
  repeat (destruct Hin as [Hin | Hin]; [discriminate|]); exact Hin.

(** * Properties *)

(** ** Facts about the cache storage *)

Section CacheStorageFacts.

Implicit Types (cs : CacheStorage) (name key : string) (r : Response).

Lemma has_cache_lookup name cs :
  has_cache name cs = true <-> is_Some (lookup_cache name cs).
Proof.
  induction cs as [|[n c] rest IH]; simpl.
  - split; [discriminate | intros [? ?]; discriminate].
  - destruct (String.eqb n name); simpl; [split; eauto | exact IH].
Qed.

Lemma lookup_cache_app name cs cs' :
  lookup_cache name (cs ++ cs') =
  match lookup_cache name cs with
  | Some c => Some c
  | None => lookup_cache name cs'
  end.
Proof.
  induction cs as [|[n c] rest IH]; simpl; [reflexivity|].
  destruct (String.eqb n name); [reflexivity | exact IH].
Qed.

Lemma has_cache_open name cs : has_cache name (open name cs) = true.
Proof.
  unfold open. destruct (has_cache name cs) eqn:E; [exact E|].
  unfold has_cache. rewrite existsb_app. simpl.
  rewrite String.eqb_refl. apply orb_true_iff. right. reflexivity.
Qed.

(** Opening a cache changes the result of no lookup. *)
Lemma match_in_open name key name' cs :
  match_in name key (open name' cs) = match_in name key cs.
Proof.
  unfold open, match_in. destruct (has_cache name' cs); [reflexivity|].
  rewrite lookup_cache_app. destruct (lookup_cache name cs); [reflexivity|].
  simpl. destruct (String.eqb name' name); reflexivity.
Qed.

Lemma match_any_app key cs cs' :
  match_any key (cs ++ cs') =
  match match_any key cs with
  | Some r => Some r
  | None => match_any key cs'
  end.
Proof.
  induction cs as [|[n c] rest IH]; simpl; [reflexivity|].
  destruct (c !! key); [reflexivity | exact IH].
Qed.

Lemma match_any_open key name cs :
  match_any key (open name cs) = match_any key cs.
Proof.
  unfold open. destruct (has_cache name cs); [reflexivity|].
  rewrite match_any_app. destruct (match_any key cs); reflexivity.
Qed.

Lemma lookup_cache_put name name' key r cs :
  lookup_cache name (put name' key r cs) =
  match lookup_cache name cs with
  | Some c => Some (if String.eqb name name' then <[key := r]> c else c)
  | None => None
  end.
Proof.
  unfold put. induction cs as [|[n c] rest IH]; simpl; [reflexivity|].
  destruct (String.eqb n name') eqn:E1; simpl.
  - destruct (String.eqb n name) eqn:E2; [|exact IH].
    apply String.eqb_eq in E1, E2. subst. rewrite String.eqb_refl. reflexivity.
  - destruct (String.eqb n name) eqn:E2; [|exact IH].
    apply String.eqb_eq in E2. subst. rewrite E1. reflexivity.
Qed.

(** A lookup after [put] gives the response just stored under the key
    it was stored under, and what was there before anywhere else. *)
Lemma match_in_put name name' key key' r cs :
  match_in name key (put name' key' r cs) =
  if String.eqb name name' && String.eqb key key' && has_cache name' cs
  then Some r
  else match_in name key cs.
Proof.
  unfold match_in. rewrite lookup_cache_put.
  destruct (lookup_cache name cs) as [c|] eqn:E.
  - destruct (String.eqb name name') eqn:E1; simpl; [|reflexivity].
    apply String.eqb_eq in E1. subst name'.
    assert (has_cache name cs = true) as -> by (apply has_cache_lookup; eauto).
    destruct (String.eqb key key') eqn:E2; simpl.
    + apply String.eqb_eq in E2. subst. apply lookup_insert_eq.
    + apply lookup_insert_ne. intros ->. rewrite String.eqb_refl in E2. discriminate.
  - destruct (String.eqb name name') eqn:E1; simpl; [|reflexivity].
    apply String.eqb_eq in E1. subst name'.
    destruct (has_cache name cs) eqn:E3; [|destruct (String.eqb key key'); reflexivity].
    apply has_cache_lookup in E3. rewrite E in E3. destruct E3 as [? ?]. discriminate.
Qed.

Lemma keys_delete name cs :
  keys (delete name cs) = List.filter (fun n => negb (String.eqb n name)) (keys cs).
Proof.
  unfold keys, delete. induction cs as [|[n c] rest IH]; [reflexivity|].
  simpl. destruct (String.eqb n name); simpl; [exact IH | f_equal; exact IH].
Qed.

End CacheStorageFacts.

(** ** Running handlers *)

Lemma run_bind {A B} (m : Task A) (k : A -> Task B) w :
  run (bind m k) w = run (k (result m w)) (run m w).
Proof. unfold run, result, bind. destruct (m w). reflexivity. Qed.

Lemma result_bind {A B} (m : Task A) (k : A -> Task B) w :
  result (bind m k) w = result (k (result m w)) (run m w).
Proof. unfold run, result, bind. destruct (m w). reflexivity. Qed.

Section Activation.

(** Deleting the caches named in [doomed], one after the other. *)
Lemma run_delete_all doomed w :
  run (for_each caches_delete doomed) w =
  mkWorld
    (List.filter (fun p => negb (existsb (String.eqb (fst p)) doomed)) (caches w))
    (skip_waiting w)
    (log w ++ map EvDelete doomed).
Proof.
  revert w. induction doomed as [|name rest IH]; intros [cs sk lg].
  - task_unfold. simpl. rewrite app_nil_r. f_equal.
    induction cs as [|p cs IHcs]; [reflexivity|]. simpl. f_equal. exact IHcs.
  - change (run (for_each caches_delete (name :: rest)) (mkWorld cs sk lg))
      with (run (for_each caches_delete rest)
                (mkWorld (delete name cs) sk (lg ++ [EvDelete name]))).
    rewrite IH. simpl. rewrite <- app_assoc. simpl. f_equal.
    unfold delete. clear IH. induction cs as [|p cs IHcs]; [reflexivity|].
    simpl. rewrite (String.eqb_sym (fst p) name).
    destruct (String.eqb name (fst p)); simpl; [exact IHcs|].
    destruct (existsb (String.eqb (fst p)) rest); simpl; [exact IHcs|].
    f_equal. exact IHcs.
Qed.

(** A cache of the storage is named among [filter stale (keys cs)]
    exactly when its own name is stale. *)
Lemma doomed_member (stale : string -> bool) cs :
  List.filter (fun p => negb (existsb (String.eqb (fst p))
                                (List.filter stale (keys cs)))) cs =
  List.filter (fun p => negb (stale (fst p))) cs.
Proof.
  apply filter_ext_in. intros [n c] Hin. simpl. f_equal.
  destruct (stale n) eqn:E.
  - apply existsb_exists. exists n. split; [|apply String.eqb_refl].
    apply filter_In. split; [|exact E].
    unfold keys. apply in_map_iff. exists (n, c). split; [reflexivity | exact Hin].
  - apply not_true_iff_false. intros H. apply existsb_exists in H.
    destruct H as [n' [H1 H2]]. apply String.eqb_eq in H2. subst n'.
    apply filter_In in H1. destruct H1 as [_ H1]. congruence.
Qed.

Lemma swdoc_activate_caches w :
  caches (run SwDoc.activate w) =
  List.filter (fun p => negb (stale_versioned (fst p))) (caches w).
Proof.
  unfold SwDoc.activate. rewrite !run_bind.
  change (run caches_keys w) with w.
  change (result caches_keys w) with (keys (caches w)).
  rewrite run_delete_all. simpl. apply (doomed_member stale_versioned).
Qed.

(** [sw.js] sweeps every store but its own. *)
Lemma swjs_activate_caches w :
  caches (run SwJs.activate w) =
  List.filter (fun p => String.eqb (fst p) SwJs.CACHE_NAME) (caches w).
Proof.
  unfold SwJs.activate. rewrite !run_bind.
  change (run caches_keys w) with w.
  change (result caches_keys w) with (keys (caches w)).
  rewrite run_delete_all. simpl.
  rewrite (doomed_member (fun name => negb (String.eqb name SwJs.CACHE_NAME))).
  apply filter_ext. intros p. apply negb_involutive.
Qed.

(** After the listing's [activate]: every store with the prefix and
    another name is gone; the current store and every store without
    the prefix are there with the content they had. *)
Lemma swdoc_activate_sweeps w :
  let w' := run SwDoc.activate w in
  (forall name, stale_versioned name = true -> ~ In name (keys (caches w')))
  /\ (forall name, stale_versioned name = false ->
        lookup_cache name (caches w') = lookup_cache name (caches w))
  /\ (forall name c, stale_versioned name = false ->
        In (name, c) (caches w) -> In (name, c) (caches w')).
Proof.
  cbv zeta. rewrite swdoc_activate_caches. repeat split.
  - intros name Hs Hin. unfold keys in Hin. apply in_map_iff in Hin.
    destruct Hin as [[n c] [Hn Hin]]. simpl in Hn. subst n.
    apply filter_In in Hin. simpl in Hin. destruct Hin as [_ Hin].
    rewrite Hs in Hin. discriminate.
  - intros name Hs. induction (caches w) as [|[n c] rest IH]; [reflexivity|].
    simpl. destruct (String.eqb n name) eqn:E.
    + apply String.eqb_eq in E. subst n. rewrite Hs. simpl.
      rewrite String.eqb_refl. reflexivity.
    + destruct (stale_versioned n); simpl; [exact IH|]. rewrite E. exact IH.
  - intros name c Hs Hin. apply filter_In. simpl. rewrite Hs. split; [exact Hin | reflexivity].
Qed.

End Activation.

(** ** What a fetch event does to the storage *)

Section FetchHandling.

Variable location_origin : string.
Variables (net : Network) (request : Request).

(** The storage [sw.js] leaves behind: untouched, or with its own
    cache opened, or with the response of a miss written there; the
    latter only for a basic response of status 200. *)
Lemma swjs_fetch_caches w :
  let w' := run (SwJs.on_fetch location_origin net request) w in
  caches w' = caches w
  \/ caches w' = open SwJs.CACHE_NAME (caches w)
  \/ exists r, net request = NetOk r /\ status r = 200%Z /\ type r = type_basic
       /\ match_any (url request) (caches w) = None
       /\ caches w' = put SwJs.CACHE_NAME (url request) r
                          (open SwJs.CACHE_NAME (caches w)).
Proof.
  unfold SwJs.on_fetch. task_unfold. simpl. fetch_cases net; auto.
  right. right. exists response.
  apply orb_false_iff in Heqb. destruct Heqb as [H1 H2].
  apply negb_false_iff in H1, H2. apply Z.eqb_eq in H1.
  destruct (type response); try discriminate. auto.
Qed.

(** The same for the listing; a response is written on the runtime
    routes, or for a request to the worker's own origin. *)
Lemma swdoc_fetch_caches w :
  let w' := run (SwDoc.on_fetch location_origin net request) w in
  caches w' = caches w
  \/ caches w' = open SwDoc.CACHE_NAME (caches w)
  \/ exists r, net request = NetOk r /\ status r = 200%Z
       /\ (SwDoc.runtime_route request = true
           \/ (match_any (url request) (caches w) = None
               /\ Url.origin (url request) = location_origin))
       /\ caches w' = put SwDoc.CACHE_NAME (url request) r
                          (open SwDoc.CACHE_NAME (caches w)).
Proof.
  unfold SwDoc.on_fetch, SwDoc.staleWhileRevalidate, SwDoc.fetchPromise.
  task_unfold. simpl. fetch_cases net; auto.
  - right. right. exists response. apply Z.eqb_eq in Heqb0. auto.
  - right. right. exists response. apply Z.eqb_eq in Heqb0. auto.
  - right. right. exists response. apply negb_false_iff in Heqb0.
    apply Z.eqb_eq in Heqb0. apply String.eqb_eq in Heqb1. auto 6.
Qed.

End FetchHandling.

(** ** Only successful responses are stored *)

Section OnlyOk.

Variables (net : Network) (request : Request).

Lemma only_ok_same cs : only_ok_written net request cs cs.
Proof. unfold only_ok_written. auto. Qed.

Lemma only_ok_open name cs : only_ok_written net request cs (open name cs).
Proof.
  unfold only_ok_written. repeat split; intros *.
  - rewrite match_in_open. auto.
  - rewrite match_in_open. auto.
  - intros _ n k. apply match_in_open.
Qed.

Lemma only_ok_put_open name r cs :
  net request = NetOk r -> status r = 200%Z ->
  only_ok_written net request cs (put name (url request) r (open name cs)).
Proof.
  intros Hnet Hst. unfold only_ok_written. repeat split.
  - intros n k r'. rewrite match_in_put, match_in_open.
    destruct (_ && _ && _); [intros [= <-]; auto | auto].
  - intros n k. rewrite match_in_put, match_in_open.
    destruct (_ && _ && _); [eauto | auto].
  - intros Hno. exfalso. exact (Hno r Hnet Hst).
Qed.

Lemma swjs_only_ok_written location_origin w :
  only_ok_written net request (caches w)
    (caches (run (SwJs.on_fetch location_origin net request) w)).
Proof.
  destruct (swjs_fetch_caches location_origin net request w)
    as [-> | [-> | [r (Hn & Hs & _ & _ & ->)]]];
    auto using only_ok_same, only_ok_open, only_ok_put_open.
Qed.

Lemma swdoc_only_ok_written location_origin w :
  only_ok_written net request (caches w)
    (caches (run (SwDoc.on_fetch location_origin net request) w)).
Proof.
  destruct (swdoc_fetch_caches location_origin net request w)
    as [-> | [-> | [r (Hn & Hs & _ & ->)]]];
    auto using only_ok_same, only_ok_open, only_ok_put_open.
Qed.

Lemma swjs_only_ok_put location_origin w :
  only_ok_put net request
    (new_events w (run (SwJs.on_fetch location_origin net request) w)).
Proof.
  unfold SwJs.on_fetch. task_unfold. simpl. fetch_cases net; settle_log.
  apply orb_false_iff in Heqb. destruct Heqb as [H1 _].
  apply negb_false_iff in H1. apply Z.eqb_eq in H1. auto.
Qed.

Lemma swdoc_only_ok_put location_origin w :
  only_ok_put net request
    (new_events w (run (SwDoc.on_fetch location_origin net request) w)).
Proof.
  unfold SwDoc.on_fetch, SwDoc.staleWhileRevalidate, SwDoc.fetchPromise.
  task_unfold. simpl. fetch_cases net; settle_log.
  - apply Z.eqb_eq in Heqb0. auto.
  - apply Z.eqb_eq in Heqb0. auto.
  - apply negb_false_iff in Heqb0. apply Z.eqb_eq in Heqb0. auto.
Qed.

End OnlyOk.

(** C5. For every fetch event, handled by [sw.js] or by the listing and
    whatever the strategy, a response is written to the cache storage
    only if it is the network's response and its status is 200: every
    [cache.put] of the handler carries such a response, an entry found
    afterwards was there before or is such a response, nothing is
    deleted, no entry that existed has gone, and when the network failed
    or answered with another status every lookup gives what it gave
    before. *)
Theorem fetch_stores_only_status_200
    (location_origin : string) (net : Network) (request : Request) (w : World) :
  let w1 := run (SwJs.on_fetch location_origin net request) w in
  let w2 := run (SwDoc.on_fetch location_origin net request) w in
  (only_ok_put net request (new_events w w1)
   /\ only_ok_written net request (caches w) (caches w1))
  /\ (only_ok_put net request (new_events w w2)
      /\ only_ok_written net request (caches w) (caches w2)).
Proof.
  cbv zeta. repeat split.
  - apply swjs_only_ok_put.
  - apply swjs_only_ok_written.
  - apply swjs_only_ok_written.
  - apply swjs_only_ok_written.
  - apply swdoc_only_ok_put.
  - apply swdoc_only_ok_written.
  - apply swdoc_only_ok_written.
  - apply swdoc_only_ok_written.
Qed.

(** ** Stale-while-revalidate and cache-first *)

Section Strategies.

Variable location_origin : string.
Variables (net : Network) (request : Request) (w : World).

(** On a runtime route with a cached entry the listing answers with
    the entry before the network settles, whatever the network does;
    the fetch is issued all the same, and a status-200 result replaces
    the entry afterwards. *)
Lemma swdoc_revalidates_after_answer (cached : Response) :
  SwDoc.runtime_route request = true ->
  match_in SwDoc.CACHE_NAME (url request) (caches w) = Some cached ->
  let w' := run (SwDoc.on_fetch location_origin net request) w in
  new_events w w' =
    [EvFetch request; EvRespond (VResponse cached); EvSettle request (net request)]
    ++ write_back SwDoc.CACHE_NAME request (net request)
  /\ received (new_events w w') = Some cached
  /\ (forall r, net request = NetOk r -> status r = 200%Z ->
        match_in SwDoc.CACHE_NAME (url request) (caches w') = Some r).
Proof.
  intros Hroute Hhit. cbv zeta. run_fetch. rewrite Hroute.
  rewrite match_in_open, Hhit. simpl.
  assert (has_cache SwDoc.CACHE_NAME (caches w) = true) as Hhas.
  { apply has_cache_lookup. unfold match_in in Hhit.
    destruct (lookup_cache SwDoc.CACHE_NAME (caches w)); [eauto | discriminate]. }
  destruct (net request) as [r|] eqn:Hnet; simpl.
  - destruct (status r =? 200)%Z eqn:Hst; tidy_log.
    + split; [reflexivity|]. split; [reflexivity|]. intros r' [= <-] _.
      rewrite match_in_put, !String.eqb_refl. simpl.
      unfold open. rewrite Hhas. rewrite Hhas. reflexivity.
    + split; [reflexivity|]. split; [reflexivity|]. intros r' [= <-] H200.
      apply Z.eqb_neq in Hst. contradiction.
  - tidy_log. split; [reflexivity|]. split; [reflexivity|]. intros r' [=].
Qed.

(** C6. On a runtime route of the listing ([/bibles/**], [/xrefs/**])
    without a cached entry: when the network answers with status 200
    the page receives that response, after it was put in the cache,
    and a lookup for the same request then finds it; when the network
    fails the handler hands [null] to [respondWith], so the page
    receives no response, and nothing is written. *)
Theorem swr_cold_cache :
  SwDoc.runtime_route request = true ->
  match_in SwDoc.CACHE_NAME (url request) (caches w) = None ->
  let w' := run (SwDoc.on_fetch location_origin net request) w in
  (forall r, net request = NetOk r -> status r = 200%Z ->
      new_events w w' =
        [EvFetch request; EvSettle request (NetOk r);
         EvPut SwDoc.CACHE_NAME (url request) r; EvRespond (VResponse r)]
      /\ received (new_events w w') = Some r
      /\ match_in SwDoc.CACHE_NAME (url request) (caches w') = Some r)
  /\ (net request = NetFail ->
      new_events w w' =
        [EvFetch request; EvSettle request NetFail; EvRespond VNull]
      /\ received (new_events w w') = None
      /\ forall name key, match_in name key (caches w') = match_in name key (caches w)).
Proof.
  intros Hroute Hmiss. cbv zeta. run_fetch. rewrite Hroute.
  rewrite match_in_open, Hmiss. simpl. split.
  - intros r Hnet H200. rewrite Hnet. simpl.
    apply Z.eqb_eq in H200. rewrite H200. tidy_log.
    repeat split; try reflexivity.
    rewrite match_in_put, !String.eqb_refl, has_cache_open. reflexivity.
  - intros Hnet. rewrite Hnet. tidy_log. repeat split; try reflexivity.
    intros name key. apply match_in_open.
Qed.

(** C7. Cache-first ([sw.js] for every request, the listing outside
    its runtime routes), nothing cached for the request and the
    network failing: a request whose destination is [document] is
    answered with what the storage holds for [/index.html]; any other
    request is answered with [undefined], so the page receives no
    response.  The storage is left as it was. *)
Theorem cache_first_offline :
  net request = NetFail ->
  match_any (url request) (caches w) = None ->
  let w1 := run (SwJs.on_fetch location_origin net request) w in
  let w2 := run (SwDoc.on_fetch location_origin net request) w in
  let offline := [EvFetch request; EvSettle request NetFail; EvRespond (offline_answer location_origin request w)] in
  (new_events w w1 = offline /\ caches w1 = caches w)
  /\ (SwDoc.runtime_route request = false ->
      new_events w w2 = offline /\ caches w2 = caches w)
  /\ (destination request = "document" ->
      forall r, match_any (Url.resolve location_origin "/index.html") (caches w) = Some r ->
                received offline = Some r)
  /\ (destination request <> "document" -> received offline = None).
Proof.
  intros Hnet Hmiss. cbv zeta. unfold offline_answer. repeat split.
  - run_fetch. rewrite Hmiss, Hnet. simpl.
    destruct (String.eqb (destination request) "document"); tidy_log; reflexivity.
  - run_fetch. rewrite Hmiss, Hnet. simpl.
    destruct (String.eqb (destination request) "document"); reflexivity.
  - run_fetch. rewrite H, Hmiss, Hnet. simpl.
    destruct (String.eqb (destination request) "document"); tidy_log; reflexivity.
  - run_fetch. rewrite H, Hmiss, Hnet. simpl.
    destruct (String.eqb (destination request) "document"); reflexivity.
  - intros Hdoc r Hr. rewrite Hdoc. simpl. rewrite Hr. reflexivity.
  - intros Hdoc. apply String.eqb_neq in Hdoc. rewrite Hdoc. reflexivity.
Qed.

End Strategies.

(** ** Precaching *)

Section Precache.

Variable net : Network.

Lemma run_fetch_start_all urls w :
  run (for_each (fun u => fetch_start (mkRequest u "")) urls) w =
  mkWorld (caches w) (skip_waiting w)
          (log w ++ map (fun u => EvFetch (mkRequest u "")) urls).
Proof.
  revert w. induction urls as [|u rest IH]; intros [cs sk lg].
  - task_unfold. simpl. rewrite app_nil_r. reflexivity.
  - simpl for_each. rewrite run_bind, IH. task_unfold. simpl.
    rewrite <- app_assoc. reflexivity.
Qed.

Lemma precache_fetch_keys urls entries :
  precache_fetch net urls = Some entries -> map fst entries = urls.
Proof.
  revert entries. induction urls as [|u rest IH]; simpl; intros entries H.
  - injection H as <-. reflexivity.
  - destruct (net (mkRequest u "")) as [r|]; [|discriminate].
    destruct (addAll_accepts r); [|discriminate].
    destruct (precache_fetch net rest) as [es|]; [|discriminate].
    injection H as <-. simpl. f_equal. apply IH. reflexivity.
Qed.

(** A URL whose fetch fails, or whose response [addAll] does not
    accept, makes the whole batch fail. *)
Lemma precache_fetch_fails urls u :
  In u urls ->
  match net (mkRequest u "") with
  | NetOk r => addAll_accepts r = false
  | NetFail => True
  end ->
  precache_fetch net urls = None.
Proof.
  induction urls as [|u' rest IH]; simpl; [contradiction|].
  intros [-> | Hin] Hbad.
  - destruct (net (mkRequest u "")) as [r|]; [|reflexivity]. rewrite Hbad. reflexivity.
  - destruct (net (mkRequest u' "")) as [r|]; [|reflexivity].
    destruct (addAll_accepts r); [|reflexivity]. rewrite (IH Hin Hbad). reflexivity.
Qed.

Lemma run_put_all name entries w :
  let w' := run (for_each (fun e => cache_put name (fst e) (snd e)) entries) w in
  skip_waiting w' = skip_waiting w
  /\ forall n k r, match_in n k (caches w') = Some r ->
       match_in n k (caches w) = Some r \/ In k (map fst entries).
Proof.
  revert w. induction entries as [|[u r0] rest IH]; intros [cs sk lg]; cbv zeta.
  - task_unfold. simpl. auto.
  - simpl for_each. rewrite run_bind.
    destruct (IH (run (cache_put name u r0) (mkWorld cs sk lg))) as [IH1 IH2].
    split; [rewrite IH1; reflexivity|].
    intros n k r H. apply IH2 in H. destruct H as [H | H]; [|right; right; exact H].
    revert H. task_unfold. simpl. rewrite match_in_put.
    destruct (String.eqb n name && String.eqb k u && has_cache name cs) eqn:E; [|auto].
    intros _. right. left. apply andb_true_iff in E. destruct E as [E _].
    apply andb_true_iff in E. destruct E as [_ E]. apply String.eqb_eq in E. auto.
Qed.

(** [cache.addAll]: it never touches the skip-waiting flag; it adds
    entries under the given URLs only; rejected, it adds nothing. *)
Lemma run_addAll name urls w :
  let w' := run (cache_addAll net name urls) w in
  skip_waiting w' = skip_waiting w
  /\ (forall n k r, match_in n k (caches w') = Some r ->
        match_in n k (caches w) = Some r \/ In k urls)
  /\ (result (cache_addAll net name urls) w = Rejected -> caches w' = caches w)
  /\ (result (cache_addAll net name urls) w = Rejected <-> precache_fetch net urls = None).
Proof.
  cbv zeta. unfold cache_addAll. rewrite run_bind, result_bind, run_fetch_start_all.
  destruct (precache_fetch net urls) as [entries|] eqn:E.
  - rewrite run_bind, result_bind.
    destruct (run_put_all name entries
                (mkWorld (caches w) (skip_waiting w)
                   (log w ++ map (fun u => EvFetch (mkRequest u "")) urls))) as [H1 H2].
    simpl in H1, H2. rewrite (precache_fetch_keys _ _ E) in H2.
    repeat split; try (task_unfold; simpl; intros; discriminate); auto.
  - task_unfold. simpl. repeat split; auto.
Qed.

End Precache.

(** ** The install listeners *)

Section Install.

Variable location_origin : string.
Variable net : Network.

(** [sw.js]: a failed batch rejects the install promise and leaves the
    flag and every lookup as they were; a successful batch sets the
    skip-waiting flag. *)
Lemma swjs_install_spec w :
  let outcome := result (SwJs.install location_origin net) w in
  let w' := run (SwJs.install location_origin net) w in
  (precache_fetch net (swjs_precache location_origin) = None ->
     outcome = Rejected /\ skip_waiting w' = skip_waiting w
     /\ forall n k, match_in n k (caches w') = match_in n k (caches w))
  /\ (precache_fetch net (swjs_precache location_origin) <> None ->
     outcome = Fulfilled /\ skip_waiting w' = true)
  /\ (forall n k r, match_in n k (caches w') = Some r ->
        match_in n k (caches w) = Some r \/ In k (swjs_precache location_origin)).
Proof.
  cbv zeta. unfold SwJs.install. fold (swjs_precache location_origin).
  rewrite !run_bind, !result_bind.
  set (w0 := run (caches_open SwJs.CACHE_NAME) w).
  destruct (run_addAll net SwJs.CACHE_NAME (swjs_precache location_origin) w0) as (Hsk & Hsub & Hrej & Hiff).
  assert (forall n k, match_in n k (caches w0) = match_in n k (caches w)) as Hopen.
  { intros n k. unfold w0. task_unfold. simpl. apply match_in_open. }
  destruct (result (cache_addAll net SwJs.CACHE_NAME (swjs_precache location_origin)) w0) eqn:E.
  - split; [|split].
    + intros Hnone. apply Hiff in Hnone. discriminate.
    + intros _. split; [reflexivity|]. rewrite run_bind. reflexivity.
    + intros n k r H. revert H. rewrite run_bind. task_unfold. simpl.
      intros H. apply Hsub in H. rewrite Hopen in H. exact H.
  - split; [|split].
    + intros _. split; [reflexivity|]. split.
      * task_unfold. simpl. rewrite Hsk. reflexivity.
      * intros n k. task_unfold. simpl. rewrite (Hrej eq_refl). apply Hopen.
    + intros Hsome. exfalso. apply Hsome. apply Hiff. reflexivity.
    + intros n k r H. revert H. task_unfold. simpl.
      intros H. apply Hsub in H. rewrite Hopen in H. exact H.
Qed.

(** The listing: the install promise always fulfils and the flag is
    never touched. *)
Lemma swdoc_install_spec w :
  let outcome := result (SwDoc.install location_origin net) w in
  let w' := run (SwDoc.install location_origin net) w in
  outcome = Fulfilled
  /\ skip_waiting w' = skip_waiting w
  /\ (precache_fetch net (swdoc_precache location_origin) = None ->
        forall n k, match_in n k (caches w') = match_in n k (caches w))
  /\ (forall n k r, match_in n k (caches w') = Some r ->
        match_in n k (caches w) = Some r \/ In k (swdoc_precache location_origin)).
Proof.
  cbv zeta. unfold SwDoc.install. fold (swdoc_precache location_origin).
  rewrite !run_bind, !result_bind.
  set (w0 := run (caches_open SwDoc.CACHE_NAME) w).
  destruct (run_addAll net SwDoc.CACHE_NAME (swdoc_precache location_origin) w0) as (Hsk & Hsub & Hrej & Hiff).
  assert (forall n k, match_in n k (caches w0) = match_in n k (caches w)) as Hopen.
  { intros n k. unfold w0. task_unfold. simpl. apply match_in_open. }
  destruct (result (cache_addAll net SwDoc.CACHE_NAME (swdoc_precache location_origin)) w0) eqn:E.
  - split; [reflexivity|]. split; [|split].
    + task_unfold. simpl. exact Hsk.
    + intros Hnone. apply Hiff in Hnone. discriminate.
    + intros n k r H. revert H. task_unfold. simpl.
      intros H. apply Hsub in H. rewrite Hopen in H. exact H.
  - split; [reflexivity|]. split; [|split].
    + task_unfold. simpl. exact Hsk.
    + intros _ n k. task_unfold. simpl. rewrite (Hrej eq_refl). apply Hopen.
    + intros n k r H. revert H. task_unfold. simpl.
      intros H. apply Hsub in H. rewrite Hopen in H. exact H.
Qed.

End Install.

(** ** The life cycle of the two workers *)


Section LifecycleFacts.

Variable location_origin : string.

Lemma step_install (s : Script) i net :
  phase i = Installing ->
  step s i (DoInstall net) =
  let w' := run (script_install s net) (world i) in
  match result (script_install s net) (world i) with
  | Rejected => mkInstance Redundant w' (controlled_by_other i)
  | Fulfilled =>
      mkInstance (try_activate w' (controlled_by_other i)) w' (controlled_by_other i)
  end.
Proof.
  intros H. unfold step, run, result. rewrite H.
  destruct (script_install s net (world i)) as [[|] w']; reflexivity.
Qed.

(** A redundant instance stays redundant. *)
Lemma redundant_forever (s : Script) es : forall i,
  phase i = Redundant -> phase (steps s i es) = Redundant.
Proof.
  induction es as [|e es IH]; intros i H; [exact H|].
  apply IH. unfold step. rewrite H. destruct e; simpl; first [exact H | reflexivity].
Qed.

Lemma run_message_js data w :
  run (SwJs.on_message data) w =
  if is_skip_message data then run skipWaiting w else w.
Proof. unfold SwJs.on_message, is_skip_message. destruct data as [d|]; [destruct (_ && _)|]; reflexivity. Qed.

Lemma run_message_doc data w :
  run (SwDoc.on_message data) w =
  if is_skip_message data then run skipWaiting w else w.
Proof. unfold SwDoc.on_message, is_skip_message. destruct data as [d|]; [destruct (_ && _)|]; reflexivity. Qed.

(** X7.  The listing's install listener never sets the flag, so an
    instance that finishes installing under another controller waits,
    whatever the network gave the precache. *)
Lemma swdoc_waits_after_install i net :
  phase i = Installing ->
  controlled_by_other i = true ->
  skip_waiting (world i) = false ->
  let i' := step (sw_doc location_origin) i (DoInstall net) in
  phase i' = Waiting /\ skip_waiting (world i') = false.
Proof.
  intros Hp Hc Hs. cbv zeta. rewrite (step_install _ _ _ Hp). simpl.
  destruct (swdoc_install_spec location_origin net (world i)) as (-> & Hsk & _).
  simpl. unfold try_activate. rewrite Hsk, Hs, Hc. auto.
Qed.

(** X8.  A waiting instance of the listing under another controller
    starts activating through one stimulus of a page only: a message
    whose data is truthy and has the type ['SKIP_WAITING'].  The other
    way is the browser's: the old controller losing its last page. *)
Lemma swdoc_leaves_waiting i e :
  phase i = Waiting ->
  controlled_by_other i = true ->
  skip_waiting (world i) = false ->
  phase (step (sw_doc location_origin) i e) = Activating <->
  (e = PagesClosed \/ exists data, e = Message data /\ is_skip_message data = true).
Proof.
  intros Hp Hc Hs. unfold step. rewrite Hp. destruct e; simpl.
  - rewrite Hp. split; [discriminate | intros [H | [d [H _]]]; discriminate].
  - rewrite run_message_doc. unfold try_activate.
    destruct (is_skip_message data) eqn:E; simpl.
    + split; [eauto | reflexivity].
    + rewrite Hs, Hc. simpl.
      split; [discriminate | intros [H | [d [[= <-] H]]]; [discriminate | congruence]].
  - split; auto.
  - rewrite Hp. split; [discriminate | intros [H | [d [H _]]]; discriminate].
  - rewrite Hp. split; [discriminate | intros [H | [d [H _]]]; discriminate].
Qed.

(** In [sw.js] a failed precache makes the instance redundant for good,
    with every lookup in the storage as before the install. *)
Lemma swjs_failed_precache i net es :
  phase i = Installing ->
  precache_fetch net (swjs_precache location_origin) = None ->
  let i' := step (sw_js location_origin) i (DoInstall net) in
  phase i' = Redundant
  /\ phase (steps (sw_js location_origin) i' es) = Redundant
  /\ forall n k, match_in n k (caches (world i')) = match_in n k (caches (world i)).
Proof.
  intros Hp Hnone. cbv zeta.
  destruct (swjs_install_spec location_origin net (world i)) as (H & _).
  destruct (H Hnone) as (Hr & _ & Hsame).
  assert (phase (step (sw_js location_origin) i (DoInstall net)) = Redundant) as Hred.
  { rewrite (step_install _ _ _ Hp). simpl. rewrite Hr. reflexivity. }
  split; [exact Hred|]. split; [apply redundant_forever; exact Hred|].
  rewrite (step_install _ _ _ Hp). simpl. rewrite Hr. exact Hsame.
Qed.

(** X10.  In [sw.js] one asset of the manifest whose fetch fails, or
    whose response [addAll] does not accept, is enough to make the
    installing instance redundant for good, whatever events follow,
    with every lookup in the storage as before the install. *)
Lemma swjs_bad_asset_fails_install i net u es :
  phase i = Installing ->
  In u (swjs_precache location_origin) ->
  match net (mkRequest u "") with
  | NetOk r => addAll_accepts r = false
  | NetFail => True
  end ->
  let i' := step (sw_js location_origin) i (DoInstall net) in
  phase i' = Redundant
  /\ phase (steps (sw_js location_origin) i' es) = Redundant
  /\ forall n k, match_in n k (caches (world i')) = match_in n k (caches (world i)).
Proof.
  intros Hp Hin Hbad. apply swjs_failed_precache; [exact Hp|].
  exact (precache_fetch_fails net _ u Hin Hbad).
Qed.

End LifecycleFacts.

(** ** Where the two workers part: evaluations on the example deployment *)

(** C1. [sw.js] at an update: all the assets are fetched, the install
    listener calls [skipWaiting] itself, and the instance that finished
    installing under another controller starts activating at once, with
    no message received. *)
Theorem swjs_install_skips_waiting :
  let i := step (sw_js example_origin) update (DoInstall online) in
  phase i = Activating
  /\ skip_waiting (world i) = true
  /\ last (log (world i)) = Some EvSkipWaiting
  /\ controlled_by_other i = true.
Proof. vm_compute. auto. Qed.

(** C2. The listing at an update when one precache asset is not found:
    the batch fails, yet the install promise fulfils; the instance
    waits, activates when the old pages are gone, and controls with a
    store that holds none of the precache assets. *)
Theorem swdoc_install_survives_failed_precache :
  let net := missing "https://bible.example/xrefs/John-3-16.json" in
  let i := step (sw_doc example_origin) update (DoInstall net) in
  let i' := steps (sw_doc example_origin) i [PagesClosed; DoActivate] in
  precache_fetch net (swdoc_precache example_origin) = None
  /\ result (SwDoc.install example_origin net) fresh = Fulfilled
  /\ phase i = Waiting
  /\ phase i' = Activated
  /\ keys (caches (world i')) = [SwDoc.CACHE_NAME]
  /\ forall key, match_in SwDoc.CACHE_NAME key (caches (world i')) = None.
Proof.
  vm_compute. repeat split.
Qed.

(** C3. The [activate] listener of [sw.js] on a storage that holds its
    own store, an older version and the store of another application of
    the same origin, whose name does not carry the prefix
    [bible-study-]: the other application's store is deleted together
    with the old version. *)
Theorem swjs_activate_sweeps_foreign_store :
  let note := mkResponse 200 type_basic "a note" in
  let before :=
    mkWorld [ (SwJs.CACHE_NAME, ∅);
              ("bible-study-v0", ∅);
              ("notes-app", {[ "https://bible.example/notes/1" := note ]}) ]
            false [] in
  let after := run SwJs.activate before in
  JsString.startsWith "notes-app" "bible-study-" = false
  /\ match_in "notes-app" "https://bible.example/notes/1" (caches before) = Some note
  /\ keys (caches after) = [SwJs.CACHE_NAME]
  /\ match_in "notes-app" "https://bible.example/notes/1" (caches after) = None
  /\ log after = [EvDelete "bible-study-v0"; EvDelete "notes-app"; EvClaim].
Proof. vm_compute. auto 6. Qed.

(** C4. The [fetch] listener of [sw.js] on a request under [/bibles/]
    that is cached: the cached entry is the answer, but no fetch is
    issued, and the entry stays as it was although the network holds a
    newer status-200 response. *)
Theorem swjs_serves_bibles_without_revalidation :
  let request := mkRequest "https://bible.example/bibles/WEB/John.json" "" in
  let stale := mkResponse 200 type_basic "old text" in
  let before := mkWorld [(SwJs.CACHE_NAME, {[ url request := stale ]})] false [] in
  let after := run (SwJs.on_fetch example_origin online request) before in
  SwDoc.runtime_route request = true
  /\ online request =
       NetOk (mkResponse 200 type_basic
                "content of https://bible.example/bibles/WEB/John.json")
  /\ log after = [EvRespond (VResponse stale)]
  /\ match_in SwJs.CACHE_NAME (url request) (caches after) = Some stale.
Proof. vm_compute. auto. Qed.

(** ** Responses of other origins *)

Section CrossOrigin.

Variable location_origin : string.

(** [sw.js] writes nothing for a request to another origin: the
    response is not basic. *)
Lemma swjs_cross_origin_not_stored net request w :
  standard_response location_origin net request = true ->
  cross_origin location_origin request = true ->
  let w' := run (SwJs.on_fetch location_origin net request) w in
  no_put (new_events w w')
  /\ forall n k, match_in n k (caches w') = match_in n k (caches w).
Proof.
  unfold standard_response. intros Hstd Hx. rewrite Hx in Hstd. cbv zeta.
  run_fetch. destruct (match_any (url request) (caches w)); simpl.
  { tidy_log. split; [no_put_here | reflexivity]. }
  destruct (net request) as [r|]; simpl.
  - destruct (is_basic (type r)); [discriminate|]. rewrite orb_true_r. simpl.
    tidy_log. split; [no_put_here | reflexivity].
  - destruct (String.eqb (destination request) "document"); simpl; tidy_log;
      (split; [no_put_here | reflexivity]).
Qed.

(** The listing's cache-first path writes nothing for a request to
    another origin: the origin of the URL is tested. *)
Lemma swdoc_cross_origin_not_stored net request w :
  SwDoc.runtime_route request = false ->
  cross_origin location_origin request = true ->
  let w' := run (SwDoc.on_fetch location_origin net request) w in
  no_put (new_events w w')
  /\ forall n k, match_in n k (caches w') = match_in n k (caches w).
Proof.
  unfold cross_origin. intros Hroute Hx. apply negb_true_iff in Hx. cbv zeta.
  run_fetch. rewrite Hroute. destruct (match_any (url request) (caches w)); simpl.
  { tidy_log. split; [no_put_here | reflexivity]. }
  destruct (net request) as [r|]; simpl.
  - rewrite Hx. destruct (negb (status r =? 200)%Z); simpl; tidy_log;
      (split; [no_put_here | reflexivity]).
  - destruct (String.eqb (destination request) "document"); simpl; tidy_log;
      (split; [no_put_here | reflexivity]).
Qed.

Lemma lookup_cache_filter (keep : string -> bool) name cs :
  lookup_cache name (List.filter (fun p => keep (fst p)) cs) =
  if keep name then lookup_cache name cs else None.
Proof.
  induction cs as [|[n c] rest IH]; simpl; [destruct (keep name); reflexivity|].
  destruct (String.eqb n name) eqn:E.
  - apply String.eqb_eq in E. subst n. destruct (keep name) eqn:K; simpl.
    + rewrite String.eqb_refl. reflexivity.
    + exact IH.
  - destruct (keep n); simpl; [rewrite E|]; exact IH.
Qed.

Lemma match_in_filter (keep : string -> bool) name key r cs :
  match_in name key (List.filter (fun p => keep (fst p)) cs) = Some r ->
  match_in name key cs = Some r.
Proof.
  unfold match_in. rewrite lookup_cache_filter. destruct (keep name); [auto | discriminate].
Qed.

(** What preserves [foreign_precached]: every entry found afterwards was
    there before, or is a precache entry, or belongs to the worker's
    origin. *)
Lemma foreign_precached_step precache cs cs' :
  (forall n k r, match_in n k cs' = Some r ->
     match_in n k cs = Some r \/ In k precache
     \/ String.eqb (Url.origin k) location_origin = true) ->
  foreign_precached location_origin precache cs ->
  foreign_precached location_origin precache cs'.
Proof.
  intros Hsub Hinv n k r Hm Hx. destruct (Hsub n k r Hm) as [H | [H | H]].
  - exact (Hinv n k r H Hx).
  - exact H.
  - congruence.
Qed.

Lemma swjs_step_keeps i e :
  standard_stimulus location_origin e = true ->
  foreign_precached location_origin (swjs_precache location_origin) (caches (world i)) ->
  foreign_precached location_origin (swjs_precache location_origin)
    (caches (world (step (sw_js location_origin) i e))).
Proof.
  intros Hstd. apply foreign_precached_step. intros n k r.
  destruct e as [net | data | | | net request].
  - destruct (phase i) eqn:Hp; try (unfold step; rewrite Hp; simpl; auto; fail).
    rewrite (step_install _ _ _ Hp). simpl.
    destruct (swjs_install_spec location_origin net (world i)) as (_ & _ & Hsub).
    intros H. destruct (result _ _); simpl in H; apply Hsub in H; tauto.
  - unfold step. destruct (phase i); simpl; auto;
      rewrite run_message_js; destruct (is_skip_message data); simpl; auto.
  - unfold step. destruct (phase i); simpl; auto.
  - unfold step. destruct (phase i); simpl; auto.
    rewrite swjs_activate_caches. intros H. left.
    exact (match_in_filter (fun name => String.eqb name SwJs.CACHE_NAME) _ _ _ _ H).
  - unfold step. destruct (phase i); simpl; auto.
    simpl in Hstd. unfold standard_response in Hstd.
    destruct (swjs_fetch_caches location_origin net request (world i))
      as [-> | [-> | [r' (Hn & _ & Hb & _ & ->)]]].
    + auto.
    + rewrite match_in_open. auto.
    + rewrite match_in_put, match_in_open.
      destruct (String.eqb k (url request)) eqn:Ek.
      * intros _. right. right. apply String.eqb_eq in Ek. subst k.
        rewrite Hn, Hb in Hstd. simpl in Hstd. unfold cross_origin in Hstd.
        apply negb_true_iff in Hstd. apply negb_false_iff in Hstd. exact Hstd.
      * rewrite andb_false_r. simpl. auto.
Qed.

Lemma swdoc_step_keeps i e :
  cache_first_stimulus e = true ->
  foreign_precached location_origin (swdoc_precache location_origin) (caches (world i)) ->
  foreign_precached location_origin (swdoc_precache location_origin)
    (caches (world (step (sw_doc location_origin) i e))).
Proof.
  intros Hcf. apply foreign_precached_step. intros n k r.
  destruct e as [net | data | | | net request].
  - destruct (phase i) eqn:Hp; try (unfold step; rewrite Hp; simpl; auto; fail).
    rewrite (step_install _ _ _ Hp). simpl.
    destruct (swdoc_install_spec location_origin net (world i)) as (-> & _ & _ & Hsub).
    simpl. intros H. apply Hsub in H. tauto.
  - unfold step. destruct (phase i); simpl; auto;
      rewrite run_message_doc; destruct (is_skip_message data); simpl; auto.
  - unfold step. destruct (phase i); simpl; auto.
  - unfold step. destruct (phase i); simpl; auto.
    rewrite swdoc_activate_caches. intros H. left.
    exact (match_in_filter (fun name => negb (stale_versioned name)) _ _ _ _ H).
  - unfold step. destruct (phase i); simpl; auto.
    simpl in Hcf. apply negb_true_iff in Hcf.
    destruct (swdoc_fetch_caches location_origin net request (world i))
      as [-> | [-> | [r' (Hn & _ & [Hr | [_ Ho]] & ->)]]].
    + auto.
    + rewrite match_in_open. auto.
    + congruence.
    + rewrite match_in_put, match_in_open.
      destruct (String.eqb k (url request)) eqn:Ek.
      * intros _. right. right. apply String.eqb_eq in Ek. subst k.
        apply String.eqb_eq. exact Ho.
      * rewrite andb_false_r. simpl. auto.
Qed.

End CrossOrigin.

(** C8. Cache-first never stores the response to a request to another
    origin: [sw.js], whose every request is served cache-first, puts
    nothing in the storage for it when the network obeys the Fetch
    standard, and neither does the listing outside its runtime routes.
    Hence, through any sequence of installs, messages, activations and
    such fetch events, the entries stored under URLs of other origins
    are entries of the precache manifest, when they were at the start. *)
Theorem cross_origin_only_precached
    (location_origin : string) (net : Network) (request : Request) (w : World)
    (i : Instance) (es : list Stimulus) :
  cross_origin location_origin request = true ->
  (standard_response location_origin net request = true ->
     let w' := run (SwJs.on_fetch location_origin net request) w in
     no_put (new_events w w')
     /\ forall n k, match_in n k (caches w') = match_in n k (caches w))
  /\ (SwDoc.runtime_route request = false ->
     let w' := run (SwDoc.on_fetch location_origin net request) w in
     no_put (new_events w w')
     /\ forall n k, match_in n k (caches w') = match_in n k (caches w))
  /\ (forallb (standard_stimulus location_origin) es = true ->
     foreign_precached location_origin (swjs_precache location_origin)
       (caches (world i)) ->
     foreign_precached location_origin (swjs_precache location_origin)
       (caches (world (steps (sw_js location_origin) i es))))
  /\ (forallb cache_first_stimulus es = true ->
     foreign_precached location_origin (swdoc_precache location_origin)
       (caches (world i)) ->
     foreign_precached location_origin (swdoc_precache location_origin)
       (caches (world (steps (sw_doc location_origin) i es)))).
Proof.
  intros Hx. split; [|split; [|split]].
  - intros Hstd. apply swjs_cross_origin_not_stored; assumption.
  - intros Hroute. apply swdoc_cross_origin_not_stored; assumption.
  - revert i. induction es as [|e es IH]; intros i Hall Hinv; [exact Hinv|].
    simpl in Hall. apply andb_true_iff in Hall. destruct Hall as [He Hes].
    apply IH; [exact Hes|]. apply swjs_step_keeps; assumption.
  - revert i. induction es as [|e es IH]; intros i Hall Hinv; [exact Hinv|].
    simpl in Hall. apply andb_true_iff in Hall. destruct Hall as [He Hes].
    apply IH; [exact Hes|]. apply swdoc_step_keeps; assumption.
Qed.

(** ** The theorems above at work on the example deployment *)

Lemma swr_cold_cache_witness :
  SwDoc.runtime_route bible_request = true
  /\ match_in SwDoc.CACHE_NAME (url bible_request) (caches fresh) = None
  /\ received (new_events fresh
                 (run (SwDoc.on_fetch example_origin online bible_request) fresh))
     = Some (mkResponse 200 type_basic
               "content of https://bible.example/bibles/WEB/John.json")
  /\ received (new_events fresh
                 (run (SwDoc.on_fetch example_origin offline bible_request) fresh))
     = None.
Proof.
  split; [reflexivity|]. split; [reflexivity|].
  split.
  - destruct (swr_cold_cache example_origin online bible_request fresh eq_refl eq_refl)
      as [H _].
    destruct (H _ eq_refl eq_refl) as (_ & H2 & _). exact H2.
  - destruct (swr_cold_cache example_origin offline bible_request fresh eq_refl eq_refl)
      as [_ H].
    destruct (H eq_refl) as (_ & H2 & _). exact H2.
Defined.

Lemma cache_first_offline_witness :
  offline about_request = NetFail
  /\ match_any (url about_request) (caches installed) = None
  /\ SwDoc.runtime_route about_request = false
  /\ new_events installed (run (SwJs.on_fetch example_origin offline about_request) installed)
     = [EvFetch about_request; EvSettle about_request NetFail;
        EvRespond (VResponse shell)]
  /\ new_events installed (run (SwDoc.on_fetch example_origin offline about_request) installed)
     = [EvFetch about_request; EvSettle about_request NetFail;
        EvRespond (VResponse shell)].
Proof.
  split; [reflexivity|]. split; [reflexivity|]. split; [reflexivity|].
  destruct (cache_first_offline example_origin offline about_request installed
              eq_refl eq_refl) as ([H1 _] & H2 & _).
  split; [exact H1 | exact (proj1 (H2 eq_refl))].
Defined.

Lemma cross_origin_only_precached_witness :
  cross_origin example_origin cdn_request = true
  /\ standard_response example_origin online cdn_request = true
  /\ SwDoc.runtime_route cdn_request = false
  /\ no_put (new_events fresh (run (SwJs.on_fetch example_origin online cdn_request) fresh))
  /\ no_put (new_events fresh (run (SwDoc.on_fetch example_origin online cdn_request) fresh))
  /\ foreign_precached example_origin (swjs_precache example_origin)
       (caches (world (steps (sw_js example_origin) update
                         [DoInstall online; DoActivate; Fetch online cdn_request])))
  /\ foreign_precached example_origin (swdoc_precache example_origin)
       (caches (world (steps (sw_doc example_origin) update
                         [DoInstall online; PagesClosed; DoActivate;
                          Fetch online cdn_request]))).
Proof.
  split; [reflexivity|]. split; [reflexivity|]. split; [reflexivity|].
  split; [|split; [|split]].
  - destruct (cross_origin_only_precached example_origin online cdn_request fresh update []
                eq_refl) as (H & _).
    exact (proj1 (H eq_refl)).
  - destruct (cross_origin_only_precached example_origin online cdn_request fresh update []
                eq_refl) as (_ & H & _).
    exact (proj1 (H eq_refl)).
  - destruct (cross_origin_only_precached example_origin online cdn_request fresh update
                [DoInstall online; DoActivate; Fetch online cdn_request]
                eq_refl) as (_ & _ & H & _).
    apply H; [reflexivity|]. intros n k r Hm. discriminate Hm.
  - destruct (cross_origin_only_precached example_origin online cdn_request fresh update
                [DoInstall online; PagesClosed; DoActivate; Fetch online cdn_request]
                eq_refl) as (_ & _ & _ & H).
    apply H; [reflexivity|]. intros n k r Hm. discriminate Hm.
Defined.

(** ** The validator *)


Section ValidatorFacts.

Lemma never_throws_ret {A} (a : A) : never_throws (vret a).
Proof. intros acc. exists a, acc. reflexivity. Qed.

Lemma never_throws_push_error m : never_throws (push_error m).
Proof. intros acc. eexists _, _. reflexivity. Qed.

Lemma never_throws_push_warning m : never_throws (push_warning m).
Proof. intros acc. eexists _, _. reflexivity. Qed.

Lemma never_throws_bind {A B} (m : V A) (k : A -> V B) :
  never_throws m -> (forall a, never_throws (k a)) -> never_throws (vbind m k).
Proof.
  intros Hm Hk acc. unfold vbind. destruct (Hm acc) as (a & acc' & ->). apply Hk.
Qed.

Lemma never_throws_catch {A} (m : V A) (h : Exn -> V A) :
  (forall e, never_throws (h e)) -> never_throws (try_catch m h).
Proof.
  intros Hh acc. unfold try_catch. destruct (m acc) as [[e|a] acc'].
  - apply Hh.
  - exists a, acc'. reflexivity.
Qed.

Lemma never_throws_for_of {A} (xs : list A) (body : A -> V unit) :
  (forall x, never_throws (body x)) -> never_throws (for_of xs body).
Proof.
  intros Hb. induction xs as [|x rest IH]; simpl.
  - apply never_throws_ret.
  - apply never_throws_bind; [apply Hb | intros _; exact IH].
Qed.

Lemma validateXrefs_never_throws fs bibleData :
  never_throws (validateXrefs fs bibleData).
Proof. apply never_throws_catch. intros e. apply never_throws_push_warning. Qed.

Lemma validateCommentary_never_throws fs : never_throws (validateCommentary fs).
Proof. apply never_throws_catch. intros e. apply never_throws_push_warning. Qed.

(** [validateBibleFiles] throws exactly what the first [readdir]
    throws, before anything is pushed. *)
Lemma validateBibleFiles_outcome fs acc :
  match readdir fs ["bibles"] with
  | inl e => validateBibleFiles fs acc = (inl e, acc)
  | inr _ => exists acc', validateBibleFiles fs acc = (inr tt, acc')
  end.
Proof.
  unfold validateBibleFiles. cbv zeta.
  destruct (readdir fs ["bibles"]) as [e|translations]; [reflexivity|].
  change (vbind (lift (inr translations)) ?k acc) with (k translations acc).
  cbv beta.
  match goal with
  | |- exists acc', for_of ?xs ?body acc = _ =>
      assert (never_throws (for_of xs body)) as H
  end.
  { apply never_throws_for_of. intros t. apply never_throws_catch.
    intros _. apply never_throws_ret. }
  destruct (H acc) as ([] & acc' & ->). eauto.
Qed.

Lemma vbind_run {A B} (m : V A) (k : A -> V B) acc :
  vbind m k acc =
  match m acc with
  | (inr a, acc') => k a acc'
  | (inl e, acc') => (inl e, acc')
  end.
Proof. reflexivity. Qed.

Lemma validation_outcome fs acc :
  match readdir fs ["bibles"] with
  | inl e => validation fs acc = (inl e, acc)
  | inr _ => exists acc', validation fs acc = (inr tt, acc')
  end.
Proof.
  unfold validation. rewrite vbind_run.
  pose proof (validateBibleFiles_outcome fs acc) as H.
  destruct (readdir fs ["bibles"]) as [e|translations].
  - rewrite H. reflexivity.
  - destruct H as [acc1 ->]. cbv zeta. rewrite vbind_run.
    destruct (validateXrefs_never_throws fs (loadAllBibleData fs) acc1)
      as ([] & acc2 & ->).
    destruct (validateCommentary_never_throws fs acc2) as ([] & acc3 & ->).
    exists acc3. reflexivity.
Qed.

(** How [main] ends, from the outcome of the first [readdir]. *)
Lemma main_outcome fs :
  match readdir fs ["bibles"] with
  | inl e =>
      main fs = mkExit 1%Z None (Some e) (mkAcc [] [])
  | inr _ =>
      exists acc,
        main fs = mkExit (if nonempty (errors acc) then 1 else 0)%Z
                         (Some (printSummary acc)) None acc
  end.
Proof.
  unfold main. pose proof (validation_outcome fs (mkAcc [] [])) as H.
  destruct (readdir fs ["bibles"]) as [e|translations].
  - rewrite H. reflexivity.
  - destruct H as [acc ->]. exists acc. reflexivity.
Qed.

End ValidatorFacts.

(** *** What the validator reads *)

Section Scanned.

Lemma entry_map (f : string -> Node -> Node) name entries :
  entry name (map (fun p => (fst p, f (fst p) (snd p))) entries) =
  option_map (f name) (entry name entries).
Proof.
  induction entries as [|[n c] rest IH]; simpl; [reflexivity|].
  destruct (String.eqb n name) eqn:E; [|exact IH].
  apply String.eqb_eq in E. subst n. reflexivity.
Qed.

Lemma find_scanned_top fs d :
  find (scanned fs) [d] =
  option_map (truncate (if String.eqb d "bibles" then 2 else 1)) (find fs [d]).
Proof.
  destruct fs as [parsed|entries]; simpl; [reflexivity|].
  rewrite (entry_map (fun n c => truncate (if String.eqb n "bibles" then 2 else 1) c)).
  destruct (entry d entries); reflexivity.
Qed.

Lemma readdir_truncate depth n :
  match truncate (S depth) n with
  | Dir entries => inr (map fst entries)
  | File _ => inl ENOTDIR
  end =
  match n with
  | Dir entries => inr (map fst entries)
  | File _ => inl ENOTDIR
  end :> Exn + list string.
Proof.
  destruct n as [parsed|entries]; simpl; [reflexivity|].
  rewrite map_map. reflexivity.
Qed.

Lemma readFile_truncate depth n :
  match truncate depth n with
  | File parsed => inr parsed
  | Dir _ => inl EISDIR
  end =
  match n with
  | File parsed => inr parsed
  | Dir _ => inl EISDIR
  end :> Exn + option JSON.
Proof. destruct n as [parsed|entries]; destruct depth; reflexivity. Qed.

Lemma readdir_scanned_top fs d :
  readdir (scanned fs) [d] = readdir fs [d].
Proof.
  unfold readdir. rewrite find_scanned_top.
  destruct (find fs [d]) as [n|]; simpl; [|reflexivity].
  destruct (String.eqb d "bibles"); apply readdir_truncate.
Qed.

Lemma find_truncate_child depth n name :
  find (truncate (S depth) n) [name] = option_map (truncate depth) (find n [name]).
Proof.
  destruct n as [parsed|entries]; simpl; [reflexivity|].
  rewrite (entry_map (fun _ c => truncate depth c)).
  destruct (entry name entries); reflexivity.
Qed.

Lemma find_cons root name p :
  find root (name :: p) =
  match find root [name] with
  | Some child => find child p
  | None => None
  end.
Proof.
  simpl. destruct root as [parsed|entries]; [reflexivity|].
  destruct (entry name entries); reflexivity.
Qed.

Lemma readFile_scanned_top fs d file :
  readFile (scanned fs) [d; file] = readFile fs [d; file].
Proof.
  unfold readFile. rewrite (find_cons (scanned fs)), (find_cons fs), find_scanned_top.
  destruct (find fs [d]) as [n|]; unfold option_map; cbv iota; [|reflexivity].
  destruct (String.eqb d "bibles"); rewrite find_truncate_child;
    destruct (find n [file]) as [[?|?]|]; reflexivity.
Qed.

Lemma readdir_scanned_bibles fs t :
  readdir (scanned fs) ["bibles"; t] = readdir fs ["bibles"; t].
Proof.
  unfold readdir. rewrite (find_cons (scanned fs)), (find_cons fs), find_scanned_top.
  destruct (find fs ["bibles"]) as [n|]; unfold option_map; cbv iota; [|reflexivity].
  change (String.eqb "bibles" "bibles") with true. cbv iota.
  rewrite find_truncate_child.
  destruct (find n [t]) as [[?|?]|]; simpl; rewrite ?map_map; reflexivity.
Qed.

Lemma readFile_scanned_bibles fs t file :
  readFile (scanned fs) ["bibles"; t; file] = readFile fs ["bibles"; t; file].
Proof.
  unfold readFile. rewrite (find_cons (scanned fs)), (find_cons fs), find_scanned_top.
  destruct (find fs ["bibles"]) as [n|]; unfold option_map; cbv iota; [|reflexivity].
  change (String.eqb "bibles" "bibles") with true. cbv iota.
  rewrite (find_cons (truncate 2 n)), (find_cons n), find_truncate_child.
  destruct (find n [t]) as [c|]; unfold option_map; cbv iota; [|reflexivity].
  rewrite find_truncate_child.
  destruct (find c [file]) as [[?|?]|]; reflexivity.
Qed.

Lemma same_run_bind {A B} (m m' : V A) (k k' : A -> V B) :
  same_run m m' -> (forall a, same_run (k a) (k' a)) ->
  same_run (vbind m k) (vbind m' k').
Proof.
  intros Hm Hk acc. unfold vbind. rewrite Hm.
  destruct (m' acc) as [[e|a] acc']; [reflexivity | apply Hk].
Qed.

Lemma same_run_catch {A} (m m' : V A) (h : Exn -> V A) :
  same_run m m' -> same_run (try_catch m h) (try_catch m' h).
Proof. intros Hm acc. unfold try_catch. rewrite Hm. reflexivity. Qed.

Lemma same_run_for_of {A} (xs : list A) (f g : A -> V unit) :
  (forall x, same_run (f x) (g x)) -> same_run (for_of xs f) (for_of xs g).
Proof.
  intros H. induction xs as [|x rest IH]; simpl; [intros acc; reflexivity|].
  apply same_run_bind; [apply H | intros _; exact IH].
Qed.

Lemma fold_left_same {A B} (f g : A -> B -> A) (l : list B) (a : A) :
  (forall a b, f a b = g a b) -> fold_left f l a = fold_left g l a.
Proof.
  intros H. revert a. induction l as [|b rest IH]; intros a; simpl; [reflexivity|].
  rewrite H. apply IH.
Qed.

Lemma validateBibleFiles_scanned fs :
  same_run (validateBibleFiles (scanned fs)) (validateBibleFiles fs).
Proof.
  unfold validateBibleFiles. cbv zeta. rewrite readdir_scanned_top.
  apply same_run_bind; [intros acc; reflexivity|]. intros translations.
  apply same_run_for_of. intros t. apply same_run_catch.
  change (["bibles"] ++ [t]) with ["bibles"; t]. rewrite readdir_scanned_bibles.
  apply same_run_bind; [intros acc; reflexivity|]. intros files.
  apply same_run_for_of. intros file acc.
  destruct (negb (JsString.endsWith file ".json")); [reflexivity|].
  change (["bibles"; t] ++ [file]) with ["bibles"; t; file].
  unfold check_bible_file. rewrite readFile_scanned_bibles. reflexivity.
Qed.

Lemma loadAllBibleData_scanned fs :
  loadAllBibleData (scanned fs) = loadAllBibleData fs.
Proof.
  unfold loadAllBibleData. rewrite readdir_scanned_top.
  destruct (readdir fs ["bibles"]) as [e|translations]; [reflexivity|].
  apply fold_left_same. intros bibleData t.
  unfold load_translation. cbv zeta. rewrite readdir_scanned_bibles.
  destruct (readdir fs ["bibles"; t]) as [e|files]; [reflexivity|].
  apply fold_left_same. intros bd file.
  unfold load_file. change (["bibles"; t] ++ [file]) with ["bibles"; t; file].
  rewrite readFile_scanned_bibles. reflexivity.
Qed.

Lemma validateXrefs_scanned fs bibleData :
  same_run (validateXrefs (scanned fs) bibleData) (validateXrefs fs bibleData).
Proof.
  unfold validateXrefs. cbv zeta. rewrite readdir_scanned_top.
  apply same_run_catch. apply same_run_bind; [intros acc; reflexivity|].
  intros files. apply same_run_for_of. intros file acc.
  destruct (negb (JsString.endsWith file ".json")); [reflexivity|].
  change (["xrefs"] ++ [file]) with ["xrefs"; file].
  unfold check_xref_file. rewrite readFile_scanned_top. reflexivity.
Qed.

Lemma validateCommentary_scanned fs :
  same_run (validateCommentary (scanned fs)) (validateCommentary fs).
Proof.
  unfold validateCommentary. cbv zeta. rewrite readdir_scanned_top.
  apply same_run_catch. apply same_run_bind; [intros acc; reflexivity|].
  intros files. apply same_run_for_of. intros file acc.
  destruct (negb (JsString.endsWith file ".json")); [reflexivity|].
  change (["theology"] ++ [file]) with ["theology"; file].
  unfold check_commentary_file. rewrite readFile_scanned_top. reflexivity.
Qed.

(** The run depends on the scanned part of the tree only. *)
Lemma main_scanned fs : main (scanned fs) = main fs.
Proof.
  unfold main.
  assert (same_run (validation (scanned fs)) (validation fs)) as H.
  { unfold validation. cbv zeta. rewrite loadAllBibleData_scanned.
    apply same_run_bind; [apply validateBibleFiles_scanned|]. intros _.
    apply same_run_bind; [apply validateXrefs_scanned|]. intros _.
    apply validateCommentary_scanned. }
  rewrite H. reflexivity.
Qed.

End Scanned.

(** *** References that cannot be parsed *)

Lemma check_refs_unparseable bibleData filePath key refs acc :
  Forall (fun s => parseReference s = None) refs ->
  for_of (map JStr refs) (check_ref bibleData filePath key) acc =
  (inr tt, mkAcc (errors acc) (warnings acc ++ map (CouldNotParse filePath) refs)).
Proof.
  intros H. revert acc. induction H as [|s rest Hs _ IH]; intros [errs warns]; simpl.
  - rewrite app_nil_r. reflexivity.
  - rewrite vbind_run. simpl. rewrite Hs. simpl. rewrite IH. simpl.
    rewrite <- app_assoc. reflexivity.
Qed.

Lemma xref_tree_file acc refs bibleData :
  Forall (fun s' => parseReference s' = None) refs ->
  check_xref_file (xref_tree refs) bibleData ["xrefs"; "John.json"] acc =
  (inr tt, mkAcc (errors acc)
             (warnings acc ++ map (CouldNotParse ["xrefs"; "John.json"]) refs)).
Proof.
  intros Hrefs. unfold check_xref_file, try_catch. rewrite vbind_run.
  change (readFile (xref_tree refs) ["xrefs"; "John.json"])
    with (@inr Exn _ (Some (JObj [("3:16", JArr (map JStr refs))]))).
  unfold lift at 1. cbv iota beta. rewrite vbind_run.
  unfold JSON_parse, lift at 1. cbv iota beta. rewrite vbind_run.
  unfold prop at 1. unfold lift at 1. cbv iota beta. rewrite vbind_run.
  unfold prop at 1. unfold lift at 1. cbv iota beta.
  change (Js.get (JObj [("3:16", JArr (map JStr refs))]) "reference") with (@None JSON).
  change (Js.get (JObj [("3:16", JArr (map JStr refs))]) "crossReferences") with (@None JSON).
  change (Js.truthy_opt None && Js.truthy_opt None) with false.
  change (negb (Js.typeof_object (JObj [("3:16", JArr (map JStr refs))]))
          || Js.isArray (JObj [("3:16", JArr (map JStr refs))])) with false.
  cbv iota. rewrite vbind_run.
  unfold Object_entries, lift at 1. cbv iota beta.
  simpl for_of. rewrite !vbind_run.
  change (chapter_verse_key "3:16") with true.
  unfold vret at 1. cbv iota beta.
  rewrite (check_refs_unparseable _ _ _ _ _ Hrefs). reflexivity.
Qed.

Lemma xref_tree_run refs :
  Forall (fun s' => parseReference s' = None) refs ->
  validation (xref_tree refs) (mkAcc [] []) =
  (inr tt, mkAcc [] (map (CouldNotParse ["xrefs"; "John.json"]) refs)).
Proof.
  intros Hrefs. unfold validation. rewrite vbind_run.
  change (validateBibleFiles (xref_tree refs) (mkAcc [] []))
    with (@inr Exn unit tt, mkAcc [] []).
  cbv iota beta zeta. rewrite vbind_run.
  assert (validateXrefs (xref_tree refs) (loadAllBibleData (xref_tree refs)) (mkAcc [] []) =
          (inr tt, mkAcc [] (map (CouldNotParse ["xrefs"; "John.json"]) refs))) as ->.
  { unfold validateXrefs, try_catch. cbv zeta. rewrite vbind_run.
    change (readdir (xref_tree refs) ["xrefs"]) with (@inr Exn _ ["John.json"]).
    unfold lift at 1. cbv iota beta. simpl for_of. rewrite vbind_run.
    change (negb (JsString.endsWith "John.json" ".json")) with false. cbv iota.
    change (["xrefs"] ++ ["John.json"]) with ["xrefs"; "John.json"].
    rewrite (xref_tree_file _ _ _ Hrefs). reflexivity. }
  reflexivity.
Qed.

(** C10. A cross-reference string that [parseReference] rejects adds
    one warning and no error, and the loop goes on.  So a run whose
    only findings are such strings ends with code 0: on a tree whose
    cross-reference file lists nothing else, no error is accumulated,
    each string is a warning, and the exit code is 0. *)
Theorem unparseable_reference_warns
    (bibleData : gmap string JSON) (filePath : Path) (key s : string) (acc : Acc)
    (refs : list string) :
  parseReference s = None ->
  Forall (fun s' => parseReference s' = None) refs ->
  check_ref bibleData filePath key (JStr s) acc =
    (inr tt, mkAcc (errors acc) (warnings acc ++ [CouldNotParse filePath s]))
  /\ main (xref_tree refs) =
       mkExit 0%Z
         (Some (mkReport [] (map (CouldNotParse ["xrefs"; "John.json"]) refs)
                         (negb (nonempty refs))))
         None
         (mkAcc [] (map (CouldNotParse ["xrefs"; "John.json"]) refs)).
Proof.
  intros Hs Hrefs. split.
  - simpl. rewrite Hs. reflexivity.
  - unfold main. rewrite (xref_tree_run refs Hrefs). unfold printSummary. simpl.
    destruct refs; reflexivity.
Qed.

Lemma unparseable_reference_warns_witness :
  parseReference "John three sixteen" = None
  /\ Forall (fun s' => parseReference s' = None) ["see John"; "Gen 1"]
  /\ exit_code (main (xref_tree ["see John"; "Gen 1"])) = 0%Z
  /\ warnings (final (main (xref_tree ["see John"; "Gen 1"]))) =
       [CouldNotParse ["xrefs"; "John.json"] "see John";
        CouldNotParse ["xrefs"; "John.json"] "Gen 1"].
Proof.
  assert (Forall (fun s' => parseReference s' = None) ["see John"; "Gen 1"]) as H.
  { repeat constructor. }
  split; [reflexivity|]. split; [exact H|].
  destruct (unparseable_reference_warns ∅ ["xrefs"; "John.json"] "3:16"
              "John three sixteen" (mkAcc [] []) ["see John"; "Gen 1"] eq_refl H)
    as [_ ->].
  split; reflexivity.
Defined.

(** * Further properties of the workers *)

(** ** What a successful install leaves in the store *)

Section PrecacheComplete.

Variable net : Network.

Lemma precache_fetch_entries urls entries :
  precache_fetch net urls = Some entries ->
  forall u r, In (u, r) entries ->
    net (mkRequest u "") = NetOk r /\ addAll_accepts r = true.
Proof.
  revert entries. induction urls as [|u0 rest IH]; simpl; intros entries H u r Hin.
  - injection H as <-. contradiction.
  - destruct (net (mkRequest u0 "")) as [r0|] eqn:Hnet; [|discriminate].
    destruct (addAll_accepts r0) eqn:Hok; [|discriminate].
    destruct (precache_fetch net rest) as [es|]; [|discriminate].
    injection H as <-. destruct Hin as [[= <- <-] | Hin]; [auto|].
    exact (IH es eq_refl u r Hin).
Qed.

Lemma has_cache_put name name' key r cs :
  has_cache name (put name' key r cs) = has_cache name cs.
Proof.
  unfold has_cache, put. induction cs as [|[n c] rest IH]; simpl; [reflexivity|].
  destruct (String.eqb n name'); simpl; rewrite IH; reflexivity.
Qed.

(** Putting a batch fetched from one network: every entry of the batch
    is found afterwards, and so is every entry of the network that was
    there before. *)
Lemma run_put_all_found name entries : forall w,
  has_cache name (caches w) = true ->
  (forall u r, In (u, r) entries -> net (mkRequest u "") = NetOk r) ->
  forall u r, net (mkRequest u "") = NetOk r ->
    (In (u, r) entries \/ match_in name u (caches w) = Some r) ->
    match_in name u
      (caches (run (for_each (fun e => cache_put name (fst e) (snd e)) entries) w))
    = Some r.
Proof.
  induction entries as [|[u0 r0] rest IH]; intros w Hhas Hall u r Hnet Hcase.
  - destruct Hcase as [[] | H]. exact H.
  - simpl for_each. rewrite run_bind. apply IH.
    + task_unfold. simpl. rewrite has_cache_put. exact Hhas.
    + intros u' r' Hin. apply Hall. right. exact Hin.
    + exact Hnet.
    + task_unfold. simpl. rewrite match_in_put, String.eqb_refl, Hhas. simpl.
      destruct Hcase as [[[= <- <-] | Hin] | Hm].
      * right. rewrite String.eqb_refl. reflexivity.
      * left. exact Hin.
      * right. destruct (String.eqb u u0) eqn:E; simpl; [|exact Hm].
        apply String.eqb_eq in E. subst u0.
        specialize (Hall u r0 (or_introl eq_refl)). congruence.
Qed.

Lemma addAll_stores name urls w :
  has_cache name (caches w) = true ->
  precache_fetch net urls <> None ->
  forall u, In u urls ->
    exists r, net (mkRequest u "") = NetOk r /\ addAll_accepts r = true
      /\ match_in name u (caches (run (cache_addAll net name urls) w)) = Some r.
Proof.
  intros Hhas Hsome u Hin. unfold cache_addAll.
  destruct (precache_fetch net urls) as [entries|] eqn:E; [|contradiction].
  pose proof (precache_fetch_keys net urls entries E) as Hkeys.
  pose proof (precache_fetch_entries urls entries E) as Hent.
  assert (exists r, In (u, r) entries) as [r Hr].
  { rewrite <- Hkeys in Hin. apply in_map_iff in Hin.
    destruct Hin as [[u' r] [Hu Hin]]. simpl in Hu. subst u'. eauto. }
  exists r. destruct (Hent u r Hr) as [Hnet Hok]. split; [exact Hnet|]. split; [exact Hok|].
  rewrite !run_bind, run_fetch_start_all.
  change (run (ret Fulfilled) ?w0) with w0.
  apply run_put_all_found; simpl; auto.
  intros u' r' Hin'. exact (proj1 (Hent u' r' Hin')).
Qed.

End PrecacheComplete.

(** X1.  After an install whose batch succeeded, every URL of the
    precache manifest is found in the worker's own store, with the
    response the network gave for it, whose status [cache.addAll]
    accepted.  For [sw.js] the batch succeeded when the install promise
    fulfilled; the listing's promise tells nothing, so there the batch
    is asked. *)
Theorem precache_complete (location_origin : string) (net : Network) (w : World) :
  (result (SwJs.install location_origin net) w = Fulfilled ->
   forall u, In u (swjs_precache location_origin) ->
     exists r, net (mkRequest u "") = NetOk r /\ addAll_accepts r = true
       /\ match_in SwJs.CACHE_NAME u
            (caches (run (SwJs.install location_origin net) w)) = Some r)
  /\ (precache_fetch net (swdoc_precache location_origin) <> None ->
      forall u, In u (swdoc_precache location_origin) ->
        exists r, net (mkRequest u "") = NetOk r /\ addAll_accepts r = true
          /\ match_in SwDoc.CACHE_NAME u
               (caches (run (SwDoc.install location_origin net) w)) = Some r).
Proof.
  split.
  - intros Hok u Hin.
    assert (precache_fetch net (swjs_precache location_origin) <> None) as Hsome.
    { intros Hnone.
      destruct (swjs_install_spec location_origin net w) as (H & _).
      destruct (H Hnone) as (Hr & _). congruence. }
    destruct (addAll_stores net SwJs.CACHE_NAME (swjs_precache location_origin)
                (run (caches_open SwJs.CACHE_NAME) w)
                (has_cache_open _ _) Hsome u Hin) as (r & Hnet & Hacc & Hm).
    exists r. split; [exact Hnet|]. split; [exact Hacc|].
    unfold SwJs.install. fold (swjs_precache location_origin).
    rewrite !run_bind, ?result_bind.
    destruct (run_addAll net SwJs.CACHE_NAME (swjs_precache location_origin)
                (run (caches_open SwJs.CACHE_NAME) w)) as (_ & _ & _ & Hiff).
    destruct (result (cache_addAll net SwJs.CACHE_NAME (swjs_precache location_origin))
                (run (caches_open SwJs.CACHE_NAME) w)) eqn:E.
    + rewrite run_bind. task_unfold. simpl. exact Hm.
    + exfalso. apply Hsome. apply Hiff. reflexivity.
  - intros Hsome u Hin.
    destruct (addAll_stores net SwDoc.CACHE_NAME (swdoc_precache location_origin)
                (run (caches_open SwDoc.CACHE_NAME) w)
                (has_cache_open _ _) Hsome u Hin) as (r & Hnet & Hacc & Hm).
    exists r. split; [exact Hnet|]. split; [exact Hacc|].
    unfold SwDoc.install. fold (swdoc_precache location_origin).
    rewrite !run_bind, ?result_bind.
    destruct (result (cache_addAll net SwDoc.CACHE_NAME (swdoc_precache location_origin))
                (run (caches_open SwDoc.CACHE_NAME) w)); task_unfold; simpl; exact Hm.
Qed.

Lemma precache_complete_witness :
  result (SwJs.install example_origin online) fresh = Fulfilled
  /\ precache_fetch online (swdoc_precache example_origin) <> None
  /\ In "https://cdn.tailwindcss.com/" (swjs_precache example_origin)
  /\ (exists r, online (mkRequest "https://cdn.tailwindcss.com/" "") = NetOk r
        /\ addAll_accepts r = true
        /\ match_in SwJs.CACHE_NAME "https://cdn.tailwindcss.com/"
             (caches (run (SwJs.install example_origin online) fresh)) = Some r)
  /\ (exists r, online (mkRequest "https://bible.example/xrefs/John.json" "") = NetOk r
        /\ addAll_accepts r = true
        /\ match_in SwDoc.CACHE_NAME "https://bible.example/xrefs/John.json"
             (caches (run (SwDoc.install example_origin online) fresh)) = Some r).
Proof.
  assert (precache_fetch online (swdoc_precache example_origin) <> None) as H
    by (vm_compute; discriminate).
  split; [reflexivity|]. split; [exact H|].
  assert (In "https://cdn.tailwindcss.com/" (swjs_precache example_origin)) as Hin
    by (vm_compute; tauto).
  split; [exact Hin|]. split.
  - exact (proj1 (precache_complete example_origin online fresh) eq_refl _ Hin).
  - apply (proj2 (precache_complete example_origin online fresh) H).
    vm_compute. tauto.
Defined.

(** ** The sweep of the listing's [activate] listener *)

(** The world after the [activate] listener of the listing. *)
Lemma swdoc_activate_run (w : World) :
  run SwDoc.activate w =
    mkWorld (List.filter (fun p => negb (stale_versioned (fst p))) (caches w))
            (skip_waiting w)
            (log w ++ map EvDelete (List.filter stale_versioned (keys (caches w)))
                   ++ [EvClaim])
  /\ result SwDoc.activate w = Fulfilled.
Proof.
  unfold SwDoc.activate. rewrite !run_bind, !result_bind.
  change (run caches_keys w) with w.
  change (result caches_keys w) with (keys (caches w)).
  change (List.filter _ (keys (caches w)))
    with (List.filter stale_versioned (keys (caches w))).
  rewrite run_delete_all. task_unfold. simpl.
  rewrite (doomed_member stale_versioned), <- app_assoc. auto.
Qed.

(** X2.  The [activate] listener of the listing deletes, in the order of
    [caches.keys()], the stores whose name starts with [bible-study-]
    and is not the current name, and nothing else: a lookup of such a
    name finds no store afterwards, every other store is found as it
    was.  The listener claims the clients after the last deletion,
    leaves the skip-waiting flag alone and fulfils the promise given to
    [waitUntil]. *)
Theorem swdoc_activate_sweep (w : World) :
  let w' := run SwDoc.activate w in
  (forall name,
     lookup_cache name (caches w') =
     if stale_versioned name then None else lookup_cache name (caches w))
  /\ new_events w w' =
     map EvDelete (List.filter stale_versioned (keys (caches w))) ++ [EvClaim]
  /\ skip_waiting w' = skip_waiting w
  /\ result SwDoc.activate w = Fulfilled.
Proof.
  cbv zeta. destruct (swdoc_activate_run w) as [-> Hres]. cbn [caches skip_waiting].
  split; [|split; [|split]].
  - intros name.
    rewrite (lookup_cache_filter (fun n => negb (stale_versioned n)) name (caches w)).
    destruct (stale_versioned name); reflexivity.
  - unfold new_events. cbn [log]. apply drop_app_length.
  - reflexivity.
  - exact Hres.
Qed.

(** ** Cache-first: a miss that is stored is a hit the next time *)

Section RoundTrip.

Variable location_origin : string.

Lemma match_any_put_open name key r cs :
  match_any key cs = None ->
  match_any key (put name key r (open name cs)) = Some r.
Proof.
  intros Hmiss. unfold open. destruct (has_cache name cs) eqn:Hhas.
  - unfold put. induction cs as [|[n c] rest IH]; simpl in *; [discriminate|].
    destruct (c !! key) eqn:Hc; [discriminate|].
    destruct (String.eqb n name) eqn:E; simpl.
    + rewrite lookup_insert_eq. reflexivity.
    + rewrite Hc. apply IH; assumption.
  - unfold put. clear Hhas. induction cs as [|[n c] rest IH]; simpl in *.
    + rewrite String.eqb_refl. simpl. rewrite lookup_insert_eq. reflexivity.
    + destruct (c !! key) eqn:Hc; [discriminate|].
      destruct (String.eqb n name) eqn:E; simpl.
      * rewrite lookup_insert_eq. reflexivity.
      * rewrite Hc. apply IH. exact Hmiss.
Qed.

(** A hit is answered from the cache: no fetch, no write. *)
Lemma swjs_hit net request w r :
  match_any (url request) (caches w) = Some r ->
  run (SwJs.on_fetch location_origin net request) w =
  mkWorld (caches w) (skip_waiting w) (log w ++ [EvRespond (VResponse r)]).
Proof. intros H. unfold SwJs.on_fetch. task_unfold. simpl. rewrite H. reflexivity. Qed.

Lemma swdoc_hit net request w r :
  SwDoc.runtime_route request = false ->
  match_any (url request) (caches w) = Some r ->
  run (SwDoc.on_fetch location_origin net request) w =
  mkWorld (caches w) (skip_waiting w) (log w ++ [EvRespond (VResponse r)]).
Proof.
  intros Hr H. unfold SwDoc.on_fetch. task_unfold. simpl. rewrite Hr, H. reflexivity.
Qed.

(** X3.  Cache-first, in [sw.js] and in the listing outside its runtime
    routes: when nothing is cached for the request and the network
    gives a response the handler stores, the page receives that
    response, and the next event for the same request is answered with
    it from the cache, without a fetch, whatever the network then is. *)
Theorem cache_first_round_trip
    (net net' : Network) (request : Request) (w : World) (r : Response) :
  match_any (url request) (caches w) = None ->
  net request = NetOk r ->
  (swjs_storable location_origin request r = true ->
   let w1 := run (SwJs.on_fetch location_origin net request) w in
   received (new_events w w1) = Some r
   /\ new_events w1 (run (SwJs.on_fetch location_origin net' request) w1)
      = [EvRespond (VResponse r)])
  /\ (SwDoc.runtime_route request = false ->
      swdoc_storable location_origin request r = true ->
      let w1 := run (SwDoc.on_fetch location_origin net request) w in
      received (new_events w w1) = Some r
      /\ new_events w1 (run (SwDoc.on_fetch location_origin net' request) w1)
         = [EvRespond (VResponse r)]).
Proof.
  intros Hmiss Hnet. split.
  - unfold swjs_storable. intros Hst.
    apply andb_true_iff in Hst. destruct Hst as [Hst Hurl].
    apply andb_true_iff in Hst. destruct Hst as [H200 Hbasic].
    cbv zeta.
    assert (run (SwJs.on_fetch location_origin net request) w =
            mkWorld (put SwJs.CACHE_NAME (url request) r (open SwJs.CACHE_NAME (caches w)))
                    (skip_waiting w)
                    (log w ++ [EvFetch request; EvSettle request (NetOk r);
                               EvRespond (VResponse r);
                               EvPut SwJs.CACHE_NAME (url request) r])) as ->.
    { unfold SwJs.on_fetch. task_unfold. simpl. rewrite Hmiss, Hnet. simpl.
      rewrite H200, Hbasic. simpl. rewrite Hurl. simpl.
      rewrite <- !app_assoc. reflexivity. }
    split.
    + unfold new_events. simpl. rewrite drop_app_length. reflexivity.
    + rewrite (swjs_hit net' request _ r) by (apply match_any_put_open; exact Hmiss).
      unfold new_events. cbn [log]. rewrite drop_app_length. reflexivity.
  - unfold swdoc_storable. intros Hroute Hst.
    apply andb_true_iff in Hst. destruct Hst as [H200 Horigin].
    cbv zeta.
    assert (run (SwDoc.on_fetch location_origin net request) w =
            mkWorld (put SwDoc.CACHE_NAME (url request) r (open SwDoc.CACHE_NAME (caches w)))
                    (skip_waiting w)
                    (log w ++ [EvFetch request; EvSettle request (NetOk r);
                               EvRespond (VResponse r);
                               EvPut SwDoc.CACHE_NAME (url request) r])) as ->.
    { unfold SwDoc.on_fetch. task_unfold. simpl. rewrite Hroute, Hmiss, Hnet. simpl.
      rewrite H200, Horigin. simpl. rewrite <- !app_assoc. reflexivity. }
    split.
    + unfold new_events. simpl. rewrite drop_app_length. reflexivity.
    + rewrite (swdoc_hit net' request _ r Hroute)
        by (apply match_any_put_open; exact Hmiss).
      unfold new_events. cbn [log]. rewrite drop_app_length. reflexivity.
Qed.

(** X4.  A response whose status is not 200 is handed to the page as
    it is: on a cache-first miss in [sw.js] and in the listing, and on
    a runtime route of the listing with nothing cached. *)
Theorem other_status_passes_through
    (net : Network) (request : Request) (w : World) (r : Response) :
  net request = NetOk r ->
  status r <> 200%Z ->
  (match_any (url request) (caches w) = None ->
   received (new_events w (run (SwJs.on_fetch location_origin net request) w)) = Some r)
  /\ (SwDoc.runtime_route request = false ->
      match_any (url request) (caches w) = None ->
      received (new_events w (run (SwDoc.on_fetch location_origin net request) w)) = Some r)
  /\ (SwDoc.runtime_route request = true ->
      match_in SwDoc.CACHE_NAME (url request) (caches w) = None ->
      received (new_events w (run (SwDoc.on_fetch location_origin net request) w)) = Some r).
Proof.
  intros Hnet Hst. apply Z.eqb_neq in Hst. split; [|split].
  - intros Hmiss. run_fetch. rewrite Hmiss, Hnet. simpl. rewrite Hst. simpl.
    tidy_log. reflexivity.
  - intros Hroute Hmiss. run_fetch. rewrite Hroute, Hmiss, Hnet. simpl. rewrite Hst. simpl.
    tidy_log. reflexivity.
  - intros Hroute Hmiss. run_fetch. rewrite Hroute, match_in_open, Hmiss. simpl.
    rewrite Hnet. simpl. rewrite Hst. simpl. tidy_log. reflexivity.
Qed.

(** X5.  On a runtime route of the listing, once the network has
    answered a request with status 200, the next event for the same
    request is answered with that response, before the network
    settles and whatever it then gives: the revalidation of one
    request is what the next one is served. *)
Theorem swr_refresh_serves_next
    (net net' : Network) (request : Request) (w : World) (r : Response) :
  SwDoc.runtime_route request = true ->
  net request = NetOk r ->
  status r = 200%Z ->
  let w1 := run (SwDoc.on_fetch location_origin net request) w in
  let evs := new_events w1 (run (SwDoc.on_fetch location_origin net' request) w1) in
  received evs = Some r
  /\ evs = [EvFetch request; EvRespond (VResponse r); EvSettle request (net' request)]
           ++ write_back SwDoc.CACHE_NAME request (net' request).
Proof.
  intros Hroute Hnet H200. cbv zeta.
  assert (match_in SwDoc.CACHE_NAME (url request)
            (caches (run (SwDoc.on_fetch location_origin net request) w)) = Some r) as Hnow.
  { destruct (match_in SwDoc.CACHE_NAME (url request) (caches w)) as [cached|] eqn:E.
    - destruct (swdoc_revalidates_after_answer location_origin net request w cached
                  Hroute E) as (_ & _ & H). exact (H r Hnet H200).
    - destruct (swr_cold_cache location_origin net request w Hroute E) as [H _].
      destruct (H r Hnet H200) as (_ & _ & H'). exact H'. }
  destruct (swdoc_revalidates_after_answer location_origin net' request _ r Hroute Hnow)
    as (H1 & H2 & _).
  split; [exact H2 | exact H1].
Qed.

(** X6.  On a runtime route of the listing with a cached entry, the
    page receives the entry before the network settles, whatever the
    network does; the fetch is issued all the same.  The entry is
    replaced by a response with status 200 and by nothing else: after
    a failed fetch or a response with another status the store still
    holds it. *)
Theorem swr_warm_cache
    (net : Network) (request : Request) (w : World) (cached : Response) :
  SwDoc.runtime_route request = true ->
  match_in SwDoc.CACHE_NAME (url request) (caches w) = Some cached ->
  let w' := run (SwDoc.on_fetch location_origin net request) w in
  received (new_events w w') = Some cached
  /\ new_events w w' =
       [EvFetch request; EvRespond (VResponse cached); EvSettle request (net request)]
       ++ write_back SwDoc.CACHE_NAME request (net request)
  /\ match_in SwDoc.CACHE_NAME (url request) (caches w') =
     Some match net request with
          | NetOk r => if (status r =? 200)%Z then r else cached
          | NetFail => cached
          end.
Proof.
  intros Hroute Hhit. cbv zeta.
  destruct (swdoc_revalidates_after_answer location_origin net request w cached
              Hroute Hhit) as (H1 & H2 & H3).
  split; [exact H2|]. split; [exact H1|].
  destruct (net request) as [r|] eqn:Hnet.
  - destruct (status r =? 200)%Z eqn:Hst.
    + apply Z.eqb_eq in Hst. exact (H3 r eq_refl Hst).
    + clear H1 H2 H3. run_fetch. rewrite Hroute, match_in_open, Hhit. simpl.
      rewrite Hnet. simpl. rewrite Hst. simpl. rewrite match_in_open. exact Hhit.
  - clear H1 H2 H3. run_fetch. rewrite Hroute, match_in_open, Hhit. simpl.
    rewrite Hnet. simpl. rewrite match_in_open. exact Hhit.
Qed.

End RoundTrip.

Lemma cache_first_round_trip_witness :
  match_any (url page_request) (caches fresh) = None
  /\ swjs_storable example_origin page_request
       (mkResponse 200 type_basic "content of https://bible.example/assets/app.js") = true
  /\ SwDoc.runtime_route page_request = false
  /\ new_events (run (SwJs.on_fetch example_origin online page_request) fresh)
       (run (SwJs.on_fetch example_origin offline page_request)
          (run (SwJs.on_fetch example_origin online page_request) fresh))
     = [EvRespond (VResponse
          (mkResponse 200 type_basic "content of https://bible.example/assets/app.js"))]
  /\ new_events (run (SwDoc.on_fetch example_origin online page_request) fresh)
       (run (SwDoc.on_fetch example_origin offline page_request)
          (run (SwDoc.on_fetch example_origin online page_request) fresh))
     = [EvRespond (VResponse
          (mkResponse 200 type_basic "content of https://bible.example/assets/app.js"))].
Proof.
  split; [reflexivity|]. split; [reflexivity|]. split; [reflexivity|].
  destruct (cache_first_round_trip example_origin online offline page_request fresh _
              eq_refl eq_refl) as [H1 H2].
  split.
  - exact (proj2 (H1 eq_refl)).
  - exact (proj2 (H2 eq_refl eq_refl)).
Defined.

Lemma other_status_passes_through_witness :
  not_found page_request = NetOk (mkResponse 404 type_basic "Not Found")
  /\ received (new_events fresh (run (SwJs.on_fetch example_origin not_found page_request) fresh))
     = Some (mkResponse 404 type_basic "Not Found")
  /\ received (new_events fresh (run (SwDoc.on_fetch example_origin not_found page_request) fresh))
     = Some (mkResponse 404 type_basic "Not Found")
  /\ received (new_events fresh (run (SwDoc.on_fetch example_origin not_found bible_request) fresh))
     = Some (mkResponse 404 type_basic "Not Found").
Proof.
  split; [reflexivity|].
  assert (status (mkResponse 404 type_basic "Not Found") <> 200%Z) as Hst
    by (simpl; lia).
  split; [|split].
  - exact (proj1 (other_status_passes_through example_origin not_found page_request fresh _
                    eq_refl Hst) eq_refl).
  - exact (proj1 (proj2 (other_status_passes_through example_origin not_found page_request
                           fresh _ eq_refl Hst)) eq_refl eq_refl).
  - exact (proj2 (proj2 (other_status_passes_through example_origin not_found bible_request
                           fresh _ eq_refl Hst)) eq_refl eq_refl).
Defined.

Lemma swr_refresh_serves_next_witness :
  SwDoc.runtime_route bible_request = true
  /\ status (mkResponse 200 type_basic
               "content of https://bible.example/bibles/WEB/John.json") = 200%Z
  /\ received
       (new_events (run (SwDoc.on_fetch example_origin online bible_request) fresh)
          (run (SwDoc.on_fetch example_origin offline bible_request)
             (run (SwDoc.on_fetch example_origin online bible_request) fresh)))
     = Some (mkResponse 200 type_basic
               "content of https://bible.example/bibles/WEB/John.json").
Proof.
  split; [reflexivity|]. split; [reflexivity|].
  exact (proj1 (swr_refresh_serves_next example_origin online offline bible_request fresh _
                  eq_refl eq_refl eq_refl)).
Defined.

(** ** The skip-waiting flag of the listing *)

Section Flag.

Variable location_origin : string.

Lemma swdoc_fetch_keeps_flag net request w :
  skip_waiting (run (SwDoc.on_fetch location_origin net request) w) = skip_waiting w.
Proof.
  unfold SwDoc.on_fetch, SwDoc.staleWhileRevalidate, SwDoc.fetchPromise.
  task_unfold. simpl. fetch_cases net; reflexivity.
Qed.

Lemma swdoc_step_keeps_flag i e :
  match e with
  | Message data => is_skip_message data = false
  | _ => True
  end ->
  skip_waiting (world (step (sw_doc location_origin) i e)) = skip_waiting (world i).
Proof.
  intros He. destruct e as [net | data | | | net request].
  - destruct (phase i) eqn:Hp; try (unfold step; rewrite Hp; reflexivity).
    rewrite (step_install _ _ _ Hp). simpl.
    destruct (swdoc_install_spec location_origin net (world i)) as (-> & Hsk & _).
    exact Hsk.
  - unfold step. destruct (phase i); simpl; try reflexivity;
      rewrite run_message_doc, He; reflexivity.
  - unfold step. destruct (phase i); reflexivity.
  - unfold step. destruct (phase i); simpl; try reflexivity.
    rewrite (proj1 (swdoc_activate_run (world i))). reflexivity.
  - unfold step. destruct (phase i); simpl; try reflexivity.
    apply swdoc_fetch_keeps_flag.
Qed.

(** X9.  In the listing nothing but a message whose data has the type
    ['SKIP_WAITING'] sets the skip-waiting flag: through any sequence
    of install, activate and fetch events and of other messages the
    flag stays unset, and an instance that waits under another
    controller keeps waiting as long as that controller has pages. *)
Theorem swdoc_flag_needs_message (i : Instance) (es : list Stimulus) :
  skip_waiting (world i) = false ->
  Forall (fun e => match e with
                   | Message data => is_skip_message data = false
                   | _ => True
                   end) es ->
  skip_waiting (world (steps (sw_doc location_origin) i es)) = false
  /\ (phase i = Waiting -> controlled_by_other i = true -> ~ In PagesClosed es ->
      phase (steps (sw_doc location_origin) i es) = Waiting).
Proof.
  intros Hflag Hes. revert i Hflag.
  induction Hes as [|e es He _ IH]; intros i Hflag; [auto|].
  assert (skip_waiting (world (step (sw_doc location_origin) i e)) = false) as Hflag'
    by (rewrite (swdoc_step_keeps_flag i e He); exact Hflag).
  destruct (IH _ Hflag') as [IH1 IH2]. split; [exact IH1|].
  intros Hp Hc Hno. simpl.
  assert (phase (step (sw_doc location_origin) i e) = Waiting
          /\ controlled_by_other (step (sw_doc location_origin) i e) = true) as [Hp' Hc'].
  { destruct e as [net | data | | | net request]; unfold step; rewrite Hp; simpl.
    - rewrite Hp. auto.
    - rewrite run_message_doc, He. unfold try_activate. rewrite Hflag, Hc. auto.
    - exfalso. apply Hno. left. reflexivity.
    - rewrite Hp. auto.
    - rewrite Hp. auto. }
  apply IH2; [exact Hp' | exact Hc' |]. intros Hin. apply Hno. right. exact Hin.
Qed.

End Flag.

Lemma swdoc_waits_after_install_witness :
  phase update = Installing
  /\ controlled_by_other update = true
  /\ skip_waiting (world update) = false
  /\ phase (step (sw_doc example_origin) update (DoInstall online)) = Waiting.
Proof.
  split; [reflexivity|]. split; [reflexivity|]. split; [reflexivity|].
  exact (proj1 (swdoc_waits_after_install example_origin update online
                  eq_refl eq_refl eq_refl)).
Defined.

Lemma swdoc_leaves_waiting_witness :
  phase (mkInstance Waiting fresh true) = Waiting
  /\ phase (step (sw_doc example_origin) (mkInstance Waiting fresh true)
              (Message skip_message)) = Activating
  /\ phase (step (sw_doc example_origin) (mkInstance Waiting fresh true)
              (Message (Some (JObj [("type", JStr "PING")])))) <> Activating.
Proof.
  split; [reflexivity|]. split.
  - apply (proj2 (swdoc_leaves_waiting example_origin (mkInstance Waiting fresh true)
                    (Message skip_message) eq_refl eq_refl eq_refl)).
    right. exists skip_message. split; reflexivity.
  - intros H.
    apply (proj1 (swdoc_leaves_waiting example_origin (mkInstance Waiting fresh true)
                    (Message (Some (JObj [("type", JStr "PING")])))
                    eq_refl eq_refl eq_refl)) in H.
    destruct H as [H | [data [H1 H2]]]; [discriminate H|].
    injection H1 as <-. discriminate H2.
Defined.

Lemma swdoc_flag_needs_message_witness :
  skip_waiting (world update) = false
  /\ phase (steps (sw_doc example_origin) (mkInstance Waiting fresh true)
              [Message None; Fetch online bible_request;
               Message (Some (JStr "SKIP_WAITING"))]) = Waiting
  /\ skip_waiting (world (steps (sw_doc example_origin) update
              [DoInstall online; Message (Some (JObj [("type", JStr "PING")]));
               PagesClosed; DoActivate; Fetch offline about_request])) = false.
Proof.
  split; [reflexivity|]. split.
  - apply (proj2 (swdoc_flag_needs_message example_origin (mkInstance Waiting fresh true)
                    [Message None; Fetch online bible_request;
                     Message (Some (JStr "SKIP_WAITING"))] eq_refl
                    ltac:(repeat constructor))); try reflexivity.
    simpl. intros [H | [H | [H | []]]]; discriminate H.
  - apply (proj1 (swdoc_flag_needs_message example_origin update
                    [DoInstall online; Message (Some (JObj [("type", JStr "PING")]));
                     PagesClosed; DoActivate; Fetch offline about_request] eq_refl
                    ltac:(repeat constructor))).
Defined.

Lemma swjs_bad_asset_fails_install_witness :
  phase update = Installing
  /\ In "https://bible.example/index.html" (swjs_precache example_origin)
  /\ phase (steps (sw_js example_origin)
              (step (sw_js example_origin) update
                 (DoInstall (missing "https://bible.example/index.html")))
              [Message skip_message; PagesClosed; DoActivate]) = Redundant.
Proof.
  assert (In "https://bible.example/index.html" (swjs_precache example_origin)) as Hin
    by (vm_compute; tauto).
  split; [reflexivity|]. split; [exact Hin|].
  exact (proj1 (proj2 (swjs_bad_asset_fails_install example_origin update
                         (missing "https://bible.example/index.html")
                         "https://bible.example/index.html"
                         [Message skip_message; PagesClosed; DoActivate]
                         eq_refl Hin eq_refl))).
Defined.

Lemma swr_warm_cache_witness :
  SwDoc.runtime_route bible_request = true
  /\ match_in SwDoc.CACHE_NAME (url bible_request) (caches warm) = Some stale_text
  /\ received (new_events warm (run (SwDoc.on_fetch example_origin online bible_request) warm))
     = Some stale_text
  /\ match_in SwDoc.CACHE_NAME (url bible_request)
       (caches (run (SwDoc.on_fetch example_origin online bible_request) warm))
     = Some (mkResponse 200 type_basic
               "content of https://bible.example/bibles/WEB/John.json")
  /\ match_in SwDoc.CACHE_NAME (url bible_request)
       (caches (run (SwDoc.on_fetch example_origin offline bible_request) warm))
     = Some stale_text.
Proof.
  split; [reflexivity|]. split; [reflexivity|].
  split; [|split].
  - exact (proj1 (swr_warm_cache example_origin online bible_request warm
                    stale_text eq_refl eq_refl)).
  - exact (proj2 (proj2 (swr_warm_cache example_origin online bible_request warm
                           stale_text eq_refl eq_refl))).
  - exact (proj2 (proj2 (swr_warm_cache example_origin offline bible_request warm
                           stale_text eq_refl eq_refl))).
Defined.

(** * The host page *)

Section PageFacts.

Lemma controllerchange_once (p : Page.State) :
  Page.refreshing p = true -> Page.on_controllerchange p = p.
Proof. intros H. unfold Page.on_controllerchange. rewrite H. reflexivity. Qed.

Lemma controllerchange_iter n p :
  Page.refreshing p = true -> Nat.iter n Page.on_controllerchange p = p.
Proof.
  intros H. induction n as [|n IH]; simpl; [reflexivity|].
  rewrite IH. apply controllerchange_once. exact H.
Qed.

(** X11.  The page reloads once however often the controller changes:
    after [n] [controllerchange] events on a page that has not reloaded
    yet, [window.location.reload] was called once if [n] is positive
    and not at all otherwise, and neither the toasts nor the posted
    messages changed. *)
Theorem reload_at_most_once (n : nat) (p : Page.State) :
  Page.refreshing p = false ->
  Nat.iter n Page.on_controllerchange p =
  Page.mkState (negb (n =? 0)%nat) (Page.reloads p + Nat.min 1 n)
               (Page.toasts p) (Page.posted p).
Proof.
  intros H. destruct p as [rf rl ts ps]. simpl in H. subst rf.
  destruct n as [|n].
  - simpl. rewrite Nat.add_0_r. reflexivity.
  - rewrite Nat.iter_succ_r. unfold Page.on_controllerchange at 2. simpl.
    rewrite controllerchange_iter by reflexivity.
    rewrite Nat.add_1_r. reflexivity.
Qed.

Lemma fold_controllerchange script n sys :
  Handoff.run script sys (repeat Handoff.ControllerChange n) =
  Handoff.mkSystem (Nat.iter n Page.on_controllerchange (Handoff.page sys))
                   (Handoff.incoming sys).
Proof.
  unfold Handoff.run. revert sys.
  induction n as [|n IH]; intros [p i]; [reflexivity|].
  change (repeat Handoff.ControllerChange (S n))
    with (Handoff.ControllerChange :: repeat Handoff.ControllerChange n).
  cbn [fold_left]. rewrite IH. cbn [Handoff.happen Handoff.page Handoff.incoming].
  rewrite <- Nat.iter_succ_r. reflexivity.
Qed.

End PageFacts.

Section HandoffFacts.

Variable location_origin : string.

(** The install under a controller ends with one toast on the page and
    the instance waiting. *)
Lemma install_under_controller net w :
  skip_waiting w = false ->
  exists w', skip_waiting w' = false
    /\ Handoff.happen (sw_doc location_origin) (at_update w) (Handoff.UpdateInstalls net) =
       Handoff.mkSystem (Page.mkState false 0 1 []) (mkInstance Waiting w' true).
Proof.
  intros Hflag. unfold at_update, Handoff.happen. cbv zeta.
  cbn [Handoff.incoming Handoff.page].
  set (i0 := mkInstance Installing w true).
  assert (phase (step (sw_doc location_origin) i0 (DoInstall net)) = Waiting
          /\ skip_waiting (world (step (sw_doc location_origin) i0 (DoInstall net))) = false)
    as [Hp Hs].
  { rewrite (step_install _ _ _ (eq_refl : phase i0 = Installing)). simpl.
    destruct (swdoc_install_spec location_origin net w) as (-> & Hsk & _).
    simpl. unfold try_activate. rewrite Hsk, Hflag. auto. }
  assert (controlled_by_other (step (sw_doc location_origin) i0 (DoInstall net)) = true) as Hc.
  { rewrite (step_install _ _ _ (eq_refl : phase i0 = Installing)). simpl.
    destruct (result _ _); reflexivity. }
  destruct (step (sw_doc location_origin) i0 (DoInstall net)) as [ph w' c].
  simpl in Hp, Hs, Hc. subst ph c. exists w'. split; [exact Hs | reflexivity].
Qed.

(** A click while an instance waits: the message, the flag, the
    activation, the claim and the controller change. *)
Lemma click_on_waiting p w :
  Handoff.happen (sw_doc location_origin)
    (Handoff.mkSystem p (mkInstance Waiting w true)) Handoff.ClickReload =
  Handoff.mkSystem
    (Page.on_controllerchange (Page.on_click true p))
    (mkInstance Activated (run SwDoc.activate (run skipWaiting w)) true).
Proof.
  assert (drop (length (Page.posted p)) (Page.posted (Page.on_click true p)) =
          [Some (JObj [("type", JStr "SKIP_WAITING")])]) as Hsent.
  { unfold Page.on_click. cbn [Page.posted]. apply drop_app_length. }
  assert (step (sw_doc location_origin) (mkInstance Waiting w true)
            (Message (Some (JObj [("type", JStr "SKIP_WAITING")]))) =
          mkInstance Activating (run skipWaiting w) true) as Hmsg.
  { unfold step. simpl. rewrite run_message_doc. reflexivity. }
  unfold Handoff.happen.
  change (Handoff.is_waiting (Handoff.incoming
            (Handoff.mkSystem p (mkInstance Waiting w true)))) with true.
  cbn [Handoff.incoming Handoff.page]. rewrite Hsent. cbn [fold_left]. rewrite Hmsg.
  cbn [phase]. unfold Handoff.activate. cbn [Handoff.incoming Handoff.page].
  change (step (sw_doc location_origin) (mkInstance Activating (run skipWaiting w) true)
            DoActivate)
    with (mkInstance Activated (run SwDoc.activate (run skipWaiting w)) true).
  cbn [world]. rewrite (proj1 (swdoc_activate_run (run skipWaiting w))). cbn [log].
  rewrite drop_app_length, existsb_app. cbn [existsb Handoff.is_claim].
  rewrite orb_true_r. reflexivity.
Qed.

(** X12.  The hand-off between the page and the listed worker.  A new
    instance installs while an older one controls the page: the page
    shows one toast.  The user clicks Reload: the page posts one
    message, the waiting instance sets its flag and is activated, its
    [activate] listener claims the page, and the page reloads.  However
    many further [controllerchange] events follow, the page has
    reloaded once. *)
Theorem update_handoff (net : Network) (w : World) (n : nat) :
  skip_waiting w = false ->
  let sys := Handoff.run (sw_doc location_origin) (at_update w)
               ([Handoff.UpdateInstalls net; Handoff.ClickReload]
                ++ repeat Handoff.ControllerChange n) in
  Page.toasts (Handoff.page sys) = 1
  /\ Page.posted (Handoff.page sys) = [skip_message]
  /\ Page.reloads (Handoff.page sys) = 1
  /\ phase (Handoff.incoming sys) = Activated
  /\ skip_waiting (world (Handoff.incoming sys)) = true
  /\ last (log (world (Handoff.incoming sys))) = Some EvClaim.
Proof.
  intros Hflag. cbv zeta. unfold Handoff.run. rewrite fold_left_app.
  fold (Handoff.run (sw_doc location_origin)
          (fold_left (Handoff.happen (sw_doc location_origin))
             [Handoff.UpdateInstalls net; Handoff.ClickReload] (at_update w))
          (repeat Handoff.ControllerChange n)).
  rewrite fold_controllerchange. cbn [fold_left].
  destruct (install_under_controller net w Hflag) as (w' & Hw' & ->).
  rewrite click_on_waiting. cbn [Handoff.page Handoff.incoming].
  rewrite controllerchange_iter by reflexivity.
  cbn [phase world]. rewrite (proj1 (swdoc_activate_run (run skipWaiting w'))).
  cbn [skip_waiting log]. split; [reflexivity|]. split; [reflexivity|].
  split; [reflexivity|]. split; [reflexivity|]. split; [reflexivity|].
  rewrite app_assoc. apply last_snoc.
Qed.

End HandoffFacts.

Lemma update_handoff_witness :
  skip_waiting fresh = false
  /\ Page.reloads (Handoff.page
        (Handoff.run (sw_doc example_origin) (at_update fresh)
           ([Handoff.UpdateInstalls online; Handoff.ClickReload]
            ++ repeat Handoff.ControllerChange 3))) = 1
  /\ phase (Handoff.incoming
        (Handoff.run (sw_doc example_origin) (at_update fresh)
           ([Handoff.UpdateInstalls online; Handoff.ClickReload]
            ++ repeat Handoff.ControllerChange 3))) = Activated.
Proof.
  split; [reflexivity|].
  destruct (update_handoff example_origin online fresh 3 eq_refl)
    as (_ & _ & H1 & H2 & _).
  split; [exact H1 | exact H2].
Defined.

Lemma reload_at_most_once_witness :
  Page.refreshing Page.loaded = false
  /\ Page.reloads (Nat.iter 5 Page.on_controllerchange Page.loaded) = 1
  /\ Page.reloads (Nat.iter 0 Page.on_controllerchange Page.loaded) = 0.
Proof.
  split; [reflexivity|]. split.
  - rewrite (reload_at_most_once 5 Page.loaded eq_refl). reflexivity.
  - rewrite (reload_at_most_once 0 Page.loaded eq_refl). reflexivity.
Defined.

(** * Further properties of the validator *)

(** ** Messages are only ever appended *)


Lemma appends_here {A} (m : V A) :
  (forall acc, snd (m acc) = acc) -> appends m.
Proof.
  intros H [errs warns]. exists [], []. rewrite H. simpl. rewrite !app_nil_r. reflexivity.
Qed.

Lemma appends_ret {A} (a : A) : appends (vret a).
Proof. apply appends_here. reflexivity. Qed.

Lemma appends_lift {A} (r : Exn + A) : appends (lift r).
Proof. apply appends_here. reflexivity. Qed.

Lemma appends_push_error m : appends (push_error m).
Proof. intros acc. exists [m], []. simpl. rewrite app_nil_r. reflexivity. Qed.

Lemma appends_push_warning m : appends (push_warning m).
Proof. intros acc. exists [], [m]. simpl. rewrite app_nil_r. reflexivity. Qed.

Lemma appends_bind {A B} (m : V A) (k : A -> V B) :
  appends m -> (forall a, appends (k a)) -> appends (vbind m k).
Proof.
  intros Hm Hk acc. unfold vbind. destruct (Hm acc) as (es & ws & H).
  destruct (m acc) as [[e|a] acc']; simpl in H; subst acc'.
  - exists es, ws. reflexivity.
  - destruct (Hk a (mkAcc (errors acc ++ es) (warnings acc ++ ws))) as (es' & ws' & H').
    exists (es ++ es'), (ws ++ ws'). rewrite H'. simpl. rewrite !app_assoc. reflexivity.
Qed.

Lemma appends_catch {A} (m : V A) (h : Exn -> V A) :
  appends m -> (forall e, appends (h e)) -> appends (try_catch m h).
Proof.
  intros Hm Hh acc. unfold try_catch. destruct (Hm acc) as (es & ws & H).
  destruct (m acc) as [[e|a] acc']; simpl in H; subst acc'.
  - destruct (Hh e (mkAcc (errors acc ++ es) (warnings acc ++ ws))) as (es' & ws' & H').
    exists (es ++ es'), (ws ++ ws'). rewrite H'. simpl. rewrite !app_assoc. reflexivity.
  - exists es, ws. reflexivity.
Qed.

Lemma appends_when b m : appends m -> appends (when b m).
Proof. intros H. destruct b; [exact H | apply appends_ret]. Qed.

Lemma appends_for_of {A} (xs : list A) (body : A -> V unit) :
  (forall x, appends (body x)) -> appends (for_of xs body).
Proof.
  intros H. induction xs as [|x rest IH]; simpl; [apply appends_ret|].
  apply appends_bind; [apply H | intros _; exact IH].
Qed.

Lemma appends_forEach_from {A} (xs : list A) (body : A -> nat -> V unit) : forall idx,
  (forall x i, appends (body x i)) -> appends (forEach_from idx xs body).
Proof.
  induction xs as [|x rest IH]; intros idx H; simpl; [apply appends_ret|].
  apply appends_bind; [apply H | intros _; apply IH; exact H].
Qed.

Ltac appends_step :=
  first [ apply appends_ret | apply appends_lift | apply appends_push_error
        | apply appends_push_warning | apply appends_when
        | apply appends_for_of; intros ?
        | apply appends_forEach_from; intros ? ?
        | apply appends_catch; [|intros ?]
        | apply appends_bind; [|intros ?] ].

Ltac appends_all :=
  repeat first [ appends_step
               | match goal with
                 | |- appends (if ?b then _ else _) => destruct b
                 | |- appends (match ?x with _ => _ end) => destruct x
                 end ].

Lemma appends_check_verses filePath chapterNum verses :
  appends (check_verses filePath chapterNum verses).
Proof. unfold check_verses. appends_all. Qed.

Lemma appends_check_bible_file fs filePath : appends (check_bible_file fs filePath).
Proof. unfold check_bible_file. appends_all. all: apply appends_check_verses. Qed.


Lemma appends_check_ref bibleData filePath key ref :
  appends (check_ref bibleData filePath key ref).
Proof. unfold check_ref, check_verse. appends_all. Qed.

Lemma appends_validateXrefs fs bibleData : appends (validateXrefs fs bibleData).
Proof.
  unfold validateXrefs, check_xref_file. cbv zeta. appends_all.
  all: apply appends_check_ref.
Qed.

Lemma appends_check_entry filePath entry idx : appends (check_entry filePath entry idx).
Proof. unfold check_entry. cbv zeta. appends_all. Qed.

Lemma appends_validateCommentary fs : appends (validateCommentary fs).
Proof.
  unfold validateCommentary, check_commentary_file. cbv zeta. appends_all.
  all: apply appends_check_entry.
Qed.



(** ** Bible files *)

Section BibleFiles.

Variable filePath : Path.

Lemma verses_all_strings chapterNum verses : forall idx acc,
  forallb is_str verses = true ->
  forEach_from idx verses (fun verse idx =>
    match verse with
    | JStr _ => vret tt
    | _ => push_error (VerseNotString filePath chapterNum (idx + 1))
    end) acc = (inr tt, acc).
Proof.
  induction verses as [|v rest IH]; intros idx acc H; simpl; [reflexivity|].
  simpl in H. apply andb_true_iff in H. destruct H as [Hv Hrest].
  destruct v; try discriminate. rewrite vbind_run. simpl. apply IH. exact Hrest.
Qed.

Lemma verses_not_all_strings chapterNum verses : forall idx acc,
  forallb is_str verses = false ->
  exists e es,
    errors (snd (forEach_from idx verses (fun verse idx =>
      match verse with
      | JStr _ => vret tt
      | _ => push_error (VerseNotString filePath chapterNum (idx + 1))
      end) acc)) = errors acc ++ e :: es.
Proof.
  set (body := fun (verse : JSON) (idx : nat) =>
        match verse with
        | JStr _ => vret tt
        | _ => push_error (VerseNotString filePath chapterNum (idx + 1))
        end).
  induction verses as [|v rest IH]; intros idx acc H; [discriminate|].
  change (forEach_from idx (v :: rest) body)
    with (vbind (body v idx) (fun _ => forEach_from (S idx) rest body)).
  rewrite vbind_run. simpl in H. destruct (is_str v) eqn:Hv.
  - destruct v; try discriminate. simpl. apply IH. exact H.
  - assert (body v idx acc =
            (inr tt, mkAcc (errors acc ++ [VerseNotString filePath chapterNum (idx + 1)])
                           (warnings acc))) as ->
      by (destruct v; try discriminate; reflexivity).
    assert (appends (forEach_from (S idx) rest body)) as Happ.
    { apply appends_forEach_from. intros x i. destruct x; appends_all. }
    destruct (Happ (mkAcc (errors acc ++ [VerseNotString filePath chapterNum (idx + 1)])
                          (warnings acc))) as (es & ws & Hes).
    rewrite Hes. simpl. rewrite <- app_assoc. simpl. eauto.
Qed.

Lemma chapter_check_valid c acc :
  valid_chapter c = true -> chapter_check filePath c acc = (inr tt, acc).
Proof.
  unfold valid_chapter, chapter_check. intros H.
  apply andb_true_iff in H. destruct H as [Hk Hv].
  rewrite vbind_run, Hk. simpl. destruct (snd c) as [| | | |verses|]; try discriminate.
  apply andb_true_iff in Hv. destruct Hv as [Hne Hstr].
  unfold check_verses. rewrite vbind_run.
  destruct verses as [|v rest]; [discriminate|]. simpl when. cbv iota beta.
  unfold vret at 1. cbv iota beta.
  apply verses_all_strings. exact Hstr.
Qed.

Lemma chapter_check_invalid c acc :
  valid_chapter c = false ->
  exists e es, errors (snd (chapter_check filePath c acc)) = errors acc ++ e :: es.
Proof.
  unfold valid_chapter, chapter_check. intros H. rewrite vbind_run.
  destruct (JsString.all_digits (fst c)) eqn:Hk; simpl in *.
  - unfold check_verses. destruct (snd c) as [| | | |verses|]; simpl; eauto.
    rewrite vbind_run. destruct verses as [|v rest]; simpl in H.
    + simpl. eauto.
    + simpl when. unfold vret at 1. cbv iota beta.
      apply verses_not_all_strings. exact H.
  - destruct (appends_check_verses filePath (fst c) (snd c)
                (mkAcc (errors acc ++ [InvalidChapterKey filePath (fst c)]) (warnings acc)))
      as (es & ws & ->).
    simpl. rewrite <- app_assoc. eauto.
Qed.

Lemma chapters_invalid chapters : forall acc,
  forallb valid_chapter chapters = false ->
  exists e es, errors (snd (for_of chapters (chapter_check filePath) acc)) = errors acc ++ e :: es.
Proof.
  induction chapters as [|c rest IH]; intros acc H; simpl in *; [discriminate|].
  rewrite vbind_run. destruct (valid_chapter c) eqn:Hc.
  - rewrite (chapter_check_valid c acc Hc). apply IH. exact H.
  - destruct (chapter_check_invalid c acc Hc) as (e & es & He).
    destruct (chapter_check filePath c acc) as [[x|[]] acc1]; simpl in He; [simpl; eauto|].
    assert (appends (for_of rest (chapter_check filePath))) as Happ.
    { apply appends_for_of. intros x. unfold chapter_check. appends_all.
      apply appends_check_verses. }
    destruct (Happ acc1) as (es' & ws' & ->). simpl. rewrite He, <- app_assoc. simpl. eauto.
Qed.

Lemma chapters_valid chapters : forall acc,
  forallb valid_chapter chapters = true ->
  for_of chapters (chapter_check filePath) acc = (inr tt, acc).
Proof.
  induction chapters as [|c rest IH]; intros acc H; simpl in *; [reflexivity|].
  apply andb_true_iff in H. destruct H as [Hc Hrest].
  rewrite vbind_run, (chapter_check_valid c acc Hc). apply IH. exact Hrest.
Qed.

Lemma check_bible_file_object (fs : Node) chapters acc :
  readFile fs filePath = inr (Some (JObj chapters)) ->
  check_bible_file fs filePath acc =
  try_catch (for_of chapters (chapter_check filePath))
            (fun err => push_error (Thrown filePath err)) acc.
Proof.
  intros H. unfold check_bible_file, try_catch, vbind, lift. rewrite H. reflexivity.
Qed.

Lemma check_bible_file_other (fs : Node) data acc :
  readFile fs filePath = inr (Some data) ->
  valid_bible data = false ->
  (forall chapters, data <> JObj chapters) ->
  exists e, snd (check_bible_file fs filePath acc) = mkAcc (errors acc ++ [e]) (warnings acc).
Proof.
  intros H _ Hobj. unfold check_bible_file, try_catch, vbind, lift. rewrite H.
  destruct data; simpl; eauto. destruct (Hobj _ eq_refl).
Qed.

(** The [try] block for one Bible file: a file that is an object whose
    keys are strings of digits and whose values are non-empty arrays of
    strings adds no message, any other content adds at least one
    error. *)
Lemma check_bible_file_verdict (fs : Node) (data : JSON) (acc : Acc) :
  readFile fs filePath = inr (Some data) ->
  (valid_bible data = true -> check_bible_file fs filePath acc = (inr tt, acc))
  /\ (valid_bible data = false ->
      exists e es,
        errors (snd (check_bible_file fs filePath acc)) = errors acc ++ e :: es).
Proof.
  intros Hread. split; intros Hv.
  - destruct data as [| | | | |chapters]; try discriminate.
    rewrite (check_bible_file_object fs chapters acc Hread). unfold try_catch.
    rewrite (chapters_valid chapters acc Hv). reflexivity.
  - destruct data as [| | | | |chapters].
    6: { rewrite (check_bible_file_object fs chapters acc Hread). unfold try_catch.
         destruct (chapters_invalid chapters acc Hv) as (e & es & He).
         destruct (for_of chapters (chapter_check filePath) acc) as [[x|[]] acc1]; simpl in He |- *.
         - rewrite He, <- app_assoc. simpl. eauto.
         - eauto. }
    all: destruct (check_bible_file_other fs _ acc Hread Hv) as (e & ->);
      [intros ? ?; discriminate|]; simpl; eauto.
Qed.

End BibleFiles.

(** ** References *)

Section References.

Lemma span_spec (p : ascii -> bool) cs a r :
  span p cs = (a, r) ->
  cs = a ++ r /\ forallb p a = true
  /\ match r with [] => True | c :: _ => p c = false end.
Proof.
  revert a r. induction cs as [|c rest IH]; intros a r H; simpl in H.
  - injection H as <- <-. auto.
  - destruct (p c) eqn:Hc.
    + destruct (span p rest) as [a' r'] eqn:Hs. injection H as <- <-.
      destruct (IH a' r' eq_refl) as (-> & Ha & Hr). simpl. rewrite Hc, Ha. auto.
    + injection H as <- <-. simpl. auto.
Qed.

Lemma span_all (p : ascii -> bool) a r :
  forallb p a = true ->
  match r with [] => True | c :: _ => p c = false end ->
  span p (a ++ r) = (a, r).
Proof.
  intros Ha Hr. induction a as [|c a IH]; simpl in *.
  - destruct r as [|c r]; [reflexivity|]. simpl. rewrite Hr. reflexivity.
  - apply andb_true_iff in Ha. destruct Ha as [Hc Ha]. rewrite Hc, (IH Ha). reflexivity.
Qed.

Lemma digit_not_space c : JsString.is_digit c = true -> JsString.is_space c = false.
Proof.
  unfold JsString.is_digit, JsString.is_space. intros H.
  apply andb_true_iff in H. destruct H as [H1 H2].
  apply Nat.leb_le in H1. apply Nat.leb_le in H2.
  apply orb_false_iff. split; [apply orb_false_iff; split|].
  - apply andb_false_iff. right. apply Nat.leb_gt. lia.
  - apply Nat.eqb_neq. lia.
  - apply Nat.eqb_neq. lia.
Qed.

Lemma digits_not_spaces cs :
  forallb JsString.is_digit cs = true ->
  forallb (fun c => negb (JsString.is_space c)) cs = true.
Proof.
  induction cs as [|c cs IH]; simpl; [reflexivity|]. intros H.
  apply andb_true_iff in H. destruct H as [Hc Hcs].
  rewrite (digit_not_space c Hc), (IH Hcs). reflexivity.
Qed.

(** What the tail pattern matches is white space followed by
    characters that are not white space. *)
Lemma match_tail_shape cs ch v1 v2 :
  match_tail cs = Some (ch, v1, v2) ->
  exists ws,
    cs = ws ++ ch ++ ":"%char :: v1
         ++ match v2 with Some v => "-"%char :: v | None => [] end
    /\ nonempty ws = true /\ forallb JsString.is_space ws = true
    /\ nonempty ch = true /\ forallb JsString.is_digit ch = true
    /\ nonempty v1 = true /\ forallb JsString.is_digit v1 = true
    /\ match v2 with
       | Some v => nonempty v = true /\ forallb JsString.is_digit v = true
       | None => True
       end.
Proof.
  unfold match_tail.
  destruct (span JsString.is_space cs) as [ws r1] eqn:H1.
  destruct (span JsString.is_digit r1) as [ch' r2] eqn:H2.
  destruct (nonempty ws && nonempty ch') eqn:Hne; [|discriminate].
  apply andb_true_iff in Hne. destruct Hne as [Hws Hch].
  destruct r2 as [|c r3]; [discriminate|].
  destruct (Ascii.eqb c ":"%char) eqn:Hc.
  2: { destruct c as [[] [] [] [] [] [] [] []]; try discriminate. }
  apply Ascii.eqb_eq in Hc. subst c.
  destruct (span JsString.is_digit r3) as [v1' r4] eqn:H3. cbv iota beta.
  destruct (nonempty v1') eqn:Hv1; [|discriminate].
  destruct (span_spec _ _ _ _ H1) as (-> & Hsp & _).
  destruct (span_spec _ _ _ _ H2) as (-> & Hd1 & _).
  destruct (span_spec _ _ _ _ H3) as (-> & Hd2 & _).
  destruct r4 as [|c r5].
  - intros H. injection H as <- <- <-. exists ws. rewrite app_nil_r. auto 10.
  - destruct (Ascii.eqb c "-"%char) eqn:Hc.
    2: { destruct c as [[] [] [] [] [] [] [] []]; try discriminate. }
    apply Ascii.eqb_eq in Hc. subst c.
    destruct (span JsString.is_digit r5) as [v2' r6] eqn:H4. cbv iota beta.
    destruct (span_spec _ _ _ _ H4) as (-> & Hd3 & _).
    destruct (nonempty v2') eqn:Hv2; [|discriminate].
    destruct r6; [|discriminate]. simpl. intros H. injection H as <- <- <-.
    exists ws. rewrite app_nil_r. auto 10.
Qed.

Lemma match_from_shape rest : forall book_rev r,
  match_from book_rev rest = Some r ->
  exists b T ch v1 v2,
    rest = b ++ T
    /\ match_tail T = Some (ch, v1, v2)
    /\ nonempty (rev book_rev ++ b) = true
    /\ forallb (fun c => negb (JsString.is_line_terminator c)) b = true
    /\ r = mkReference
             (string_of_list_ascii (rev book_rev ++ b))
             (string_of_list_ascii ch)
             (string_of_list_ascii v1)
             (string_of_list_ascii (match v2 with Some v => v | None => v1 end)).
Proof.
  induction rest as [|c rest' IH]; intros book_rev r H; simpl in H; [discriminate|].
  destruct (if nonempty book_rev then match_tail (c :: rest') else None)
    as [[[ch v1] v2]|] eqn:Ht.
  - injection H as <-. exists [], (c :: rest'), ch, v1, v2.
    destruct (nonempty book_rev) eqn:Hb; [|discriminate].
    rewrite app_nil_r. repeat split; try assumption; try reflexivity.
    destruct book_rev as [|x l]; [discriminate|]. simpl.
    destruct (rev l); reflexivity.
  - destruct (JsString.is_line_terminator c) eqn:Hc; [discriminate|].
    destruct (IH _ _ H) as (b & T & ch & v1 & v2 & -> & Hm & Hne & Hlt & ->).
    exists (c :: b), T, ch, v1, v2. simpl in *. rewrite <- app_assoc in *. simpl in *.
    rewrite Hc. repeat split; try assumption; try reflexivity.
Qed.

Lemma list_ascii_of_string_app (a b : string) :
  list_ascii_of_string (a +:+ b) = list_ascii_of_string a ++ list_ascii_of_string b.
Proof. induction a as [|c a IH]; simpl; [reflexivity|]. rewrite IH. reflexivity. Qed.

Lemma string_of_list_ascii_app (a b : list ascii) :
  string_of_list_ascii (a ++ b) = string_of_list_ascii a +:+ string_of_list_ascii b.
Proof. induction a as [|c a IH]; simpl; [reflexivity|]. rewrite IH. reflexivity. Qed.

Lemma all_digits_of_list cs :
  nonempty cs = true -> forallb JsString.is_digit cs = true ->
  JsString.all_digits (string_of_list_ascii cs) = true.
Proof.
  intros Hne Hd. unfold JsString.all_digits.
  rewrite list_ascii_of_string_of_list_ascii.
  destruct cs; [discriminate|exact Hd].
Qed.

(** X15.  Whatever [parseReference] returns is a decomposition of
    the text: the text is the book, white space, the chapter, a colon,
    the first verse and, when a range is given, a dash and the last
    verse; the book is not empty and has no line break, the chapter
    and both verses are strings of digits, and without a range the
    last verse is the first one. *)
Theorem parseReference_sound (ref : string) (r : Reference) :
  parseReference ref = Some r ->
  exists (ws : string) (range : option string),
    ref = book r +:+ ws +:+ chapter r +:+ ":" +:+ verseStart r
          +:+ match range with Some e => "-" +:+ e | None => "" end
    /\ verseEnd r = default (verseStart r) range
    /\ book r <> ""
    /\ forallb (fun c => negb (JsString.is_line_terminator c))
               (list_ascii_of_string (book r)) = true
    /\ ws <> ""
    /\ forallb JsString.is_space (list_ascii_of_string ws) = true
    /\ JsString.all_digits (chapter r) = true
    /\ JsString.all_digits (verseStart r) = true
    /\ JsString.all_digits (verseEnd r) = true.
Proof.
  unfold parseReference. intros H.
  destruct (match_from_shape _ _ _ H) as (b & T & ch & v1 & v2 & Href & Hm & Hne & Hlt & ->).
  destruct (match_tail_shape _ _ _ _ Hm)
    as (ws & -> & Hws & Hsp & Hch & Hdch & Hv1 & Hdv1 & Hv2).
  simpl in Hne. simpl book. simpl chapter. simpl verseStart. simpl verseEnd.
  exists (string_of_list_ascii ws), (option_map string_of_list_ascii v2).
  split; [|split; [|split; [|split; [|split; [|split; [|split; [|split]]]]]]].
  - rewrite <- (string_of_list_ascii_of_string ref), Href.
    rewrite !string_of_list_ascii_app. simpl. rewrite !string_of_list_ascii_app.
    destruct v2; reflexivity.
  - destruct v2; reflexivity.
  - destruct b; [discriminate|]. simpl. discriminate.
  - rewrite list_ascii_of_string_of_list_ascii. exact Hlt.
  - destruct ws; [discriminate|]. simpl. discriminate.
  - rewrite list_ascii_of_string_of_list_ascii. exact Hsp.
  - apply all_digits_of_list; assumption.
  - apply all_digits_of_list; assumption.
  - destruct v2 as [v|]; [destruct Hv2|]; apply all_digits_of_list; assumption.
Qed.

Lemma span_space_rest (b : list ascii) l x T :
  JsString.is_space l = false -> JsString.is_space x = true ->
  forallb (fun c => negb (JsString.is_space c))
          (snd (span JsString.is_space (b ++ l :: x :: T))) = false.
Proof.
  intros Hl Hx. induction b as [|c b IH]; simpl.
  - rewrite Hl. simpl. rewrite Hl, Hx. reflexivity.
  - destruct (JsString.is_space c) eqn:Hc.
    + destruct (span JsString.is_space (b ++ l :: x :: T)) as [a r]. exact IH.
    + simpl. rewrite Hc. simpl. rewrite forallb_app. simpl. rewrite Hx. simpl.
      rewrite !andb_false_r. reflexivity.
Qed.

Lemma head_not_space cs rest :
  nonempty cs = true -> forallb JsString.is_digit cs = true ->
  match cs ++ rest with [] => True | c :: _ => JsString.is_space c = false end.
Proof.
  destruct cs as [|c cs]; [discriminate|]. simpl. intros _ H.
  apply andb_true_iff in H. destruct H as [H _]. apply digit_not_space. exact H.
Qed.

Lemma match_tail_spaced cs ch v1 v2 :
  match_tail cs = Some (ch, v1, v2) ->
  forallb (fun c => negb (JsString.is_space c))
          (snd (span JsString.is_space cs)) = true.
Proof.
  intros H. destruct (match_tail_shape _ _ _ _ H)
    as (ws & -> & Hws & Hsp & Hch & Hdch & Hv1 & Hdv1 & Hv2).
  rewrite (span_all JsString.is_space ws _ Hsp (head_not_space ch _ Hch Hdch)).
  simpl. rewrite forallb_app, (digits_not_spaces _ Hdch). simpl.
  rewrite forallb_app, (digits_not_spaces _ Hdv1). simpl.
  destruct v2 as [v|]; [|reflexivity]. destruct Hv2 as [_ Hd]. simpl.
  exact (digits_not_spaces _ Hd).
Qed.

(** The tail pattern does not match where white space follows a
    character that is not white space. *)
Lemma match_tail_inside (b : list ascii) l x T :
  JsString.is_space l = false -> JsString.is_space x = true ->
  match_tail (b ++ l :: x :: T) = None.
Proof.
  intros Hl Hx. destruct (match_tail (b ++ l :: x :: T)) as [[[ch v1] v2]|] eqn:H;
    [|reflexivity].
  apply match_tail_spaced in H. rewrite (span_space_rest b l x T Hl Hx) in H.
  discriminate.
Qed.

Lemma match_from_book (b : list ascii) l x T ch v1 v2 : forall book_rev,
  JsString.is_space l = false -> JsString.is_space x = true ->
  forallb (fun c => negb (JsString.is_line_terminator c)) (b ++ [l]) = true ->
  match_tail (x :: T) = Some (ch, v1, v2) ->
  match_from book_rev (b ++ l :: x :: T) =
  Some (mkReference
          (string_of_list_ascii (rev book_rev ++ b ++ [l]))
          (string_of_list_ascii ch)
          (string_of_list_ascii v1)
          (string_of_list_ascii (match v2 with Some v => v | None => v1 end))).
Proof.
  induction b as [|c b IH]; intros book_rev Hl Hx Hlt Hm.
  - change ([] ++ l :: x :: T) with (l :: x :: T).
    change (match_from book_rev (l :: x :: T))
      with (match (if nonempty book_rev then match_tail (l :: x :: T) else None) with
            | Some (ch, v1, v2) =>
                Some (mkReference
                  (string_of_list_ascii (rev book_rev))
                  (string_of_list_ascii ch)
                  (string_of_list_ascii v1)
                  (string_of_list_ascii (match v2 with Some v => v | None => v1 end)))
            | None =>
                if JsString.is_line_terminator l then None
                else match_from (l :: book_rev) (x :: T)
            end).
    pose proof (match_tail_inside [] l x T Hl Hx) as Hin.
    change ([] ++ l :: x :: T) with (l :: x :: T) in Hin. rewrite Hin.
    simpl in Hlt. rewrite andb_true_r in Hlt. apply negb_true_iff in Hlt. rewrite Hlt.
    destruct (nonempty book_rev); cbv iota.
    all: change (match_from (l :: book_rev) (x :: T))
      with (match (if nonempty (l :: book_rev) then match_tail (x :: T) else None) with
            | Some (ch, v1, v2) =>
                Some (mkReference
                  (string_of_list_ascii (rev (l :: book_rev)))
                  (string_of_list_ascii ch)
                  (string_of_list_ascii v1)
                  (string_of_list_ascii (match v2 with Some v => v | None => v1 end)))
            | None =>
                if JsString.is_line_terminator x then None
                else match_from (x :: l :: book_rev) T
            end).
    all: simpl nonempty; cbv iota; rewrite Hm; reflexivity.
  - change ((c :: b) ++ l :: x :: T) with (c :: (b ++ l :: x :: T)).
    change (match_from book_rev (c :: (b ++ l :: x :: T)))
      with (match (if nonempty book_rev then match_tail (c :: (b ++ l :: x :: T)) else None) with
            | Some (ch, v1, v2) =>
                Some (mkReference
                  (string_of_list_ascii (rev book_rev))
                  (string_of_list_ascii ch)
                  (string_of_list_ascii v1)
                  (string_of_list_ascii (match v2 with Some v => v | None => v1 end)))
            | None =>
                if JsString.is_line_terminator c then None
                else match_from (c :: book_rev) (b ++ l :: x :: T)
            end).
    pose proof (match_tail_inside (c :: b) l x T Hl Hx) as Hin.
    change ((c :: b) ++ l :: x :: T) with (c :: (b ++ l :: x :: T)) in Hin. rewrite Hin.
    simpl in Hlt. apply andb_true_iff in Hlt. destruct Hlt as [Hc Hlt].
    apply negb_true_iff in Hc. rewrite Hc.
    destruct (nonempty book_rev); cbv iota.
    all: rewrite (IH (c :: book_rev) Hl Hx Hlt Hm); simpl; rewrite <- !app_assoc; reflexivity.
Qed.

Lemma match_tail_complete (ch v1 : list ascii) (v2 : option (list ascii)) :
  nonempty ch = true -> forallb JsString.is_digit ch = true ->
  nonempty v1 = true -> forallb JsString.is_digit v1 = true ->
  match v2 with
  | Some v => nonempty v = true /\ forallb JsString.is_digit v = true
  | None => True
  end ->
  match_tail (" "%char :: ch ++ ":"%char :: v1
              ++ match v2 with Some v => "-"%char :: v | None => [] end)
  = Some (ch, v1, v2).
Proof.
  intros Hch Hdch Hv1 Hdv1 Hv2. unfold match_tail.
  set (rest := ":"%char :: v1 ++ match v2 with Some v => "-"%char :: v | None => [] end).
  pose proof (span_all JsString.is_space [" "%char] (ch ++ rest) eq_refl
                (head_not_space ch rest Hch Hdch)) as Hs.
  change ([" "%char] ++ ch ++ rest) with (" "%char :: ch ++ rest) in Hs.
  rewrite Hs. subst rest.
  rewrite (span_all JsString.is_digit ch (":"%char :: _) Hdch eq_refl).
  rewrite Hch. simpl andb. cbv iota.
  destruct v2 as [v|].
  - destruct Hv2 as [Hv Hdv].
    rewrite (span_all JsString.is_digit v1 ("-"%char :: v) Hdv1 eq_refl). rewrite Hv1.
    rewrite <- (app_nil_r v) at 1.
    rewrite (span_all JsString.is_digit v [] Hdv I). rewrite Hv. reflexivity.
  - rewrite (span_all JsString.is_digit v1 [] Hdv1 I). rewrite Hv1. reflexivity.
Qed.

Lemma all_digits_list s :
  JsString.all_digits s = true ->
  nonempty (list_ascii_of_string s) = true
  /\ forallb JsString.is_digit (list_ascii_of_string s) = true.
Proof.
  unfold JsString.all_digits. destruct (list_ascii_of_string s); [discriminate|].
  intros H. split; [reflexivity|exact H].
Qed.

(** X16.  [parseReference] reads back what [reference_text] writes:
    for a book name that is not empty, has no line break and does not
    end in white space, and a chapter and verses that are strings of
    digits, the text [book chapter:verse] or [book chapter:verse-end]
    parses to exactly these parts, the last verse being the first one
    when no range is written.  The book name may itself contain
    spaces and digits. *)
Theorem parseReference_round_trip (b c v : string) (e : option string) :
  book_name b = true ->
  JsString.all_digits c = true ->
  JsString.all_digits v = true ->
  (forall x, e = Some x -> JsString.all_digits x = true) ->
  parseReference (reference_text b c v e) = Some (mkReference b c v (default v e)).
Proof.
  intros Hb Hc Hv He. unfold parseReference, reference_text.
  rewrite !list_ascii_of_string_app.
  unfold book_name in Hb.
  destruct (rev (list_ascii_of_string b)) as [|l br] eqn:Hrev; [discriminate|].
  apply andb_true_iff in Hb. destruct Hb as [Hl Hlt]. apply negb_true_iff in Hl.
  assert (list_ascii_of_string b = rev br ++ [l]) as Hbook.
  { rewrite <- (rev_involutive (list_ascii_of_string b)), Hrev. reflexivity. }
  rewrite Hbook in *. rewrite <- app_assoc.
  destruct (all_digits_list c Hc) as [Hc1 Hc2].
  destruct (all_digits_list v Hv) as [Hv1 Hv2].
  set (e' := option_map list_ascii_of_string e).
  assert (match e' with
          | Some x => nonempty x = true /\ forallb JsString.is_digit x = true
          | None => True
          end) as He'.
  { destruct e as [x|]; simpl; [|exact I]. apply all_digits_list. apply He. reflexivity. }
  assert (list_ascii_of_string
            match e with Some x => "-" +:+ x | None => "" end
          = match e' with Some x => "-"%char :: x | None => [] end) as ->
    by (destruct e; reflexivity).
  simpl app at 2.
  rewrite (match_from_book (rev br) l " "%char _ _ _ e' [] Hl eq_refl Hlt
             (match_tail_complete _ _ e' Hc1 Hc2 Hv1 Hv2 He')).
  simpl rev. simpl app at 1. rewrite <- Hbook. rewrite !string_of_list_ascii_of_string.
  f_equal. destruct e; simpl; rewrite ?string_of_list_ascii_of_string; reflexivity.
Qed.

End References.

(** ** Cross references into loaded chapters *)

(** X17.  A cross reference that parses, into a book that is loaded
    and a chapter that is an array of [n] verses, is reported exactly
    for the ends of its range that are not verses 1 to [n]: one error
    for the first verse, then one for the last, and no warning. *)
Theorem reference_verse_bounds
    (bibleData : gmap string JSON) (filePath : Path) (key ref : string)
    (parsed : Reference) (bookData : JSON) (verses : list JSON) (acc : Acc) :
  parseReference ref = Some parsed ->
  bibleData !! book parsed = Some bookData ->
  Js.truthy bookData = true ->
  Js.get bookData (chapter parsed) = Some (JArr verses) ->
  let missing (v : Z) :=
    if verse_exists (length verses) v then []
    else [VerseMissing filePath ref v (book parsed) (chapter parsed)] in
  check_ref bibleData filePath key (JStr ref) acc =
  (inr tt,
   mkAcc (errors acc ++ missing (JsString.parseInt (verseStart parsed))
                     ++ missing (JsString.parseInt (verseEnd parsed)))
         (warnings acc)).
Proof.
  intros Hparse Hbook Htruthy Hchapter. cbv zeta.
  unfold check_ref. rewrite Hparse, Hbook, Htruthy, Hchapter.
  change (Js.truthy (JArr verses)) with true.
  change (negb true) with false. cbv iota.
  assert (forall v a,
    check_verse filePath ref parsed v (JArr verses) a =
    (inr tt, mkAcc (errors a ++ (if verse_exists (length verses) v then []
                                 else [VerseMissing filePath ref v (book parsed)
                                         (chapter parsed)]))
                   (warnings a))) as Hverse.
  { intros v a. unfold check_verse, verse_exists, Js.gt. simpl.
    destruct (v <? 1)%Z eqn:H1, (Z.of_nat (length verses) <? v)%Z eqn:H2;
      destruct (1 <=? v)%Z eqn:H3, (v <=? Z.of_nat (length verses))%Z eqn:H4;
      try lia; simpl; try reflexivity;
      destruct a; simpl; rewrite app_nil_r; reflexivity. }
  rewrite vbind_run, Hverse. cbv iota beta. rewrite Hverse. simpl.
  rewrite <- app_assoc. reflexivity.
Qed.

(** ** The books the cross references are checked against *)

Section Loading.

Variable fs : Node.

Lemma load_file_keeps translationPath bibleData file k v :
  bibleData !! k = Some v -> Js.truthy v = true ->
  load_file fs translationPath bibleData file !! k = Some v.
Proof.
  intros Hk Hv. unfold load_file.
  destruct (negb (JsString.endsWith file ".json")); [exact Hk|].
  destruct (readFile fs (translationPath ++ [file])) as [e|[data|]]; try exact Hk.
  destruct (has_book bibleData (basename_json file)) eqn:Ht; [exact Hk|].
  destruct (String.eqb (basename_json file) k) eqn:E.
  - apply String.eqb_eq in E. unfold has_book in Ht. rewrite E, Hk in Ht. congruence.
  - apply String.eqb_neq in E. rewrite lookup_insert_ne by exact E. exact Hk.
Qed.

Lemma load_files_keep translationPath files : forall bibleData k v,
  bibleData !! k = Some v -> Js.truthy v = true ->
  fold_left (load_file fs translationPath) files bibleData !! k = Some v.
Proof.
  induction files as [|f files IH]; intros bibleData k v Hk Hv; [exact Hk|].
  simpl. apply IH; [|exact Hv]. apply load_file_keeps; assumption.
Qed.

Lemma load_translation_keeps bibleData translation k v :
  bibleData !! k = Some v -> Js.truthy v = true ->
  load_translation fs bibleData translation !! k = Some v.
Proof.
  intros Hk Hv. unfold load_translation.
  destruct (readdir fs ["bibles"; translation]); [exact Hk|].
  apply load_files_keep; assumption.
Qed.

Lemma load_translations_keep translations : forall bibleData k v,
  bibleData !! k = Some v -> Js.truthy v = true ->
  fold_left (load_translation fs) translations bibleData !! k = Some v.
Proof.
  induction translations as [|t ts IH]; intros bibleData k v Hk Hv; [exact Hk|].
  simpl. apply IH; [|exact Hv]. apply load_translation_keeps; assumption.
Qed.

Lemma load_files_skip translationPath files k : forall bibleData,
  bibleData !! k = None ->
  (forall f, In f files -> JsString.endsWith f ".json" = true -> basename_json f <> k) ->
  fold_left (load_file fs translationPath) files bibleData !! k = None.
Proof.
  induction files as [|f files IH]; intros bibleData Hk Hother; [exact Hk|].
  simpl. apply IH; [|intros g Hg; apply Hother; right; exact Hg].
  unfold load_file. destruct (JsString.endsWith f ".json") eqn:Hjson; [|exact Hk].
  simpl. destruct (readFile fs (translationPath ++ [f])) as [e|[data|]]; try exact Hk.
  destruct (has_book bibleData (basename_json f)); [exact Hk|].
  rewrite lookup_insert_ne; [exact Hk|]. apply Hother; [left; reflexivity | exact Hjson].
Qed.

(** X18.  The first translation wins: a book file of the first
    translation directory that parses to a truthy value is what
    [loadAllBibleData] returns under the book's name, whatever the
    later files and translations hold.  The book is not named after a
    property that [bibleData] inherits, which would be found in place
    of the file. *)
Theorem first_translation_wins
    (translation : string) (translations before after : list string)
    (file : string) (data : JSON) :
  readdir fs ["bibles"] = inr (translation :: translations) ->
  readdir fs ["bibles"; translation] = inr (before ++ file :: after) ->
  (forall f, In f before -> JsString.endsWith f ".json" = true ->
     basename_json f <> basename_json file) ->
  JsString.endsWith file ".json" = true ->
  Js.inherited (basename_json file) = false ->
  readFile fs ["bibles"; translation; file] = inr (Some data) ->
  Js.truthy data = true ->
  loadAllBibleData fs !! basename_json file = Some data.
Proof.
  intros Hdir Hfiles Hbefore Hjson Hplain Hread Htruthy.
  unfold loadAllBibleData. rewrite Hdir. simpl fold_left.
  apply load_translations_keep; [|exact Htruthy].
  unfold load_translation. rewrite Hfiles, fold_left_app. simpl fold_left.
  apply load_files_keep; [|exact Htruthy].
  pose proof (load_files_skip ["bibles"; translation] before (basename_json file) ∅
                (lookup_empty _) Hbefore) as Hnone.
  unfold load_file at 1. rewrite Hjson. simpl negb. cbv iota.
  change (["bibles"; translation] ++ [file]) with ["bibles"; translation; file].
  unfold has_book. rewrite Hread, Hnone, Hplain. apply lookup_insert_eq.
Qed.

End Loading.

(** ** Counting words *)

Section Words.

Lemma words_word w : forall current rest,
  forallb (fun c => negb (JsString.is_space c)) w = true ->
  words current (w ++ rest) = words (rev w ++ current) rest.
Proof.
  induction w as [|c w IH]; intros current rest H; [reflexivity|].
  simpl in H. apply andb_true_iff in H. destruct H as [Hc Hw].
  apply negb_true_iff in Hc. simpl. rewrite Hc, (IH _ _ Hw), <- app_assoc. reflexivity.
Qed.

Lemma words_blank s : forall rest,
  blank s = true -> words [] (s ++ rest) = words [] rest.
Proof.
  induction s as [|c s IH]; intros rest H; [reflexivity|].
  unfold blank in H. simpl in H. apply andb_true_iff in H. destruct H as [Hc Hs].
  simpl. rewrite Hc. apply IH. exact Hs.
Qed.

Lemma words_gap current s rest :
  nonempty current = true -> nonempty s = true -> blank s = true ->
  words current (s ++ rest) = rev current :: words [] rest.
Proof.
  intros Hcur Hne Hs. destruct s as [|c s]; [discriminate|].
  unfold blank in Hs. simpl in Hs. apply andb_true_iff in Hs. destruct Hs as [Hc Hs].
  simpl. rewrite Hc. destruct current; [discriminate|].
  f_equal. apply words_blank. exact Hs.
Qed.

Lemma words_separated ws :
  separated ws = true ->
  words [] (concat (map (fun p => fst p ++ snd p) ws)) = map fst ws.
Proof.
  induction ws as [|[w s] rest IH]; intros H; [reflexivity|].
  simpl in H. apply andb_true_iff in H. destruct H as [H Hrest].
  apply andb_true_iff in H. destruct H as [H Hlast].
  apply andb_true_iff in H. destruct H as [Hw Hs].
  unfold word in Hw. apply andb_true_iff in Hw. destruct Hw as [Hne Hw].
  simpl. rewrite <- app_assoc, (words_word w [] _ Hw), app_nil_r.
  assert (nonempty (rev w) = true) as Hrev.
  { destruct w as [|c w]; [discriminate|]. simpl. destruct (rev w); reflexivity. }
  destruct s as [|c s].
  - simpl in Hlast. destruct rest; [|discriminate]. simpl.
    destruct (rev w) eqn:E; [discriminate|]. rewrite <- E, rev_involutive. reflexivity.
  - rewrite (words_gap (rev w) (c :: s) _ Hrev eq_refl Hs), rev_involutive, (IH Hrest).
    reflexivity.
Qed.

(** X19.  [countWords] counts words: in a text made of [n] words,
    each a run of characters that are not white space, separated by
    white space of any length and kind, with or without white space
    before the first and after the last, it finds exactly these words
    and so returns [n]. *)
Theorem countWords_counts (lead : list ascii) (ws : list (list ascii * list ascii)) :
  blank lead = true ->
  separated ws = true ->
  words [] (text_of lead ws) = map fst ws
  /\ countWords (string_of_list_ascii (text_of lead ws)) = length ws.
Proof.
  intros Hlead Hws.
  assert (words [] (text_of lead ws) = map fst ws) as H.
  { unfold text_of. rewrite (words_blank lead _ Hlead). apply words_separated. exact Hws. }
  split; [exact H|].
  unfold countWords. rewrite list_ascii_of_string_of_list_ascii, H. apply length_map.
Qed.

End Words.

(** ** Commentary entries *)

Section Commentary.

Variable filePath : Path.

Lemma required_present (fields : list (string * JSON)) idx (names : list string) acc :
  forallb (fun field => bool_decide (is_Some (Js.assoc field fields))) names = true ->
  for_of names (fun field =>
    let! present := lift (has_prop field (JObj fields)) in
    when (negb present) (push_error (MissingField filePath idx field))) acc
  = (inr tt, acc).
Proof.
  induction names as [|n names IH]; intros H; [reflexivity|].
  simpl in H. apply andb_true_iff in H. destruct H as [Hn Hnames].
  simpl for_of. rewrite vbind_run, vbind_run. unfold lift at 1. cbv iota beta.
  unfold has_prop. simpl Js.get. rewrite Hn. simpl. exact (IH Hnames).
Qed.

(** X20.  The excerpt limit.  For an entry that has the required
    fields, with the mode ["excerpt"], the license ["public-domain"],
    a non-empty excerpt and an array of takeaways, [validateCommentary]
    reports nothing when the excerpt has at most 120 words, and
    otherwise one error, which carries the number of words. *)
Theorem excerpt_limit
    (fields : list (string * JSON)) (idx : nat) (text : string)
    (takeaways : list JSON) (acc : Acc) :
  forallb (fun field => bool_decide (is_Some (Js.assoc field fields)))
          requiredFields = true ->
  Js.assoc "mode" fields = Some (JStr "excerpt") ->
  Js.assoc "license" fields = Some (JStr "public-domain") ->
  Js.assoc "excerpt" fields = Some (JStr text) ->
  text <> "" ->
  Js.assoc "takeaways" fields = Some (JArr takeaways) ->
  check_entry filePath (JObj fields) idx acc =
  (inr tt,
   if (countWords text <=? 120)%nat then acc
   else mkAcc (errors acc ++ [ExcerptTooLong filePath idx (countWords text)])
              (warnings acc)).
Proof.
  intros Hreq Hmode Hlicense Hexcerpt Htext Htake.
  unfold check_entry. rewrite vbind_run, (required_present fields idx _ acc Hreq).
  cbv iota beta zeta. simpl Js.get. rewrite Hmode, Hlicense, Hexcerpt, Htake.
  assert (Js.truthy_opt (Some (JStr text)) = true) as Htruthy.
  { simpl. apply negb_true_iff. apply String.eqb_neq. exact Htext. }
  rewrite Htruthy.
  change (Js.is_string "excerpt" (Some (JStr "excerpt"))) with true.
  change (Js.is_string "public-domain" (Some (JStr "public-domain"))) with true.
  change (Js.truthy_opt (Some (JStr "excerpt"))) with true.
  change (Js.truthy_opt (Some (JArr takeaways))) with true.
  change (Js.isArray (default JNull (Some (JArr takeaways)))) with true.
  change (default JNull (Some (JStr text))) with (JStr text).
  change (countWords_of (JStr text)) with (inr (countWords text) : Exn + nat).
  unfold vbind, when, lift, vret, push_error. cbn [andb orb negb].
  rewrite Nat.leb_antisym. destruct (120 <? countWords text)%nat; reflexivity.
Qed.

End Commentary.

(** * The statistics of [validateBibleFiles] *)

Section Counting.

Import Stats.

Lemma counted_refl s : counted s s.
Proof.
  exists []. split; [rewrite app_nil_r; reflexivity|]. intros b. simpl. lia.
Qed.

Lemma counted_trans s1 s2 s3 : counted s1 s2 -> counted s2 s3 -> counted s1 s3.
Proof.
  intros (es1 & He1 & Hc1) (es2 & He2 & Hc2). exists (es1 ++ es2). split.
  - rewrite He2, He1, app_assoc. reflexivity.
  - intros b. rewrite Hc2, Hc1, List.filter_app, length_app. lia.
Qed.

Lemma tracks_ret {A} I (a : A) : tracks I (mret a).
Proof. intros s H. split; [exact H | apply counted_refl]. Qed.

Lemma tracks_lift {A} I (r : Exn + A) : tracks I (mlift r).
Proof. intros s H. split; [exact H | apply counted_refl]. Qed.

Lemma tracks_bind {A B} I (m : M A) (k : A -> M B) :
  tracks I m -> (forall a, tracks I (k a)) -> tracks I (mbind m k).
Proof.
  intros Hm Hk s H. unfold mbind. destruct (Hm s H) as [H1 Hc1].
  destruct (m s) as [[e|a] s1]; simpl in *; [auto|].
  destruct (Hk a s1 H1) as [H2 Hc2]. split; [exact H2|].
  exact (counted_trans _ _ _ Hc1 Hc2).
Qed.

Lemma tracks_try {A} I (m : M A) (h : Exn -> M A) :
  tracks I m -> (forall e, tracks I (h e)) -> tracks I (mtry m h).
Proof.
  intros Hm Hh s H. unfold mtry. destruct (Hm s H) as [H1 Hc1].
  destruct (m s) as [[e|a] s1]; simpl in *; [|auto].
  destruct (Hh e s1 H1) as [H2 Hc2]. split; [exact H2|].
  exact (counted_trans _ _ _ Hc1 Hc2).
Qed.

Lemma tracks_when I b (m : M unit) : tracks I m -> tracks I (mwhen b m).
Proof. intros H. destruct b; [exact H | apply tracks_ret]. Qed.

Lemma tracks_for_of {A} I (xs : list A) (body : A -> M unit) :
  (forall x, tracks I (body x)) -> tracks I (mfor_of xs body).
Proof.
  intros H. induction xs as [|x xs IH]; simpl; [apply tracks_ret|].
  apply tracks_bind; [apply H | intros _; exact IH].
Qed.

Lemma tracks_forEach_from {A} I (xs : list A) (body : A -> nat -> M unit) : forall idx,
  (forall x i, tracks I (body x i)) -> tracks I (mforEach_from idx xs body).
Proof.
  induction xs as [|x xs IH]; intros idx H; simpl; [apply tracks_ret|].
  apply tracks_bind; [apply H | intros _; apply IH; exact H].
Qed.

Lemma about_file (translationPath : Path) (file : string) (msg : Msg) :
  msg_path msg = Some (translationPath ++ [file]) ->
  about (basename_json file) msg = true
  /\ forall b', about b' msg = true -> b' = basename_json file.
Proof.
  intros H. unfold about. rewrite H, last_snoc. split.
  - apply String.eqb_refl.
  - intros b' Hb'. apply String.eqb_eq in Hb'. symmetry. exact Hb'.
Qed.

(** A property [P] of the records that the script keeps: it survives
    the update of a record, and a new record under a name that is not
    inherited. *)
Variable P : gmap string Stat -> Prop.
Hypothesis P_update : forall stats b stat stat',
  P stats -> stats !! b = Some stat -> P (<[b := stat']> stats).
Hypothesis P_create : forall stats b stat,
  P stats -> stats !! b = None -> Js.inherited b = false -> P (<[b := stat]> stats).

Lemma tracks_issue b msg :
  about b msg = true ->
  (forall b', about b' msg = true -> b' = b) ->
  tracks (entered P b) (issue b msg).
Proof.
  intros Hab Honly s [[stat Hstat] HP]. unfold issue, mbind, of_v, push_error, count_issue.
  simpl. rewrite Hstat. simpl. split.
  - split.
    + rewrite lookup_insert_eq. eauto.
    + exact (P_update _ _ _ _ HP Hstat).
  - exists [msg]. split; [reflexivity|]. intros b'. unfold issues_of. simpl.
    destruct (String.eqb b b') eqn:E.
    + apply String.eqb_eq in E. subst b'. rewrite lookup_insert_eq, Hstat, Hab. simpl. lia.
    + apply String.eqb_neq in E. rewrite lookup_insert_ne by exact E.
      destruct (about b' msg) eqn:Hb'; [|simpl; lia].
      exfalso. apply E. symmetry. apply Honly. exact Hb'.
Qed.

Ltac tracks_issue_here :=
  match goal with
  | |- tracks _ (issue _ ?msg) =>
      apply tracks_issue; apply (about_file _ _ msg eq_refl)
  end.

Lemma tracks_check_verses translationPath file chapterNum verses :
  tracks (entered P (basename_json file))
         (check_verses (basename_json file) (translationPath ++ [file]) chapterNum verses).
Proof.
  unfold check_verses. destruct verses; try tracks_issue_here.
  apply tracks_bind.
  - apply tracks_when. tracks_issue_here.
  - intros _. apply tracks_forEach_from. intros x i.
    destruct x; try tracks_issue_here; apply tracks_ret.
Qed.

Lemma tracks_check_bible_file fs translationPath file :
  tracks (entered P (basename_json file))
         (check_bible_file fs (basename_json file) (translationPath ++ [file])).
Proof.
  unfold check_bible_file. apply tracks_try; [|intros e; tracks_issue_here].
  apply tracks_bind; [apply tracks_lift|]. intros content.
  apply tracks_bind; [apply tracks_lift|]. intros data.
  destruct (negb (Js.typeof_object data) || Js.isArray data); [tracks_issue_here|].
  apply tracks_bind; [apply tracks_lift|]. intros chapters.
  apply tracks_for_of. intros c. cbv zeta.
  apply tracks_bind; [apply tracks_when; tracks_issue_here|].
  intros _. apply tracks_check_verses.
Qed.

Lemma counted_enter s stats' own' :
  (forall b', issues_of stats' b' = issues_of (bookStats s) b') ->
  counted s (mkState (acc s) stats' own').
Proof.
  intros H. exists []. split; [rewrite app_nil_r; reflexivity|].
  intros b'. simpl. rewrite H. lia.
Qed.

Lemma tracks_file fs translation file :
  tracks P (check_file fs translation file).
Proof.
  intros s HP. unfold check_file. cbv zeta. unfold mbind, enter.
  destruct (bookStats s !! basename_json file) as [stat|] eqn:Hstat.
  - destruct (tracks_check_bible_file fs ["bibles"; translation] file
                (mkState (acc s)
                   (<[basename_json file :=
                        mkStat (translations stat ++ [translation]) (issues stat)]>
                      (bookStats s))
                   (own_inherited s))) as [[_ H1] H2].
    { split; [simpl; rewrite lookup_insert_eq; eauto|].
      exact (P_update _ _ _ _ HP Hstat). }
    split; [exact H1|]. refine (counted_trans _ _ _ _ H2).
    apply counted_enter. intros b. unfold issues_of.
    destruct (String.eqb (basename_json file) b) eqn:E.
    + apply String.eqb_eq in E. subst b. rewrite lookup_insert_eq, Hstat. reflexivity.
    + apply String.eqb_neq in E. rewrite lookup_insert_ne by exact E. reflexivity.
  - destruct (Js.inherited (basename_json file)) eqn:Hin.
    + simpl. split; [exact HP|].
      apply counted_enter. reflexivity.
    + destruct (tracks_check_bible_file fs ["bibles"; translation] file
                  (mkState (acc s)
                     (<[basename_json file := mkStat [translation] 0]> (bookStats s))
                     (own_inherited s)))
        as [[_ H1] H2].
      { split; [simpl; rewrite lookup_insert_eq; eauto|].
        exact (P_create _ _ _ HP Hstat Hin). }
      split; [exact H1|]. refine (counted_trans _ _ _ _ H2).
      apply counted_enter. intros b. unfold issues_of.
      destruct (String.eqb (basename_json file) b) eqn:E.
      * apply String.eqb_eq in E. subst b. rewrite lookup_insert_eq, Hstat. reflexivity.
      * apply String.eqb_neq in E. rewrite lookup_insert_ne by exact E. reflexivity.
Qed.

Lemma tracks_check_files fs translation files :
  tracks P (check_files fs translation files).
Proof.
  unfold check_files. apply tracks_for_of. intros file.
  destruct (negb (JsString.endsWith file ".json")); [apply tracks_ret|].
  apply tracks_file.
Qed.

Lemma tracks_validateBibleFiles fs : tracks P (validateBibleFiles fs).
Proof.
  unfold validateBibleFiles.
  apply tracks_bind; [apply tracks_lift|]. intros translations.
  apply tracks_for_of. intros translation. unfold check_translation.
  apply tracks_try; [|intros _; apply tracks_ret].
  apply tracks_bind; [apply tracks_lift|]. intros files.
  apply tracks_check_files.
Qed.

End Counting.

Lemma clean_update stats b stat stat' :
  clean stats -> stats !! b = Some stat -> clean (<[b := stat']> stats).
Proof.
  intros Hc Hb k Hk. destruct (String.eqb b k) eqn:E.
  - apply String.eqb_eq in E. subst k. rewrite (Hc b Hk) in Hb. discriminate.
  - apply String.eqb_neq in E. rewrite lookup_insert_ne by exact E. exact (Hc k Hk).
Qed.

Lemma clean_create stats b (stat : Stats.Stat) :
  clean stats -> stats !! b = None -> Js.inherited b = false -> clean (<[b := stat]> stats).
Proof.
  intros Hc _ Hb k Hk. destruct (String.eqb b k) eqn:E.
  - apply String.eqb_eq in E. subst k. congruence.
  - apply String.eqb_neq in E. rewrite lookup_insert_ne by exact E. exact (Hc k Hk).
Qed.

Lemma clean_empty : clean ∅.
Proof. intros bookName _. apply lookup_empty. Qed.

(** X21.  The Issues column counts the errors: from every state of
    [errors] and [bookStats], [validateBibleFiles] only appends to
    [errors], and for every book the count of issues in [bookStats]
    grows by exactly the number of errors it reports about files of
    that book, over all the translations. *)
Theorem issues_count_errors (fs : Node) (s : Stats.State) :
  counted s (snd (Stats.validateBibleFiles fs s)).
Proof.
  exact (proj2 (tracks_validateBibleFiles (fun _ => True) (fun _ _ _ _ _ _ => I)
                  (fun _ _ _ _ _ _ => I) fs s I)).
Qed.

(** ** The statistics and the errors *)

Section Erasure.

Import Stats.

Lemma erases_ret {A} I (a : A) : erases I (mret a) (vret a).
Proof. intros s H. simpl. auto. Qed.

Lemma erases_lift {A} I (r : Exn + A) : erases I (mlift r) (lift r).
Proof. intros s H. simpl. auto. Qed.

Lemma erases_of_v {A} I (v : V A) : erases I (of_v v) v.
Proof. intros s H. simpl. auto. Qed.

Lemma erases_bind {A B} I (m : M A) (v : V A) (k : A -> M B) (k' : A -> V B) :
  erases I m v -> (forall a, erases I (k a) (k' a)) -> erases I (mbind m k) (vbind v k').
Proof.
  intros Hm Hk s H. unfold mbind, vbind. destruct (Hm s H) as (H1 & H2 & H3 & H4).
  destruct (m s) as [r s1]. destruct (v (acc s)) as [r' a1]. simpl in *. subst r' a1.
  destruct r as [e|a]; simpl; [auto|].
  destruct (Hk a s1 H3) as (K1 & K2 & K3 & K4). rewrite K4. auto.
Qed.

Lemma erases_try {A} I (m : M A) (v : V A) (h : Exn -> M A) (h' : Exn -> V A) :
  erases I m v -> (forall e, erases I (h e) (h' e)) ->
  erases I (mtry m h) (try_catch v h').
Proof.
  intros Hm Hh s H. unfold mtry, try_catch. destruct (Hm s H) as (H1 & H2 & H3 & H4).
  destruct (m s) as [r s1]. destruct (v (acc s)) as [r' a1]. simpl in *. subst r' a1.
  destruct r as [e|a]; simpl; [|auto].
  destruct (Hh e s1 H3) as (K1 & K2 & K3 & K4). rewrite K4. auto.
Qed.

Lemma erases_when I b (m : M unit) (v : V unit) :
  erases I m v -> erases I (mwhen b m) (when b v).
Proof. intros H. destruct b; [exact H | apply erases_ret]. Qed.

Lemma erases_for_of {A} I (xs : list A) (f : A -> M unit) (g : A -> V unit) :
  (forall x, In x xs -> erases I (f x) (g x)) -> erases I (mfor_of xs f) (for_of xs g).
Proof.
  induction xs as [|x xs IH]; intros H; simpl; [apply erases_ret|].
  apply erases_bind; [apply H; left; reflexivity|].
  intros _. apply IH. intros y Hy. apply H. right. exact Hy.
Qed.

Lemma erases_forEach_from {A} I (xs : list A)
    (f : A -> nat -> M unit) (g : A -> nat -> V unit) : forall idx,
  (forall x i, erases I (f x i) (g x i)) ->
  erases I (mforEach_from idx xs f) (forEach_from idx xs g).
Proof.
  induction xs as [|x xs IH]; intros idx H; simpl; [apply erases_ret|].
  apply erases_bind; [apply H | intros _; apply IH; exact H].
Qed.

Lemma erases_issue b msg :
  erases (fun stats => is_Some (stats !! b)) (issue b msg) (push_error msg).
Proof.
  intros s [stat Hstat]. unfold issue, mbind, of_v, push_error, count_issue. simpl.
  rewrite Hstat. simpl. rewrite lookup_insert_eq. eauto.
Qed.

Lemma erases_check_verses b filePath chapterNum verses :
  erases (fun stats => is_Some (stats !! b))
         (Stats.check_verses b filePath chapterNum verses)
         (Validator.check_verses filePath chapterNum verses).
Proof.
  unfold Stats.check_verses, Validator.check_verses.
  destruct verses; try apply erases_issue.
  apply erases_bind; [apply erases_when, erases_issue|].
  intros _. apply erases_forEach_from. intros x i.
  destruct x; try apply erases_issue; apply erases_ret.
Qed.

Lemma erases_check_bible_file fs b filePath :
  erases (fun stats => is_Some (stats !! b))
         (Stats.check_bible_file fs b filePath)
         (Validator.check_bible_file fs filePath).
Proof.
  unfold Stats.check_bible_file, Validator.check_bible_file.
  apply erases_try; [|intros e; apply erases_issue].
  apply erases_bind; [apply erases_lift|]. intros content.
  apply erases_bind; [apply erases_lift|]. intros data.
  destruct (negb (Js.typeof_object data) || Js.isArray data); [apply erases_issue|].
  apply erases_bind; [apply erases_lift|]. intros chapters.
  apply erases_for_of. intros c _. cbv zeta.
  apply erases_bind; [apply erases_when, erases_issue|].
  intros _. apply erases_check_verses.
Qed.

(** A file whose book has a record, or a name that is not inherited:
    [enter] does not throw, and the file is checked. *)
Lemma erases_file fs translation file s :
  is_Some (bookStats s !! basename_json file) \/ Js.inherited (basename_json file) = false ->
  fst (check_file fs translation file s)
  = fst (Validator.check_bible_file fs ["bibles"; translation; file] (acc s))
  /\ acc (snd (check_file fs translation file s))
     = snd (Validator.check_bible_file fs ["bibles"; translation; file] (acc s))
  /\ own_inherited (snd (check_file fs translation file s)) = own_inherited s.
Proof.
  intros Henter. unfold check_file. cbv zeta. unfold mbind, enter.
  change (["bibles"; translation] ++ [file]) with ["bibles"; translation; file].
  destruct (bookStats s !! basename_json file) as [stat|] eqn:Hstat.
  - destruct (erases_check_bible_file fs (basename_json file)
                ["bibles"; translation; file]
                (mkState (acc s)
                   (<[basename_json file :=
                        mkStat (translations stat ++ [translation]) (issues stat)]>
                      (bookStats s))
                   (own_inherited s))) as (H1 & H2 & _ & H4);
      [simpl; rewrite lookup_insert_eq; eauto|].
    auto.
  - destruct Henter as [[? H]|Hplain]; [discriminate H|]. rewrite Hplain.
    destruct (erases_check_bible_file fs (basename_json file)
                ["bibles"; translation; file]
                (mkState (acc s)
                   (<[basename_json file := mkStat [translation] 0]> (bookStats s))
                   (own_inherited s)))
      as (H1 & H2 & _ & H4);
      [simpl; rewrite lookup_insert_eq; eauto|].
    auto.
Qed.

Lemma erases_validateBibleFiles fs :
  plain_names fs ->
  erases (fun _ => True) (Stats.validateBibleFiles fs) (Validator.validateBibleFiles fs).
Proof.
  intros Hplain.
  unfold Stats.validateBibleFiles, Validator.validateBibleFiles. cbv zeta.
  apply erases_bind; [apply erases_lift|]. intros translations.
  apply erases_for_of. intros translation _. unfold check_translation.
  apply erases_try; [|intros _; apply erases_ret].
  intros s0 _. unfold mbind, vbind, mlift, lift.
  change (["bibles"] ++ [translation]) with ["bibles"; translation].
  destruct (readdir fs ["bibles"; translation]) as [e|files] eqn:Hdir; [simpl; auto|].
  assert (erases (fun _ => True) (check_files fs translation files)
            (for_of files (fun file =>
               if negb (JsString.endsWith file ".json") then vret tt
               else Validator.check_bible_file fs (["bibles"; translation] ++ [file]))))
    as Hfiles.
  { unfold check_files. apply erases_for_of. intros file Hin.
    destruct (JsString.endsWith file ".json") eqn:Hjson; [|apply erases_ret].
    simpl negb. cbv iota. intros s1 _.
    destruct (erases_file fs translation file s1
                (or_intror (Hplain translation files file Hdir Hin Hjson)))
      as (H1 & H2 & H3).
    auto. }
  exact (Hfiles s0 I).
Qed.

(** X22.  The bookkeeping changes nothing for the errors: when no
    book file is named after a property that objects inherit,
    [validateBibleFiles] ends as it would without [bookStats], with the
    same errors and warnings. *)
Theorem statistics_leave_errors (fs : Node) (s : State) :
  plain_names fs ->
  fst (Stats.validateBibleFiles fs s) = fst (Validator.validateBibleFiles fs (acc s))
  /\ acc (snd (Stats.validateBibleFiles fs s))
     = snd (Validator.validateBibleFiles fs (acc s)).
Proof.
  intros Hplain.
  destruct (erases_validateBibleFiles fs Hplain s I) as (H1 & H2 & _). auto.
Qed.

(** Then the script's [main] is the run on the two arrays. *)
Lemma main_without_statistics (fs : Node) :
  plain_names fs -> Stats.main fs = Validator.main fs.
Proof.
  intros Hplain.
  assert (erases (fun _ => True) (Stats.validation fs) (Validator.validation fs)) as H.
  { unfold Stats.validation, Validator.validation. cbv zeta.
    apply erases_bind; [apply erases_validateBibleFiles; exact Hplain|]. intros _.
    apply erases_bind; [apply erases_of_v|]. intros _. apply erases_of_v. }
  destruct (H initial I) as (H1 & H2 & _ & H4).
  unfold Stats.main, Validator.main.
  destruct (Stats.validation fs initial) as [r s1].
  change (acc initial) with (mkAcc [] []) in H1, H2.
  destruct (Validator.validation fs (mkAcc [] [])) as [r' acc1].
  simpl in H1, H2, H4. subst r' acc1.
  destruct r as [e|[]]; [reflexivity|].
  unfold Stats.printSummary. rewrite H4. reflexivity.
Qed.

(** X14.  The verdict on a Bible file, in the loop over the files of
    a translation.  For a book that has a record or whose name is not
    inherited, the file passes without a message exactly when it is an
    object whose keys are strings of digits and whose values are
    non-empty arrays of strings, and any other content adds at least
    one error.  A file named after an inherited property, without a
    record, is not read: the loop body throws and reports nothing. *)
Theorem bible_file_verdict
    (fs : Node) (translation file : string) (data : JSON) (s : State) :
  readFile fs ["bibles"; translation; file] = inr (Some data) ->
  let out := check_file fs translation file s in
  (is_Some (bookStats s !! basename_json file)
   \/ Js.inherited (basename_json file) = false ->
     (valid_bible data = true -> fst out = inr tt /\ acc (snd out) = acc s)
     /\ (valid_bible data = false ->
         exists e es, errors (acc (snd out)) = errors (acc s) ++ e :: es))
  /\ (bookStats s !! basename_json file = None ->
      Js.inherited (basename_json file) = true ->
      fst out = inl TypeError /\ acc (snd out) = acc s).
Proof.
  intros Hread. cbv zeta. split.
  - intros Henter.
    destruct (erases_file fs translation file s Henter) as (H1 & H2 & _).
    rewrite H1, H2.
    destruct (check_bible_file_verdict ["bibles"; translation; file] fs data (acc s) Hread)
      as [Hvalid Hinvalid].
    split.
    + intros Hv. rewrite (Hvalid Hv). auto.
    + intros Hv. exact (Hinvalid Hv).
  - intros Hnone Hin. unfold check_file. cbv zeta. unfold mbind, enter.
    rewrite Hnone, Hin. auto.
Qed.

(** Files with plain names are all checked: the loop does not throw
    and assigns no inherited value. *)
Lemma check_files_plain fs translation files : forall s,
  (forall f, In f files -> JsString.endsWith f ".json" = true ->
     Js.inherited (basename_json f) = false) ->
  fst (check_files fs translation files s) = inr tt
  /\ own_inherited (snd (check_files fs translation files s)) = own_inherited s.
Proof.
  induction files as [|f files IH]; intros s Hplain; [auto|].
  change (check_files fs translation (f :: files) s)
    with (mbind (if negb (JsString.endsWith f ".json") then mret tt
                 else check_file fs translation f)
                (fun _ => check_files fs translation files) s).
  unfold mbind.
  destruct (JsString.endsWith f ".json") eqn:Hjson;
    [change (negb true) with false | change (negb false) with true]; cbv iota.
  - destruct (erases_file fs translation f s
                (or_intror (Hplain f (or_introl eq_refl) Hjson))) as (H1 & _ & H3).
    assert (fst (Validator.check_bible_file fs ["bibles"; translation; f] (acc s)) = inr tt)
      as Hok.
    { unfold Validator.check_bible_file, try_catch.
      destruct (vbind _ _ (acc s)) as [[e|[]] acc1]; reflexivity. }
    rewrite Hok in H1.
    destruct (check_file fs translation f s) as [r s1]. simpl in H1, H3. subst r.
    destruct (IH s1 (fun g Hg => Hplain g (or_intror Hg))) as [K1 K2].
    cbv iota beta. rewrite K2, H3. auto.
  - unfold mret. apply IH. intros g Hg. apply Hplain. right. exact Hg.
Qed.

(** X23.  The first book file of a translation that is named after an
    inherited property ends the translation: line 48 assigns the
    inherited value to [bookStats] under that name (except for
    [__proto__], where the assignment adds nothing), line 49 throws,
    the [catch] around the loop swallows it, and the files listed
    after it are not read.  What is left is what the loop over the
    files before it leaves, with that one property more; unless the
    name is [__proto__], [printSummary] throws on it. *)
Theorem inherited_name_ends_translation
    (fs : Node) (translation : string) (before after : list string)
    (file : string) (s : State) :
  readdir fs ["bibles"; translation] = inr (before ++ file :: after) ->
  clean (bookStats s) ->
  (forall f, In f before -> JsString.endsWith f ".json" = true ->
     Js.inherited (basename_json f) = false) ->
  JsString.endsWith file ".json" = true ->
  Js.inherited (basename_json file) = true ->
  let s1 := snd (check_files fs translation before s) in
  check_translation fs translation s =
  (inr tt,
   mkState (acc s1) (bookStats s1)
     (if String.eqb (basename_json file) "__proto__" then own_inherited s
      else own_inherited s ++ [basename_json file]))
  /\ (basename_json file <> "__proto__" ->
      Stats.printSummary (snd (check_translation fs translation s)) = inl TypeError).
Proof.
  intros Hdir Hclean Hbefore Hjson Hin. cbv zeta.
  assert (forall xs ys (body : string -> M unit) s0,
            mfor_of (xs ++ ys) body s0 =
            mbind (mfor_of xs body) (fun _ => mfor_of ys body) s0) as Happ.
  { induction xs as [|x xs IH]; intros ys body s0; simpl.
    - unfold mbind, mret. reflexivity.
    - unfold mbind. destruct (body x s0) as [[e|[]] s1]; [reflexivity|].
      rewrite IH. reflexivity. }
  destruct (tracks_check_files clean clean_update clean_create fs translation before s
              Hclean) as [Hclean1 _].
  destruct (check_files_plain fs translation before s Hbefore) as [Hok Hown].
  assert (check_translation fs translation s =
          (inr tt,
           mkState (acc (snd (check_files fs translation before s)))
             (bookStats (snd (check_files fs translation before s)))
             (if String.eqb (basename_json file) "__proto__" then own_inherited s
              else own_inherited s ++ [basename_json file]))) as Heq.
  { unfold check_translation, mtry, mbind, mlift. rewrite Hdir.
    unfold check_files at 1. rewrite Happ.
    fold (check_files fs translation before). unfold mbind at 1.
    destruct (check_files fs translation before s) as [r s1].
    simpl in Hok, Hown, Hclean1 |- *. subst r.
    rewrite Hjson. change (negb true) with false. cbv iota.
    unfold check_file. cbv zeta. unfold mbind, enter. cbv beta.
    rewrite (Hclean1 _ Hin), Hin, Hown. simpl. reflexivity. }
  split; [exact Heq|].
  intros Hproto. rewrite Heq. unfold Stats.printSummary. simpl.
  apply String.eqb_neq in Hproto. rewrite Hproto, existsb_app. simpl.
  unfold broken_key at 2. simpl. rewrite (Hclean1 _ Hin), Hin.
  rewrite orb_true_r. reflexivity.
Qed.

End Erasure.

(** * The run of the script *)

(** ** What the script reads *)

Section ScriptScanned.

Import Stats.

Lemma same_state_bind {A B} (m m' : M A) (k k' : A -> M B) :
  same_state_run m m' -> (forall a, same_state_run (k a) (k' a)) ->
  same_state_run (mbind m k) (mbind m' k').
Proof.
  intros Hm Hk s. unfold mbind. rewrite Hm.
  destruct (m' s) as [[e|a] s']; [reflexivity | apply Hk].
Qed.

Lemma same_state_try {A} (m m' : M A) (h : Exn -> M A) :
  same_state_run m m' -> same_state_run (mtry m h) (mtry m' h).
Proof. intros Hm s. unfold mtry. rewrite Hm. reflexivity. Qed.

Lemma same_state_for_of {A} (xs : list A) (f g : A -> M unit) :
  (forall x, same_state_run (f x) (g x)) -> same_state_run (mfor_of xs f) (mfor_of xs g).
Proof.
  intros H. induction xs as [|x rest IH]; simpl; [intros s; reflexivity|].
  apply same_state_bind; [apply H | intros _; exact IH].
Qed.

Lemma same_state_of_v {A} (v v' : V A) :
  same_run v v' -> same_state_run (of_v v) (of_v v').
Proof. intros H s. unfold of_v. rewrite H. reflexivity. Qed.

Lemma stats_validateBibleFiles_scanned fs :
  same_state_run (Stats.validateBibleFiles (scanned fs)) (Stats.validateBibleFiles fs).
Proof.
  unfold Stats.validateBibleFiles. rewrite readdir_scanned_top.
  apply same_state_bind; [intros s; reflexivity|]. intros translations.
  apply same_state_for_of. intros t. unfold check_translation.
  apply same_state_try. rewrite readdir_scanned_bibles.
  apply same_state_bind; [intros s; reflexivity|]. intros files.
  unfold check_files. apply same_state_for_of. intros file s.
  destruct (negb (JsString.endsWith file ".json")); [reflexivity|].
  unfold check_file. cbv zeta.
  change (["bibles"; t] ++ [file]) with ["bibles"; t; file].
  unfold Stats.check_bible_file. rewrite readFile_scanned_bibles. reflexivity.
Qed.

(** The run depends on the scanned part of the tree only. *)
Lemma stats_main_scanned fs : Stats.main (scanned fs) = Stats.main fs.
Proof.
  unfold Stats.main.
  assert (same_state_run (Stats.validation (scanned fs)) (Stats.validation fs)) as H.
  { unfold Stats.validation. cbv zeta. rewrite loadAllBibleData_scanned.
    apply same_state_bind; [apply stats_validateBibleFiles_scanned|]. intros _.
    apply same_state_bind; [apply same_state_of_v, validateXrefs_scanned|]. intros _.
    apply same_state_of_v, validateCommentary_scanned. }
  rewrite H. reflexivity.
Qed.

(** Accumulated errors give the exit code 1, whatever else happens. *)
Lemma stats_main_errors fs :
  errors (final (Stats.main fs)) <> [] -> exit_code (Stats.main fs) = 1%Z.
Proof.
  unfold Stats.main. destruct (Stats.validation fs initial) as [[e|[]] s]; [reflexivity|].
  destruct (Stats.printSummary s); [reflexivity|]. simpl.
  destruct (errors (acc s)); [congruence | reflexivity].
Qed.

End ScriptScanned.

(** ** What the script reports *)

Section Reports.

Lemma appends_keeps {A} (m : V A) msg acc :
  appends m -> In msg (errors acc) -> In msg (errors (snd (m acc))).
Proof.
  intros Hm Hin. destruct (Hm acc) as (es & ws & ->). simpl.
  apply in_or_app. left. exact Hin.
Qed.

Lemma reports_bind_l {A B} (m : V A) (k : A -> V B) msg :
  reports m msg -> (forall a, appends (k a)) -> reports (vbind m k) msg.
Proof.
  intros Hm Hk acc. unfold vbind. specialize (Hm acc).
  destruct (m acc) as [[e|a] acc1]; simpl in *; [exact Hm|].
  apply appends_keeps; [apply Hk | exact Hm].
Qed.

Lemma reports_bind_r {A B} (m : V A) (k : A -> V B) msg :
  never_throws m -> (forall a, reports (k a) msg) -> reports (vbind m k) msg.
Proof.
  intros Hm Hk acc. unfold vbind. destruct (Hm acc) as (a & acc1 & ->). apply Hk.
Qed.

Lemma reports_catch {A} (m : V A) (h : Exn -> V A) msg :
  reports m msg -> (forall e, appends (h e)) -> reports (try_catch m h) msg.
Proof.
  intros Hm Hh acc. unfold try_catch. specialize (Hm acc).
  destruct (m acc) as [[e|a] acc1]; simpl in *; [|exact Hm].
  apply appends_keeps; [apply Hh | exact Hm].
Qed.

Lemma reports_for_of {A} (xs : list A) (body : A -> V unit) x msg :
  (forall y, never_throws (body y)) -> (forall y, appends (body y)) ->
  In x xs -> reports (body x) msg -> reports (for_of xs body) msg.
Proof.
  intros Hnt Happ Hin Hx. induction xs as [|y rest IH]; [destruct Hin|].
  simpl. destruct Hin as [-> | Hin].
  - apply reports_bind_l; [exact Hx|]. intros _. apply appends_for_of. exact Happ.
  - apply reports_bind_r; [apply Hnt|]. intros _. apply IH. exact Hin.
Qed.

(** A file that is not JSON: each of the three validators reports the
    syntax error under the path of the file. *)
Lemma reports_bible_file fs filePath :
  readFile fs filePath = inr None ->
  reports (check_bible_file fs filePath) (Thrown filePath SyntaxError).
Proof.
  intros H acc. unfold check_bible_file, try_catch, vbind, lift. rewrite H. simpl.
  apply in_or_app. right. left. reflexivity.
Qed.

Lemma reports_xref_file fs bibleData filePath :
  readFile fs filePath = inr None ->
  reports (check_xref_file fs bibleData filePath) (Thrown filePath SyntaxError).
Proof.
  intros H acc. unfold check_xref_file, try_catch, vbind, lift. rewrite H. simpl.
  apply in_or_app. right. left. reflexivity.
Qed.

Lemma reports_commentary_file fs filePath :
  readFile fs filePath = inr None ->
  reports (check_commentary_file fs filePath) (Thrown filePath SyntaxError).
Proof.
  intros H acc. unfold check_commentary_file, try_catch, vbind, lift. rewrite H. simpl.
  apply in_or_app. right. left. reflexivity.
Qed.

Lemma reports_lift {A B} (a : A) (k : A -> V B) msg :
  reports (k a) msg -> reports (vbind (lift (inr a)) k) msg.
Proof. intros H acc. exact (H acc). Qed.

Lemma reports_validateBibleFiles fs translations translation files file :
  readdir fs ["bibles"] = inr translations ->
  In translation translations ->
  readdir fs ["bibles"; translation] = inr files ->
  In file files ->
  JsString.endsWith file ".json" = true ->
  readFile fs ["bibles"; translation; file] = inr None ->
  reports (validateBibleFiles fs) (Thrown ["bibles"; translation; file] SyntaxError).
Proof.
  intros Hdir Ht Hfiles Hfile Hjson Hread.
  unfold validateBibleFiles. cbv zeta. rewrite Hdir. apply reports_lift.
  apply (reports_for_of _ _ translation).
  - intros t. apply never_throws_catch. intros _. apply never_throws_ret.
  - intros t. apply appends_catch; [|intros _; apply appends_ret].
    apply appends_bind; [apply appends_lift|]. intros fl.
    apply appends_for_of. intros f.
    destruct (negb (JsString.endsWith f ".json"));
      [apply appends_ret | apply appends_check_bible_file].
  - exact Ht.
  - apply reports_catch; [|intros _; apply appends_ret].
    change (["bibles"] ++ [translation]) with ["bibles"; translation].
    rewrite Hfiles. apply reports_lift.
    apply (reports_for_of _ _ file).
    + intros f. destruct (negb (JsString.endsWith f ".json")); [apply never_throws_ret|].
      apply never_throws_catch. intros e. apply never_throws_push_error.
    + intros f. destruct (negb (JsString.endsWith f ".json"));
        [apply appends_ret | apply appends_check_bible_file].
    + exact Hfile.
    + rewrite Hjson. simpl negb. cbv iota. apply reports_bible_file. exact Hread.
Qed.

Lemma reports_validateXrefs fs bibleData files file :
  readdir fs ["xrefs"] = inr files ->
  In file files ->
  JsString.endsWith file ".json" = true ->
  readFile fs ["xrefs"; file] = inr None ->
  reports (validateXrefs fs bibleData) (Thrown ["xrefs"; file] SyntaxError).
Proof.
  intros Hfiles Hfile Hjson Hread.
  unfold validateXrefs. cbv zeta.
  apply reports_catch; [|intros _; apply appends_push_warning].
  rewrite Hfiles. apply reports_lift.
  apply (reports_for_of _ _ file).
  - intros f. destruct (negb (JsString.endsWith f ".json")); [apply never_throws_ret|].
    apply never_throws_catch. intros e. apply never_throws_push_error.
  - intros f. destruct (negb (JsString.endsWith f ".json")); [apply appends_ret|].
    unfold check_xref_file. appends_all. all: apply appends_check_ref.
  - exact Hfile.
  - rewrite Hjson. simpl negb. cbv iota. apply reports_xref_file. exact Hread.
Qed.

Lemma reports_validateCommentary fs files file :
  readdir fs ["theology"] = inr files ->
  In file files ->
  JsString.endsWith file ".json" = true ->
  readFile fs ["theology"; file] = inr None ->
  reports (validateCommentary fs) (Thrown ["theology"; file] SyntaxError).
Proof.
  intros Hfiles Hfile Hjson Hread.
  unfold validateCommentary. cbv zeta.
  apply reports_catch; [|intros _; apply appends_push_warning].
  rewrite Hfiles. apply reports_lift.
  apply (reports_for_of _ _ file).
  - intros f. destruct (negb (JsString.endsWith f ".json")); [apply never_throws_ret|].
    apply never_throws_catch. intros e. apply never_throws_push_error.
  - intros f. destruct (negb (JsString.endsWith f ".json")); [apply appends_ret|].
    unfold check_commentary_file. appends_all. all: apply appends_check_entry.
  - exact Hfile.
  - rewrite Hjson. simpl negb. cbv iota. apply reports_commentary_file. exact Hread.
Qed.

Lemma validateBibleFiles_never_throws fs translations :
  readdir fs ["bibles"] = inr translations -> never_throws (validateBibleFiles fs).
Proof.
  intros Hdir acc. pose proof (validateBibleFiles_outcome fs acc) as H.
  rewrite Hdir in H. destruct H as [acc' ->]. eauto.
Qed.

(** The run on the two arrays reports them all. *)
Lemma validation_reports fs translations :
  readdir fs ["bibles"] = inr translations ->
  (forall translation files file,
     In translation translations ->
     readdir fs ["bibles"; translation] = inr files ->
     In file files ->
     JsString.endsWith file ".json" = true ->
     readFile fs ["bibles"; translation; file] = inr None ->
     reports (validation fs) (Thrown ["bibles"; translation; file] SyntaxError))
  /\ (forall files file,
        readdir fs ["xrefs"] = inr files ->
        In file files ->
        JsString.endsWith file ".json" = true ->
        readFile fs ["xrefs"; file] = inr None ->
        reports (validation fs) (Thrown ["xrefs"; file] SyntaxError))
  /\ (forall files file,
        readdir fs ["theology"] = inr files ->
        In file files ->
        JsString.endsWith file ".json" = true ->
        readFile fs ["theology"; file] = inr None ->
        reports (validation fs) (Thrown ["theology"; file] SyntaxError)).
Proof.
  intros Hdir. unfold validation. cbv zeta. split; [|split].
  - intros translation files file Ht Hfiles Hfile Hjson Hread.
    apply reports_bind_l.
    + exact (reports_validateBibleFiles fs translations translation files file
               Hdir Ht Hfiles Hfile Hjson Hread).
    + intros _. apply appends_bind; [apply appends_validateXrefs|].
      intros _. apply appends_validateCommentary.
  - intros files file Hfiles Hfile Hjson Hread.
    apply reports_bind_r; [exact (validateBibleFiles_never_throws fs translations Hdir)|].
    intros _. apply reports_bind_l.
    + exact (reports_validateXrefs fs _ files file Hfiles Hfile Hjson Hread).
    + intros _. apply appends_validateCommentary.
  - intros files file Hfiles Hfile Hjson Hread.
    apply reports_bind_r; [exact (validateBibleFiles_never_throws fs translations Hdir)|].
    intros _. apply reports_bind_r; [apply validateXrefs_never_throws|].
    intros _. exact (reports_validateCommentary fs files file Hfiles Hfile Hjson Hread).
Qed.

Lemma main_final fs : final (main fs) = snd (validation fs (mkAcc [] [])).
Proof. unfold main. destruct (validation fs (mkAcc [] [])) as [[e|[]] acc]; reflexivity. Qed.

End Reports.

(** ** The exit code *)

(** C9, as the script has it.  The validator reads the entries of
    [bibles/] and of its sub-directories and the entries of [xrefs/] and
    [theology/], no deeper: the run on the scanned part of a tree is
    the run on the tree.  Accumulated errors always give the exit code
    1.  When [bibles/] can be listed and no book file is named after an
    inherited property, the run ends with the report, the exit code is
    0 when no errors were accumulated, whatever the warnings, and the
    [.json] files listed in a translation, in [xrefs/] and in
    [theology/] are read: one that is not JSON is among the errors. *)
Theorem validator_exit_code (fs : Node) :
  Stats.main (scanned fs) = Stats.main fs
  /\ (errors (final (Stats.main fs)) <> [] -> exit_code (Stats.main fs) = 1%Z)
  /\ (forall translations,
        readdir fs ["bibles"] = inr translations ->
        plain_names fs ->
        fatal (Stats.main fs) = None
        /\ report (Stats.main fs) = Some (printSummary (final (Stats.main fs)))
        /\ (errors (final (Stats.main fs)) = [] -> exit_code (Stats.main fs) = 0%Z)
        /\ (forall translation files file,
              In translation translations ->
              readdir fs ["bibles"; translation] = inr files ->
              In file files ->
              JsString.endsWith file ".json" = true ->
              readFile fs ["bibles"; translation; file] = inr None ->
              In (Thrown ["bibles"; translation; file] SyntaxError)
                 (errors (final (Stats.main fs))))
        /\ (forall dir files file,
              dir = "xrefs" \/ dir = "theology" ->
              readdir fs [dir] = inr files ->
              In file files ->
              JsString.endsWith file ".json" = true ->
              readFile fs [dir; file] = inr None ->
              In (Thrown [dir; file] SyntaxError) (errors (final (Stats.main fs))))).
Proof.
  split; [apply stats_main_scanned|]. split; [apply stats_main_errors|].
  intros translations Hdir Hplain. rewrite (main_without_statistics fs Hplain).
  destruct (validation_reports fs translations Hdir) as (Hb & Hx & Ht).
  pose proof (main_outcome fs) as H. rewrite Hdir in H. destruct H as [acc Hmain].
  split; [rewrite Hmain; reflexivity|]. split; [rewrite Hmain; reflexivity|].
  split; [rewrite Hmain; simpl; intros ->; reflexivity|].
  rewrite main_final. split.
  - intros translation files file H1 H2 H3 H4 H5.
    exact (Hb translation files file H1 H2 H3 H4 H5 (mkAcc [] [])).
  - intros dir files file [-> | ->] H2 H3 H4 H5.
    + exact (Hx files file H2 H3 H4 H5 (mkAcc [] [])).
    + exact (Ht files file H2 H3 H4 H5 (mkAcc [] [])).
Qed.

Lemma validator_fatal_exits :
  Stats.main no_bibles = mkExit 1%Z None (Some ENOENT) (mkAcc [] [])
  /\ ~ exit_follows_errors no_bibles
  /\ readdir constructor_library ["bibles"] = inr ["WEB"]
  /\ Stats.main constructor_library = mkExit 1%Z None (Some TypeError) (mkAcc [] [])
  /\ ~ exit_follows_errors constructor_library.
Proof.
  split; [reflexivity|]. split.
  - intros [_ H]. specialize (H eq_refl). vm_compute in H. discriminate H.
  - split; [reflexivity|]. split; [reflexivity|].
    intros [_ H]. specialize (H eq_refl). vm_compute in H. discriminate H.
Qed.

(** ** The properties of the validator on the examples *)

Lemma plain_names_empty_bibles (rest : list (string * Node)) :
  plain_names (Dir (("bibles", Dir []) :: rest)).
Proof. intros translation files file Hdir. discriminate Hdir. Qed.

Lemma plain_names_library : plain_names library.
Proof.
  intros translation files file Hdir Hin Hjson.
  unfold readdir, library in Hdir. cbn [find entry] in Hdir.
  change (String.eqb "bibles" "bibles") with true in Hdir.
  cbv iota in Hdir. cbn [entry] in Hdir.
  destruct (String.eqb "WEB" translation).
  - injection Hdir as <-. destruct Hin as [<- | [<- | []]]; [reflexivity | discriminate Hjson].
  - destruct (String.eqb "KJV" translation); [|discriminate Hdir].
    injection Hdir as <-. destruct Hin as [<- | []]. reflexivity.
Qed.

Lemma plain_names_broken_library : plain_names broken_library.
Proof.
  intros translation files file Hdir Hin Hjson.
  unfold readdir, broken_library in Hdir. cbn [find entry] in Hdir.
  change (String.eqb "bibles" "bibles") with true in Hdir.
  cbv iota in Hdir. cbn [entry] in Hdir.
  destruct (String.eqb "WEB" translation); [|discriminate Hdir].
  injection Hdir as <-. destruct Hin as [<- | []]. reflexivity.
Qed.

Lemma validator_exit_code_witness :
  readdir broken_library ["bibles"] = inr ["WEB"]
  /\ plain_names broken_library
  /\ In (Thrown ["bibles"; "WEB"; "John.json"] SyntaxError)
        (errors (final (Stats.main broken_library)))
  /\ In (Thrown ["theology"; "John.json"] SyntaxError)
        (errors (final (Stats.main broken_library)))
  /\ exit_code (Stats.main broken_library) = 1%Z
  /\ Stats.main (scanned nested_xref) = Stats.main nested_xref
  /\ errors (final (Stats.main (xref_tree ["Gen 1"]))) = []
  /\ warnings (final (Stats.main (xref_tree ["Gen 1"]))) <> []
  /\ exit_code (Stats.main (xref_tree ["Gen 1"])) = 0%Z.
Proof.
  split; [reflexivity|]. split; [exact plain_names_broken_library|].
  destruct (validator_exit_code broken_library) as (_ & Herr & H).
  destruct (H ["WEB"] eq_refl plain_names_broken_library) as (_ & _ & _ & Hb & Hd).
  assert (In (Thrown ["bibles"; "WEB"; "John.json"] SyntaxError)
             (errors (final (Stats.main broken_library)))) as Hin.
  { apply (Hb "WEB" ["John.json"] "John.json"); try reflexivity; left; reflexivity. }
  split; [exact Hin|]. split.
  { apply (Hd "theology" ["John.json"] "John.json"); try reflexivity;
      [right; reflexivity | left; reflexivity]. }
  split.
  { apply Herr. intros Hnil. rewrite Hnil in Hin. destruct Hin. }
  split; [exact (proj1 (validator_exit_code nested_xref))|].
  split; [reflexivity|]. split; [vm_compute; discriminate|].
  destruct (validator_exit_code (xref_tree ["Gen 1"])) as (_ & _ & H').
  destruct (H' [] eq_refl (plain_names_empty_bibles _)) as (_ & _ & H0 & _).
  exact (H0 eq_refl).
Defined.

(** C9, as the specification has it, fails on a tree with a file one directory
    below [xrefs/]: the file is not JSON, which is an error when it lies
    in [xrefs/] itself, but one level deeper it is not read, no error
    is accumulated and the exit code is 0. *)
Lemma validator_scan_counterexample :
  find nested_xref ["xrefs"; "archive"; "John.json"] = Some (File None)
  /\ errors (final (Stats.main nested_xref)) = []
  /\ exit_code (Stats.main nested_xref) = 0%Z
  /\ find flat_xref ["xrefs"; "John.json"] = Some (File None)
  /\ errors (final (Stats.main flat_xref)) = [Thrown ["xrefs"; "John.json"] SyntaxError]
  /\ exit_code (Stats.main flat_xref) = 1%Z.
Proof. vm_compute. auto 6. Qed.

Lemma bible_file_verdict_witness :
  readFile library ["bibles"; "WEB"; "John.json"] = inr (Some john)
  /\ valid_bible john = true
  /\ fst (Stats.check_file library "WEB" "John.json" Stats.initial) = inr tt
  /\ readFile constructor_library ["bibles"; "WEB"; "constructor.json"] = inr (Some john)
  /\ fst (Stats.check_file constructor_library "WEB" "constructor.json" Stats.initial)
     = inl TypeError.
Proof.
  split; [reflexivity|]. split; [reflexivity|]. split.
  - exact (proj1 (proj1 (proj1 (bible_file_verdict library "WEB" "John.json" john
                                  Stats.initial eq_refl)
                           (or_intror eq_refl))
                    eq_refl)).
  - split; [reflexivity|].
    exact (proj1 (proj2 (bible_file_verdict constructor_library "WEB" "constructor.json"
                           john Stats.initial eq_refl)
                    eq_refl eq_refl)).
Defined.

Lemma parseReference_sound_witness :
  parseReference "1 John 4:9-10" = Some (mkReference "1 John" "4" "9" "10")
  /\ exists (ws : string) (range : option string),
       "1 John 4:9-10" = "1 John" +:+ ws +:+ "4" +:+ ":" +:+ "9"
                         +:+ match range with Some e => "-" +:+ e | None => "" end
       /\ "10" = default "9" range.
Proof.
  split; [reflexivity|].
  destruct (parseReference_sound "1 John 4:9-10" (mkReference "1 John" "4" "9" "10") eq_refl)
    as (ws & range & H1 & H2 & _).
  exists ws, range. split; [exact H1 | exact H2].
Defined.

Lemma parseReference_round_trip_witness :
  book_name "1 John" = true
  /\ JsString.all_digits "4" = true
  /\ JsString.all_digits "9" = true
  /\ parseReference (reference_text "1 John" "4" "9" (Some "10"))
     = Some (mkReference "1 John" "4" "9" "10")
  /\ parseReference (reference_text "Song of Songs" "2" "1" None)
     = Some (mkReference "Song of Songs" "2" "1" "1").
Proof.
  split; [reflexivity|]. split; [reflexivity|]. split; [reflexivity|]. split.
  - apply (parseReference_round_trip "1 John" "4" "9" (Some "10") eq_refl eq_refl eq_refl).
    intros x H. injection H as <-. reflexivity.
  - apply (parseReference_round_trip "Song of Songs" "2" "1" None eq_refl eq_refl eq_refl).
    intros x H. discriminate H.
Defined.

Lemma reference_verse_bounds_witness :
  parseReference "John 3:2-5" = Some (mkReference "John" "3" "2" "5")
  /\ ({[ "John" := john ]} : gmap string JSON) !! "John" = Some john
  /\ Js.truthy john = true
  /\ check_ref {[ "John" := john ]} ["xrefs"; "John.json"] "3:16" (JStr "John 3:2-5")
       (mkAcc [] [])
     = (inr tt,
        mkAcc [VerseMissing ["xrefs"; "John.json"] "John 3:2-5" 5 "John" "3"] []).
Proof.
  split; [reflexivity|]. split; [reflexivity|]. split; [reflexivity|].
  exact (reference_verse_bounds {[ "John" := john ]} ["xrefs"; "John.json"] "3:16"
           "John 3:2-5" (mkReference "John" "3" "2" "5") john
           [JStr "For God so loved"; JStr "the world"] (mkAcc [] [])
           eq_refl eq_refl eq_refl eq_refl).
Defined.

Lemma first_translation_wins_witness :
  readdir library ["bibles"] = inr ["WEB"; "KJV"]
  /\ readdir library ["bibles"; "WEB"] = inr ([] ++ "John.json" :: ["README.md"])
  /\ JsString.endsWith "John.json" ".json" = true
  /\ Js.inherited (basename_json "John.json") = false
  /\ readFile library ["bibles"; "WEB"; "John.json"] = inr (Some john)
  /\ Js.truthy john = true
  /\ loadAllBibleData library !! "John" = Some john.
Proof.
  split; [reflexivity|]. split; [reflexivity|]. split; [reflexivity|].
  split; [reflexivity|]. split; [reflexivity|]. split; [reflexivity|].
  apply (first_translation_wins library "WEB" ["KJV"] [] ["README.md"] "John.json" john
           eq_refl eq_refl); try reflexivity.
  intros f [].
Defined.

Lemma countWords_counts_witness :
  blank (list_ascii_of_string "  ") = true
  /\ separated [ (list_ascii_of_string "In", list_ascii_of_string " ");
                 (list_ascii_of_string "the", list_ascii_of_string "   ");
                 (list_ascii_of_string "beginning", list_ascii_of_string "") ] = true
  /\ countWords "  In the   beginning" = 3.
Proof.
  split; [reflexivity|]. split; [reflexivity|].
  exact (proj2 (countWords_counts (list_ascii_of_string "  ")
                  [ (list_ascii_of_string "In", list_ascii_of_string " ");
                    (list_ascii_of_string "the", list_ascii_of_string "   ");
                    (list_ascii_of_string "beginning", list_ascii_of_string "") ]
                  eq_refl eq_refl)).
Defined.

Lemma excerpt_limit_witness :
  Js.assoc "excerpt" (excerpt_entry "In the beginning was the Word")
  = Some (JStr "In the beginning was the Word")
  /\ check_entry ["theology"; "John.json"]
       (JObj (excerpt_entry "In the beginning was the Word")) 0 (mkAcc [] [])
     = (inr tt, mkAcc [] []).
Proof.
  split; [reflexivity|].
  refine (excerpt_limit ["theology"; "John.json"]
            (excerpt_entry "In the beginning was the Word") 0
            "In the beginning was the Word" [] (mkAcc [] [])
            eq_refl eq_refl eq_refl eq_refl _ eq_refl).
  discriminate.
Defined.

Lemma statistics_leave_errors_witness :
  plain_names library
  /\ Stats.acc (snd (Stats.validateBibleFiles library Stats.initial))
     = snd (Validator.validateBibleFiles library (mkAcc [] [])).
Proof.
  split; [exact plain_names_library|].
  exact (proj2 (statistics_leave_errors library Stats.initial plain_names_library)).
Defined.

Lemma inherited_name_ends_translation_witness :
  readdir odd_library ["bibles"; "WEB"]
  = inr (["John.json"] ++ "constructor.json" :: ["Mark.json"])
  /\ clean (Stats.bookStats Stats.initial)
  /\ Js.inherited (basename_json "constructor.json") = true
  /\ errors (Stats.acc (snd (Stats.check_translation odd_library "WEB" Stats.initial)))
     = [Thrown ["bibles"; "WEB"; "John.json"] SyntaxError]
  /\ Stats.own_inherited (snd (Stats.check_translation odd_library "WEB" Stats.initial))
     = ["constructor"]
  /\ Stats.printSummary (snd (Stats.check_translation odd_library "WEB" Stats.initial))
     = inl TypeError.
Proof.
  split; [reflexivity|]. split; [exact clean_empty|]. split; [reflexivity|].
  assert (forall f, In f ["John.json"] -> JsString.endsWith f ".json" = true ->
            Js.inherited (basename_json f) = false) as Hbefore.
  { intros f [<- | []] _. reflexivity. }
  destruct (inherited_name_ends_translation odd_library "WEB" ["John.json"] ["Mark.json"]
              "constructor.json" Stats.initial eq_refl clean_empty Hbefore eq_refl eq_refl)
    as [Heq Hsummary].
  split; [rewrite Heq; reflexivity|]. split; [rewrite Heq; reflexivity|].
  apply Hsummary. discriminate.
Defined.
